(** * smech-nace-mapping: a shallow embedding of [generate.py]

    The generator reads two CSV tables, validates and cross-checks them,
    renders two TypeScript modules from string templates and writes them
    out, optionally after piping them through an external formatter.

    Modelling conventions.
    - A Python [str] is a list of Unicode code points ([pystr]).
    - A Python [dict] is an association list in insertion order with
      pairwise distinct keys ([dict]).
    - A file handed to [csv.DictReader] is the list of records that
      [csv.reader] yields for it (a blank line yields the empty record).
    - [print], [subprocess.run], [os.makedirs], [open(..., "w")] and
      [f.write] append an event to a trace when they succeed; the
      formatter and the filesystem answer through oracles and may raise;
      exceptions end the computation.
    - An f-string is kept as the list of its parts ([message]).
    - [str.lower] (full Unicode case mapping) is a parameter of the
      target-sector loader. *)

From Stdlib Require Import List NArith ZArith Bool Lia String Ascii.
From Stdlib Require Import Permutation Sorted.
Import ListNotations.

Set Implicit Arguments.

(** ** Python strings *)

Definition pystr := list N.

(** The code points of an ASCII literal of the source. *)
Definition lit (s : string) : pystr :=
  map N_of_ascii (list_ascii_of_string s).

Fixpoint str_eqb (a b : pystr) : bool :=
  match a, b with
  | [], [] => true
  | x :: a', y :: b' => N.eqb x y && str_eqb a' b'
  | _, _ => false
  end.

(** [a <= b] on [str]: lexicographic on code points. *)
Fixpoint str_leb (a b : pystr) : bool :=
  match a, b with
  | [], _ => true
  | _ :: _, [] => false
  | x :: a', y :: b' => N.ltb x y || (N.eqb x y && str_leb a' b')
  end.

(** [str.isspace] on one code point (CPython's [_PyUnicode_IsWhitespace]). *)
Definition isspace (c : N) : bool :=
  ((9 <=? c) && (c <=? 13) || (28 <=? c) && (c <=? 32)
   || (c =? 133) || (c =? 160) || (c =? 5760)
   || (8192 <=? c) && (c <=? 8202)
   || (c =? 8232) || (c =? 8233) || (c =? 8239) || (c =? 8287)
   || (c =? 12288))%N.

Fixpoint lstrip (s : pystr) : pystr :=
  match s with
  | c :: s' => if isspace c then lstrip s' else s
  | [] => []
  end.

Definition rstrip (s : pystr) : pystr := rev (lstrip (rev s)).

(** [s.strip()] *)
Definition strip (s : pystr) : pystr := rstrip (lstrip s).

(** [s.split()]: the maximal runs of non-whitespace code points. *)
Fixpoint split_ws (cur : pystr) (s : pystr) : list pystr :=
  match s with
  | [] => match cur with [] => [] | _ => [rev cur] end
  | c :: s' =>
      if isspace c
      then match cur with [] => split_ws [] s' | _ => rev cur :: split_ws [] s' end
      else split_ws (c :: cur) s'
  end.

Definition split (s : pystr) : list pystr := split_ws [] s.

(** ** Regular expressions

    The fragment of [re] that [RX_DIGITS] uses: a sequence of atoms, each
    an anchor or a greedy one-or-more repetition of a character class.
    [$] (without [re.MULTILINE]) holds at the end of the string and just
    before a newline that ends the string. *)

Inductive atom : Type :=
  | Bol                               (* ^ *)
  | Eol                               (* $ *)
  | Plus (cls : N -> bool).           (* [...]+ *)

Definition regex := list atom.

Definition at_eol (s : pystr) : bool :=
  match s with
  | [] => true
  | [c] => (c =? 10)%N
  | _ => false
  end.

Section Matcher.
Variable cls : N -> bool.
Variable k : pystr -> bool.

(** One or more [cls], longest first, then the continuation [k]. *)
Fixpoint plus_match (s : pystr) : bool :=
  match s with
  | c :: s' => cls c && (plus_match s' || k s')
  | [] => false
  end.
End Matcher.

(** [re_match r bol s]: [r] matches a prefix of [s]; [bol] tells whether
    [s] starts at the beginning of the subject. *)
Fixpoint re_match (r : regex) (bol : bool) (s : pystr) : bool :=
  match r with
  | [] => true
  | Bol :: r' => bol && re_match r' bol s
  | Eol :: r' => at_eol s && re_match r' bol s
  | Plus cls :: r' => plus_match cls (re_match r' false) s
  end.

(** [pattern.match(value)] is truthy *)
Definition rx_match (r : regex) (value : pystr) : bool := re_match r true value.

Definition digit09 (c : N) : bool := ((48 <=? c) && (c <=? 57))%N.

(** [RX_DIGITS = re.compile("^[0-9]+$")] *)
Definition RX_DIGITS : regex := [Bol; Plus digit09; Eol].

(** ** Messages, exceptions, effects *)

(** The parts of an f-string: literal text, a [str] value formatted with
    [{v}], a value formatted with [{repr(v)}], an [int] formatted with
    [{n}]. *)
Inductive fpart : Type :=
  | Lit (s : string)
  | FStr (v : pystr)
  | FRepr (v : pystr)
  | FInt (n : nat).

Definition message := list fpart.

Inductive exn : Type :=
  | ValueError (m : message)
  | AttributeError                    (* None.strip() on a short row *)
  | StopIteration                     (* next(reader) on an empty file *)
  | CalledProcessError (returncode : Z)
  | OSError (errno : Z).              (* a file or a command the system refuses *)

(** What a run did to the world: a line printed, a process run to its
    end, a directory made, a file opened for writing (created or emptied),
    a text written to it. *)
Inductive event : Type :=
  | Print (m : message)
  | RunProcess (args : list pystr) (input : pystr)
  | Makedirs (path : pystr)
  | OpenFile (path : pystr)
  | WriteFile (path content : pystr).

Inductive result (A : Type) : Type :=
  | Ok (a : A)
  | Raise (e : exn).
Arguments Raise {A} e.

(** A computation: the events it performed, in order, and how it ended. *)
Definition M (A : Type) : Type := (list event * result A)%type.

Definition ret {A} (a : A) : M A := ([], Ok a).
Definition raise {A} (e : exn) : M A := ([], Raise e).
Definition emit (e : event) : M unit := ([e], Ok tt).
Definition print (m : message) : M unit := emit (Print m).

Definition bind {A B} (m : M A) (f : A -> M B) : M B :=
  match m with
  | (t, Raise e) => (t, Raise e)
  | (t, Ok a) => let (t', r) := f a in (t ++ t', r)
  end.

Declare Scope py_scope.
Delimit Scope py_scope with py.
Notation "x <- m ;; k" := (bind m (fun x => k))
  (at level 61, m at next level, right associativity) : py_scope.
Notation "m ;;; k" := (bind m (fun _ => k))
  (at level 61, right associativity) : py_scope.
Open Scope py_scope.

Arguments bind : simpl never.

Definition trace {A} (m : M A) : list event := fst m.
Definition outcome {A} (m : M A) : result A := snd m.

(** ** Row validators *)

Definition expect_just_digits (value : pystr) (fieldname : string) (rownum : nat)
  : M unit :=
  if negb (rx_match RX_DIGITS value)
  then raise (ValueError [Lit fieldname; Lit " is expected to be just digits, but got ";
                          FRepr value; Lit " on row "; FInt rownum])
  else ret tt.

Definition expect_non_digits (value : pystr) (fieldname : string) (rownum : nat)
  : M unit :=
  if rx_match RX_DIGITS value
  then raise (ValueError [Lit fieldname;
                          Lit " is expected to have text not just digits, but got ";
                          FRepr value; Lit " on row "; FInt rownum])
  else ret tt.

(** ** Dictionaries *)

Definition dict := list (pystr * pystr).

Fixpoint dict_get (d : dict) (k : pystr) : option pystr :=
  match d with
  | [] => None
  | (k', v) :: d' => if str_eqb k' k then Some v else dict_get d' k
  end.

(** [k in d] *)
Definition dict_in (k : pystr) (d : dict) : bool :=
  match dict_get d k with Some _ => true | None => false end.

(** [d[k] = v]: an existing key keeps its place, a new key goes last. *)
Fixpoint dict_set (d : dict) (k v : pystr) : dict :=
  match d with
  | [] => [(k, v)]
  | (k', v') :: d' =>
      if str_eqb k' k then (k', v) :: d' else (k', v') :: dict_set d' k v
  end.

Definition keys (d : dict) : list pystr := map fst d.

(** ** CSV rows *)

Definition SMECH_SECTORS_COLUMNS : list string :=
  ["smech_name"; "smech_code"; "nace_name"; "exio2_code"; "exio3_code"; "bcc_code"]%string.

Definition BCC_SECTORS_COLUMNS : list string :=
  ["nace_code"; "ignore1"; "ignore2"; "exio3_name"; "nace_name"; "notes";
   "use_for_bcc"; "bcc_name"]%string.

(** A row of [csv.DictReader]: every field name with the cell at its
    position, or [None] ([restval]) when the record is too short.  Cells
    beyond the field names go under [restkey], which nothing reads. *)
Definition row := list (string * option pystr).

Fixpoint zip_row (fieldnames : list string) (record : list pystr) : row :=
  match fieldnames with
  | [] => []
  | f :: fs =>
      match record with
      | [] => (f, None) :: zip_row fs []
      | c :: cs => (f, Some c) :: zip_row fs cs
      end
  end.

Definition is_blank (record : list pystr) : bool :=
  match record with [] => true | _ => false end.

(** The rows the reader yields: blank records are passed over. *)
Definition DictReader (fieldnames : list string) (file : list (list pystr)) : list row :=
  map (zip_row fieldnames) (filter (fun r => negb (is_blank r)) file).

(** [row[name]] for a name among the field names. *)
Fixpoint item (r : row) (name : string) : option pystr :=
  match r with
  | [] => None
  | (f, v) :: r' => if String.eqb f name then v else item r' name
  end.

(** [v.strip()] where [v] may be [None]. *)
Definition strip_cell (v : option pystr) : M pystr :=
  match v with
  | Some s => ret (strip s)
  | None => raise AttributeError
  end.

(** A cell inside an f-string: [None] prints as the text [None]. *)
Definition fcell (v : option pystr) : fpart :=
  match v with
  | Some s => FStr s
  | None => Lit "None"
  end.

(** ** SMECH-to-target loader *)

(** The body of the [for] loop of [load_smech_to_bcc] on one row: the
    mapping after the row ([continue] leaves it as it was). *)
Definition smech_row (row_idx : nat) (out : dict) (r : row) : M dict :=
  smech_code <- strip_cell (item r "smech_code") ;;
  bcc_code <- strip_cell (item r "bcc_code") ;;
  if str_eqb bcc_code []
  then
    print [Lit "WARNING: Skipping mapping for SMECH code "; FStr smech_code;
           Lit " ("; fcell (item r "smech_name"); Lit ") - no BCC code"] ;;;
    ret out
  else
    expect_just_digits smech_code "smech_code" row_idx ;;;
    expect_just_digits bcc_code "bcc_code" row_idx ;;;
    print [Lit "mapping code "; FStr smech_code; Lit " (";
           fcell (item r "smech_name"); Lit ") to "; FStr bcc_code] ;;;
    if dict_in smech_code out
       && negb (match dict_get out smech_code with
                | Some v => str_eqb v bcc_code
                | None => false
                end)
    then raise (ValueError [Lit "smech_code "; FStr smech_code;
                            Lit " has multiple mappings (duplicate on row ";
                            FInt row_idx; Lit ")"])
    else ret (dict_set out smech_code bcc_code).

(** [for row_idx, row in enumerate(reader, start=row_idx)] *)
Fixpoint smech_rows (row_idx : nat) (out : dict) (rows : list row) : M dict :=
  match rows with
  | [] => ret out
  | r :: rest =>
      out' <- smech_row row_idx out r ;;
      smech_rows (S row_idx) out' rest
  end.

Definition load_smech_to_bcc (file : list (list pystr)) : M dict :=
  match DictReader SMECH_SECTORS_COLUMNS file with
  | [] => raise StopIteration
  | _ :: rows => smech_rows 2 [] rows
  end.

(** ** Target-sector loader *)

Section TargetSectors.
(** [str.lower] *)
Variable lower : pystr -> pystr.

(** [flag in ("x", "y", "yes")] *)
Definition in_yes (flag : pystr) : bool :=
  str_eqb flag (lit "x") || str_eqb flag (lit "y") || str_eqb flag (lit "yes").

(** The body of the [for] loop of [load_bcc_sectors] on one row. *)
Definition bcc_row (row_idx : nat) (out : dict) (r : row) : M dict :=
  nace_code <- strip_cell (item r "nace_code") ;;
  bcc_name <- strip_cell (item r "bcc_name") ;;
  flag <- strip_cell (item r "use_for_bcc") ;;
  let use_for_bcc := in_yes (lower flag) in
  if negb use_for_bcc
  then ret out
  else
    expect_just_digits nace_code "nace_code" row_idx ;;;
    expect_non_digits bcc_name "bcc_name" row_idx ;;;
    if dict_in nace_code out
    then raise (ValueError
                  [Lit "nace_code is expected to be unique but got a duplicate of ";
                   FRepr nace_code; Lit " on row "; FInt row_idx; Lit ". Mistake?"])
    else ret (dict_set out nace_code bcc_name).

Fixpoint bcc_rows (row_idx : nat) (out : dict) (rows : list row) : M dict :=
  match rows with
  | [] => ret out
  | r :: rest =>
      out' <- bcc_row row_idx out r ;;
      bcc_rows (S row_idx) out' rest
  end.

Definition load_bcc_sectors (file : list (list pystr)) : M dict :=
  match DictReader BCC_SECTORS_COLUMNS file with
  | [] => raise StopIteration
  | _ :: rows => bcc_rows 2 [] rows
  end.
End TargetSectors.

(** ** [sorted] with a key: the stable sort *)

Section SortedBy.
Variable A : Type.
Variable key : A -> pystr.

Fixpoint insert_by (x : A) (l : list A) : list A :=
  match l with
  | [] => [x]
  | y :: l' => if str_leb (key x) (key y) then x :: y :: l' else y :: insert_by x l'
  end.

(** [sorted(l, key=key)] *)
Fixpoint sorted (l : list A) : list A :=
  match l with
  | [] => []
  | x :: l' => insert_by x (sorted l')
  end.
End SortedBy.

(** ** JSON encoding ([json.dumps] with [ensure_ascii=True, indent=None]) *)

Definition hexdigit (d : N) : N := (if d <? 10 then 48 + d else 87 + d)%N.

(** ['\\u{0:04x}'.format(n)] for [n < 0x10000] *)
Definition u_escape (n : N) : pystr :=
  [92; 117; hexdigit (n / 4096 mod 16); hexdigit (n / 256 mod 16);
   hexdigit (n / 16 mod 16); hexdigit (n mod 16)]%N.

(** The replacement of one code point in [py_encode_basestring_ascii]. *)
Definition escape_char (c : N) : pystr :=
  (if c =? 92 then [92; 92]
   else if c =? 34 then [92; 34]
   else if (32 <=? c) && (c <=? 126) then [c]
   else if c =? 8 then [92; 98]
   else if c =? 12 then [92; 102]
   else if c =? 10 then [92; 110]
   else if c =? 13 then [92; 114]
   else if c =? 9 then [92; 116]
   else if c <? 65536 then u_escape c
   else let n := c - 65536 in
        u_escape (N.lor 55296 (N.land (N.shiftr n 10) 1023))
        ++ u_escape (N.lor 56320 (N.land n 1023)))%N.

Definition encode_basestring_ascii (s : pystr) : pystr :=
  34%N :: flat_map escape_char s ++ [34%N].

(** [sep.join(l)] *)
Fixpoint join (sep : pystr) (l : list pystr) : pystr :=
  match l with
  | [] => []
  | [x] => x
  | x :: l' => x ++ sep ++ join sep l'
  end.

Definition dumps_item (kv : pystr * pystr) : pystr :=
  encode_basestring_ascii (fst kv) ++ lit ": " ++ encode_basestring_ascii (snd kv).

(** [json.dumps(d, sort_keys=sort_keys, ...)] for a [dict] of strings *)
Definition dumps_dict (sort_keys : bool) (d : dict) : pystr :=
  let items := if sort_keys then sorted (@fst pystr pystr) d else d in
  lit "{" ++ join (lit ", ") (map dumps_item items) ++ lit "}".

(** [json.dumps(l, ...)] for a [list] of such dicts *)
Definition dumps_list (l : list dict) : pystr :=
  lit "[" ++ join (lit ", ") (map (dumps_dict false) l) ++ lit "]".

(** ** Templates ([string.Template]) *)

Inductive segment : Type :=
  | Text (s : string)
  | Placeholder (name : string).

Definition template := list segment.

Fixpoint kw_get (kws : list (string * pystr)) (name : string) : option pystr :=
  match kws with
  | [] => None
  | (n, v) :: kws' => if String.eqb n name then Some v else kw_get kws' name
  end.

(** [t.substitute] with keyword arguments [kws]; a placeholder without a keyword is left empty
    here (the two calls of [main] pass every name their template uses). *)
Fixpoint substitute (t : template) (kws : list (string * pystr)) : pystr :=
  match t with
  | [] => []
  | Text s :: t' => lit s ++ substitute t' kws
  | Placeholder n :: t' =>
      match kw_get kws n with Some v => v | None => [] end ++ substitute t' kws
  end.

Definition BENCHMARK_OUT_NAME : pystr := lit "naces.ts".

Definition BENCHMARK_OUT_TEMPLATE : template :=
  [Text "// GENERATED FILE. DO NOT EDIT BY HAND.
//
// Generated at "; Placeholder "generation_timestamp"; Text ".
// See repository smech-nace-mapping

export interface NaceInfo {
  name: string;
  nace: string;
}

export const SECTOR_LIST: NaceInfo[] = "; Placeholder "sector_list"; Text ";

export type SMECHNaceInfo = { [key: string]: string };

export const SMECH_NACE_MAPPING: SMECHNaceInfo = "; Placeholder "smech_mapping"; Text ";
"].

Definition BCC_SECTORS_OUT_NAME : pystr := lit "sectors.data.ts".

Definition BCC_SECTORS_OUT_TEMPLATE : template :=
  [Text "// GENERATED FILE. DO NOT EDIT BY HAND.
//
// Generated at "; Placeholder "generation_timestamp"; Text ".
// See repository smech-nace-mapping

import { Sector } from './data.model';

export const SECTORS: Sector[] = "; Placeholder "bcc_sector_array"; Text ";
"].

(** ** The formatter and [main] *)

(** [subprocess.CompletedProcess], the fields the program reads. *)
Record CompletedProcess : Type := {
  returncode : Z;
  stdout : pystr
}.

(** The parsed command line ([argparse.Namespace]); [None] is an option
    that was not given. *)
Record Namespace : Type := {
  prettier : option bool;
  prettier_cmd : pystr;
  prettier_config : option pystr;
  prettier_config_bcc : option pystr;
  prettier_config_benchmark : option pystr;
  output_bcc : option pystr;
  output_benchmark : option pystr
}.

(** Truth value of an optional string: [None] and the empty string are
    false. *)
Definition truthy (o : option pystr) : bool :=
  match o with
  | Some (_ :: _) => true
  | _ => false
  end.

(** [a or b] *)
Definition py_or (a b : option pystr) : option pystr :=
  if truthy a then a else b.

(** [a or b] where [b] is a string *)
Definition or_else (a : option pystr) (b : pystr) : pystr :=
  match a with
  | Some (c :: s) => c :: s
  | _ => b
  end.

(** [os.path.join(a, b)] for relative POSIX paths *)
Definition path_join (a b : pystr) : pystr := a ++ lit "/" ++ b.

Definition not_listed : dict := [(lit "name", lit "Not listed"); (lit "nace", [])].

(** [x["name"]] of a sector entry *)
Definition entry_name (x : dict) : pystr :=
  match dict_get x (lit "name") with Some v => v | None => [] end.

(** [sorted(({"name": v, "nace": k} for k, v in bcc_sectors.items()),
            key=lambda x: x["name"])] *)
(** [{"name": v, "nace": k}] for an item [(k, v)] *)
Definition entry_of (kv : pystr * pystr) : dict :=
  [(lit "name", snd kv); (lit "nace", fst kv)].

Definition sector_list_of (bcc_sectors : dict) : list dict :=
  sorted entry_name (map entry_of bcc_sectors).

(** [benchmark_code], as rendered from the template *)
Definition benchmark_code_of (sector_list : list dict) (smech_to_bcc : dict)
           (generation_timestamp : pystr) : pystr :=
  substitute BENCHMARK_OUT_TEMPLATE
    [("sector_list"%string, dumps_list sector_list);
     ("smech_mapping"%string, dumps_dict true smech_to_bcc);
     ("generation_timestamp"%string, generation_timestamp)].

(** [bcc_sectors_code], as rendered from the template *)
Definition bcc_sectors_code_of (sector_list : list dict)
           (generation_timestamp : pystr) : pystr :=
  substitute BCC_SECTORS_OUT_TEMPLATE
    [("bcc_sector_array"%string, dumps_list (sector_list ++ [not_listed]));
     ("generation_timestamp"%string, generation_timestamp)].

(** [output_benchmark] and [output_bcc_sectors] in [main] *)
Definition output_benchmark_path (args : Namespace) : pystr :=
  or_else (output_benchmark args) (path_join (lit "dist") BENCHMARK_OUT_NAME).

Definition output_bcc_sectors_path (args : Namespace) : pystr :=
  or_else (output_bcc args) (path_join (lit "dist") BCC_SECTORS_OUT_NAME).

(** Truth value of an optional flag: [None] and [False] are false. *)
Definition is_true (o : option bool) : bool :=
  match o with
  | Some true => true
  | _ => false
  end.

(** The two files [main] writes, in the order it writes them. *)
Inductive output : Type :=
  | BenchmarkModule                   (* with open(output_benchmark, "w") ... *)
  | SectorsModule.                    (* with open(output_bcc_sectors, "w") ... *)

(** What the filesystem answers to each call [main] makes: to
    [os.makedirs(path, exist_ok=True)], to [open(path, "w")] for either
    file, and to the [f.write(code)] that follows (with the close at the
    end of the [with] block). *)
Record Filesystem : Type := {
  os_makedirs : pystr -> result unit;
  open_for_writing : output -> pystr -> result unit;
  write_and_close : output -> pystr -> pystr -> result unit
}.

Section Program.
Variable lower : pystr -> pystr.
(** What [subprocess.run(args, input=code, ...)] does: the completed
    process, or the exception of a command that could not be run. *)
Variable subprocess_run : list pystr -> pystr -> result CompletedProcess.
Variable fs : Filesystem.

(** The command line of the formatter for one file. *)
Definition prettier_args (code_path cmd : pystr) (config_path : option pystr)
  : list pystr :=
  let args := split cmd in
  let args := match config_path with
              | Some p => args ++ [lit "--config"; p]
              | None => args
              end in
  args ++ [lit "--stdin-filepath"; code_path].

Definition prettier_format_code (code code_path cmd : pystr)
           (config_path : option pystr) : M pystr :=
  let args := prettier_args code_path cmd config_path in
  match subprocess_run args code with
  | Raise e => raise e
  | Ok prettier =>
      emit (RunProcess args code) ;;;
      (* prettier.check_returncode() *)
      if negb (returncode prettier =? 0)%Z
      then raise (CalledProcessError (returncode prettier))
      else ret (stdout prettier)
  end.

(** [os.makedirs(path, exist_ok=True)] *)
Definition makedirs (path : pystr) : M unit :=
  match os_makedirs fs path with
  | Raise e => raise e
  | Ok _ => emit (Makedirs path)
  end.

(** [with open(path, "w", encoding="utf-8") as f: f.write(code)] *)
Definition write_text (o : output) (path code : pystr) : M unit :=
  match open_for_writing fs o path with
  | Raise e => raise e
  | Ok _ =>
      emit (OpenFile path) ;;;
      match write_and_close fs o path code with
      | Raise e => raise e
      | Ok _ => emit (WriteFile path code)
      end
  end.

(** The end of [main], from "Write it out" on. *)
Definition write_out (args : Namespace) (benchmark_code bcc_sectors_code : pystr)
  : M unit :=
  (if negb (truthy (output_bcc args)) || negb (truthy (output_benchmark args))
   then makedirs (lit "dist")
   else ret tt) ;;;
  write_text BenchmarkModule (output_benchmark_path args) benchmark_code ;;;
  write_text SectorsModule (output_bcc_sectors_path args) bcc_sectors_code.

(** The cross-reference check of [main]: the loop over
    [smech_to_bcc.items()]. *)
Fixpoint verify_codes (items : dict) (bcc_sectors : dict) : M unit :=
  match items with
  | [] => ret tt
  | (k, v) :: rest =>
      if negb (dict_in v bcc_sectors)
      then raise (ValueError [Lit "SMECH code "; FStr k; Lit " maps to NACE "; FStr v;
                              Lit " which is not in the BCC sector list"])
      else verify_codes rest bcc_sectors
  end.

(** The second half of [main], from the timestamp on: render the two
    modules, format them if asked to, write them out. *)
Definition build_and_write (args : Namespace) (smech_to_bcc bcc_sectors : dict)
           (generation_timestamp : pystr) : M unit :=
  let sector_list := sector_list_of bcc_sectors in
  let benchmark_code := benchmark_code_of sector_list smech_to_bcc generation_timestamp in
  let bcc_sectors_code := bcc_sectors_code_of sector_list generation_timestamp in
  codes <-
    (if is_true (prettier args)
     then
       benchmark_code' <-
         prettier_format_code benchmark_code (lit "naces.ts") (prettier_cmd args)
           (py_or (prettier_config_benchmark args) (prettier_config args)) ;;
       bcc_sectors_code' <-
         prettier_format_code bcc_sectors_code (lit "sectors.data.ts")
           (prettier_cmd args)
           (py_or (prettier_config_bcc args) (prettier_config args)) ;;
       ret (benchmark_code', bcc_sectors_code')
     else ret (benchmark_code, bcc_sectors_code)) ;;
  write_out args (fst codes) (snd codes).

(** [main], given the parsed arguments, the records of the two data
    files and the timestamp [datetime.now().isoformat()] returns. *)
Definition main (args : Namespace) (smech_file bcc_file : list (list pystr))
           (generation_timestamp : pystr) : M unit :=
  smech_to_bcc <- load_smech_to_bcc smech_file ;;
  bcc_sectors <- load_bcc_sectors lower bcc_file ;;
  verify_codes smech_to_bcc bcc_sectors ;;;
  build_and_write args smech_to_bcc bcc_sectors generation_timestamp.
End Program.

(** The files a run wrote, in order. *)
Definition written (t : list event) : list (pystr * pystr) :=
  flat_map (fun e => match e with WriteFile p c => [(p, c)] | _ => [] end) t.

(** ** JSON decoding

    The reader of the generated payloads: Python's [json.loads]
    ([py_scanstring], [JSONObject], [JSONArray]) on the two shapes the
    generator emits, an object of strings and an array of such objects. *)

Definition unhex (c : N) : option N :=
  (if (48 <=? c) && (c <=? 57) then Some (c - 48)
   else if (97 <=? c) && (c <=? 102) then Some (c - 87)
   else if (65 <=? c) && (c <=? 70) then Some (c - 55)
   else None)%N.

(** [_decode_uXXXX]: the number four hexadecimal digits denote *)
Definition decode_uXXXX (h1 h2 h3 h4 : N) : option N :=
  match unhex h1, unhex h2, unhex h3, unhex h4 with
  | Some a, Some b, Some c, Some d => Some (((a * 16 + b) * 16 + c) * 16 + d)%N
  | _, _, _, _ => None
  end.

(** [BACKSLASH]: the one-letter escapes *)
Definition backslash (e : N) : option N :=
  (if e =? 34 then Some 34 else if e =? 92 then Some 92
   else if e =? 47 then Some 47 else if e =? 98 then Some 8
   else if e =? 102 then Some 12 else if e =? 110 then Some 10
   else if e =? 114 then Some 13 else if e =? 116 then Some 9
   else None)%N.

Definition is_high_surrogate (u : N) : bool := ((55296 <=? u) && (u <=? 56319))%N.
Definition is_low_surrogate (u : N) : bool := ((56320 <=? u) && (u <=? 57343))%N.

Definition join_surrogates (u u2 : N) : N :=
  (65536 + N.lor (N.shiftl (u - 55296) 10) (u2 - 56320))%N.

Definition cons_chr (c : N) (r : option (pystr * pystr)) : option (pystr * pystr) :=
  match r with
  | Some (s, rest) => Some (c :: s, rest)
  | None => None
  end.

(** [py_scanstring] (strict), from just after the opening quote: the
    decoded string and what follows the closing quote. *)
Fixpoint scanstring (s : pystr) : option (pystr * pystr) :=
  match s with
  | [] => None
  | c :: r =>
      if (c =? 34)%N then Some ([], r)
      else if (c =? 92)%N then
        match r with
        | [] => None
        | e :: r1 =>
            if (e =? 117)%N then
              match r1 with
              | h1 :: h2 :: h3 :: h4 :: r2 =>
                  match decode_uXXXX h1 h2 h3 h4 with
                  | None => None
                  | Some uni =>
                      if is_high_surrogate uni then
                        match r2 with
                        | b :: u :: g1 :: g2 :: g3 :: g4 :: r3 =>
                            if ((b =? 92) && (u =? 117))%N then
                              match decode_uXXXX g1 g2 g3 g4 with
                              | None => None
                              | Some uni2 =>
                                  if is_low_surrogate uni2
                                  then cons_chr (join_surrogates uni uni2) (scanstring r3)
                                  else cons_chr uni (scanstring r2)
                              end
                            else cons_chr uni (scanstring r2)
                        | _ => cons_chr uni (scanstring r2)
                        end
                      else cons_chr uni (scanstring r2)
                  end
              | _ => None
              end
            else
              match backslash e with
              | Some ch => cons_chr ch (scanstring r1)
              | None => None
              end
        end
      else if (c <? 32)%N then None
      else cons_chr c (scanstring r)
  end.

(** JSON whitespace *)
Definition is_ws (c : N) : bool := ((c =? 32) || (c =? 9) || (c =? 10) || (c =? 13))%N.

Fixpoint skip_ws (s : pystr) : pystr :=
  match s with
  | c :: s' => if is_ws c then skip_ws s' else s
  | [] => []
  end.

(** The next code point must be [c]. *)
Definition expect (c : N) (s : pystr) : option pystr :=
  match s with
  | x :: r => if (x =? c)%N then Some r else None
  | [] => None
  end.

(** The members of an object after the opening brace, at a key. *)
Fixpoint object_pairs (fuel : nat) (s : pystr) : option (list (pystr * pystr) * pystr) :=
  match fuel with
  | O => None
  | S fuel' =>
      match expect 34 s with
      | None => None
      | Some r =>
          match scanstring r with
          | None => None
          | Some (k, r1) =>
              match expect 58 (skip_ws r1) with
              | None => None
              | Some r2 =>
                  match expect 34 (skip_ws r2) with
                  | None => None
                  | Some r3 =>
                      match scanstring r3 with
                      | None => None
                      | Some (v, r4) =>
                          match skip_ws r4 with
                          | x :: r5 =>
                              if (x =? 125)%N then Some ([(k, v)], r5)
                              else if (x =? 44)%N then
                                match object_pairs fuel' (skip_ws r5) with
                                | Some (ps, r6) => Some ((k, v) :: ps, r6)
                                | None => None
                                end
                              else None
                          | [] => None
                          end
                      end
                  end
              end
          end
      end
  end.

(** [dict(pairs)]: later pairs overwrite earlier ones with the same key. *)
Definition dict_of_pairs (ps : list (pystr * pystr)) : dict :=
  fold_left (fun d kv => dict_set d (fst kv) (snd kv)) ps [].

(** [JSONObject], from just after the opening brace *)
Definition JSONObject (s : pystr) : option (dict * pystr) :=
  match skip_ws s with
  | [] => None
  | x :: r =>
      if (x =? 125)%N then Some ([], r)
      else match object_pairs (List.length (x :: r)) (x :: r) with
           | Some (ps, rest) => Some (dict_of_pairs ps, rest)
           | None => None
           end
  end.

(** The elements of an array after the opening bracket, at an element. *)
Fixpoint array_values (fuel : nat) (s : pystr) : option (list dict * pystr) :=
  match fuel with
  | O => None
  | S fuel' =>
      match expect 123 s with
      | None => None
      | Some r =>
          match JSONObject r with
          | None => None
          | Some (d, r1) =>
              match skip_ws r1 with
              | x :: r2 =>
                  if (x =? 93)%N then Some ([d], r2)
                  else if (x =? 44)%N then
                    match array_values fuel' (skip_ws r2) with
                    | Some (ds, r3) => Some (d :: ds, r3)
                    | None => None
                    end
                  else None
              | [] => None
              end
          end
      end
  end.

(** [JSONArray], from just after the opening bracket *)
Definition JSONArray (s : pystr) : option (list dict * pystr) :=
  match skip_ws s with
  | [] => None
  | x :: r =>
      if (x =? 93)%N then Some ([], r)
      else array_values (List.length (x :: r)) (x :: r)
  end.

(** A whole document: one value, then only whitespace. *)
Definition whole {A} (r : option (A * pystr)) : option A :=
  match r with
  | Some (v, rest) => match skip_ws rest with [] => Some v | _ => None end
  | None => None
  end.

(** [json.loads(s)] where an object is read *)
Definition loads_dict (s : pystr) : option dict :=
  match expect 123 (skip_ws s) with
  | Some r => whole (JSONObject r)
  | None => None
  end.

(** [json.loads(s)] where an array is read *)
Definition loads_list (s : pystr) : option (list dict) :=
  match expect 91 (skip_ws s) with
  | Some r => whole (JSONArray r)
  | None => None
  end.

(** [a == b] on dicts: as many items, and every item of [a] is in [b]. *)
Definition dict_eqb (a b : dict) : bool :=
  Nat.eqb (List.length a) (List.length b)
  && forallb (fun kv => match dict_get b (fst kv) with
                        | Some v => str_eqb (snd kv) v
                        | None => false
                        end) a.

(** ** Text as decoded from UTF-8 *)

(** A code point that UTF-8 can carry: a Unicode scalar value. *)
Definition scalar (c : N) : bool :=
  ((c <? 55296) || (57344 <=? c) && (c <=? 1114111))%N.

Definition wf_str (s : pystr) : Prop := Forall (fun c => scalar c = true) s.

(** Every cell of every record of a decoded file. *)
Definition wf_file (file : list (list pystr)) : Prop := Forall (Forall wf_str) file.

(** Every key and value of a dict is decoded text. *)
Definition dict_wf (d : dict) : Prop :=
  Forall (fun kv => wf_str (fst kv) /\ wf_str (snd kv)) d.

(** Every cell of a row is decoded text. *)
Definition row_wf (r : row) : Prop :=
  forall name v, item r name = Some v -> wf_str v.

(** [str.lower] on ASCII text, for running the loaders on examples. *)
Definition ascii_lower (s : pystr) : pystr :=
  map (fun c => if ((65 <=? c) && (c <=? 90))%N then (c + 32)%N else c) s.

(** A completed formatter run that echoes its input. *)
Definition echo (args : list pystr) (input : pystr) : result CompletedProcess :=
  Ok {| returncode := 0; stdout := input |}.


Definition all_digits (s : pystr) : bool := forallb digit09 s.

(** ** Records of the target-sector file, by position

    The cells of an eight-column record that the loader reads, for
    stating what it keeps. *)

(** The include flag of a record is one of the accepted spellings. *)
Definition flagged (lower : pystr -> pystr) (rec : list pystr) : bool :=
  in_yes (lower (strip (nth 6 rec []))).

(** The entry a record stands for: trimmed code and trimmed display name. *)
Definition sector_entry (rec : list pystr) : pystr * pystr :=
  (strip (nth 0 rec []), strip (nth 7 rec [])).

(** Keys of a loaded sector mapping are digit strings, display names are
    not, and no key occurs twice. *)
Definition sectors_ok (d : dict) : Prop :=
  NoDup (keys d)
  /\ forall k v, In (k, v) d ->
                 rx_match RX_DIGITS k = true /\ rx_match RX_DIGITS v = false.

(** [x["nace"]] of a sector entry *)
Definition entry_nace (x : dict) : pystr :=
  match dict_get x (lit "nace") with Some v => v | None => [] end.

(** The JSON text of an entry with a name and a code: an object of the
    two members name and nace, in this order, each value a JSON string. *)
Definition entry_text (x : dict) : pystr :=
  lit "{" ++ encode_basestring_ascii (lit "name") ++ lit ": "
  ++ encode_basestring_ascii (entry_name x) ++ lit ", "
  ++ encode_basestring_ascii (lit "nace") ++ lit ": "
  ++ encode_basestring_ascii (entry_nace x) ++ lit "}".

(** The JSON text of a list of entries: an array of their texts. *)
Definition array_text (l : list dict) : pystr :=
  lit "[" ++ join (lit ", ") (map entry_text l) ++ lit "]".

(** Ascending by name: the order of [sorted(..., key=lambda x: x["name"])]. *)
Definition name_le (a b : dict) : Prop :=
  str_leb (entry_name a) (entry_name b) = true.

(** ** Vocabulary for the runs of [main] *)

(** Everything a run did besides printing. *)
Definition effects (t : list event) : list event :=
  filter (fun e => match e with Print _ => false | _ => true end) t.

(** An exception names a value when its message formats it. *)
Definition names (e : exn) (v : pystr) : bool :=
  match e with
  | ValueError m =>
      existsb (fun p => match p with
                        | FStr x | FRepr x => str_eqb x v
                        | _ => false
                        end) m
  | _ => false
  end.

(** The command line without any option given. *)
Definition no_options : Namespace :=
  {| prettier := None; prettier_cmd := lit "npx prettier";
     prettier_config := None; prettier_config_bcc := None;
     prettier_config_benchmark := None;
     output_bcc := None; output_benchmark := None |}.

(** The directory creation of [main], when a default path is in use. *)
Definition makedirs_events (args : Namespace) : list event :=
  if negb (truthy (output_bcc args)) || negb (truthy (output_benchmark args))
  then [Makedirs (lit "dist")]
  else [].

(** The target code of a pair is a key of the sector mapping. *)
Definition present (bcc_sectors : dict) (kv : pystr * pystr) : Prop :=
  dict_in (snd kv) bcc_sectors = true.

(** A filesystem that grants every call. *)
Definition disk_ok : Filesystem :=
  {| os_makedirs := fun _ => Ok tt;
     open_for_writing := fun _ _ => Ok tt;
     write_and_close := fun _ _ _ => Ok tt |}.


(** The command line [--prettier]. *)
Definition with_prettier : Namespace :=
  {| prettier := Some true; prettier_cmd := lit "npx prettier";
     prettier_config := None; prettier_config_bcc := None;
     prettier_config_benchmark := None;
     output_bcc := None; output_benchmark := None |}.




(** ** The messages of the program, by name *)

Definition smech_warning (s : pystr) (name : option pystr) : message :=
  [Lit "WARNING: Skipping mapping for SMECH code "; FStr s;
   Lit " ("; fcell name; Lit ") - no BCC code"].

Definition smech_note (s : pystr) (name : option pystr) (t : pystr) : message :=
  [Lit "mapping code "; FStr s; Lit " ("; fcell name; Lit ") to "; FStr t].

Definition digits_error (f : string) (v : pystr) (n : nat) : exn :=
  ValueError [Lit f; Lit " is expected to be just digits, but got ";
              FRepr v; Lit " on row "; FInt n].

Definition non_digits_error (f : string) (v : pystr) (n : nat) : exn :=
  ValueError [Lit f; Lit " is expected to have text not just digits, but got ";
              FRepr v; Lit " on row "; FInt n].

Definition multiple_mappings (s : pystr) (n : nat) : exn :=
  ValueError [Lit "smech_code "; FStr s;
              Lit " has multiple mappings (duplicate on row "; FInt n; Lit ")"].

Definition duplicate_code (c : pystr) (n : nat) : exn :=
  ValueError [Lit "nace_code is expected to be unique but got a duplicate of ";
              FRepr c; Lit " on row "; FInt n; Lit ". Mistake?"].

Definition not_in_sector_list (k v : pystr) : exn :=
  ValueError [Lit "SMECH code "; FStr k; Lit " maps to NACE "; FStr v;
              Lit " which is not in the BCC sector list"].

(** ** Vocabulary for the loaders *)

(** A non-empty string of ASCII digits. *)
Definition digit_string (s : pystr) : Prop := s <> [] /\ all_digits s = true.

(** The rows after the header row. *)
Definition data_rows (fieldnames : list string) (file : list (list pystr)) : list row :=
  tl (DictReader fieldnames file).

(** The trimmed cell of a row under a field name ([None] read as empty). *)
Definition cell (r : row) (name : string) : pystr :=
  match item r name with
  | Some s => strip s
  | None => []
  end.

(** The line the SMECH loader prints for a row it passes. *)
Definition row_line (r : row) : event :=
  if str_eqb (cell r "bcc_code") []
  then Print (smech_warning (cell r "smech_code") (item r "smech_name"))
  else Print (smech_note (cell r "smech_code") (item r "smech_name") (cell r "bcc_code")).

(** ** Vocabulary for command texts *)




(** A printable ASCII code point. *)
Definition printable_ascii (c : N) : bool := ((32 <=? c) && (c <=? 126))%N.

(** * Properties *)

Unset Implicit Arguments.

(** ** Strings and the monad *)

Lemma str_eqb_eq (a b : pystr) : str_eqb a b = true <-> a = b.
Proof.
  revert b; induction a as [|x a IH]; intros [|y b]; simpl; split;
    try congruence; try reflexivity.
  - intros H. apply andb_true_iff in H as [Hx Hs].
    apply N.eqb_eq in Hx. apply IH in Hs. congruence.
  - intros H. injection H as -> ->. rewrite N.eqb_refl. simpl. now apply IH.
Qed.

Lemma str_eqb_refl (a : pystr) : str_eqb a a = true.
Proof. now apply str_eqb_eq. Qed.

Lemma str_eqb_neq (a b : pystr) : str_eqb a b = false <-> a <> b.
Proof.
  split.
  - intros H E. apply str_eqb_eq in E. congruence.
  - intros H. destruct (str_eqb a b) eqn:E; [|reflexivity].
    apply str_eqb_eq in E. contradiction.
Qed.

Lemma bind_ret {A B} (a : A) (f : A -> M B) : bind (ret a) f = f a.
Proof. unfold bind, ret. now destruct (f a). Qed.

Lemma bind_raise {A B} (e : exn) (f : A -> M B) : bind (raise e) f = raise e.
Proof. reflexivity. Qed.

Lemma outcome_bind {A B} (m : M A) (f : A -> M B) :
  outcome (bind m f) =
  match outcome m with Ok a => outcome (f a) | Raise e => Raise e end.
Proof.
  unfold bind. destruct m as [t [a|e]]; simpl; [|reflexivity]. now destruct (f a).
Qed.

Lemma trace_bind {A B} (m : M A) (f : A -> M B) :
  trace (bind m f) =
  trace m ++ match outcome m with Ok a => trace (f a) | Raise _ => [] end.
Proof.
  unfold bind. destruct m as [t [a|e]]; simpl; [|now rewrite app_nil_r].
  now destruct (f a).
Qed.

Lemma bind_pair_ok {A B} (t : list event) (a : A) (f : A -> M B) :
  bind (t, Ok a) f = (t ++ trace (f a), outcome (f a)).
Proof. unfold bind. now destruct (f a). Qed.

Lemma bind_pair_raise {A B} (t : list event) (e : exn) (f : A -> M B) :
  bind (t, Raise e) f = (t, Raise e).
Proof. reflexivity. Qed.

(** Running a computation whose first step is known. *)
Ltac run_m :=
  repeat first
    [ rewrite bind_pair_ok
    | rewrite bind_pair_raise
    | progress cbn [trace outcome fst snd ret raise emit print app] ].

Lemma M_eq {A} (m : M A) : m = (trace m, outcome m).
Proof. now destruct m. Qed.

(** ** What [RX_DIGITS] accepts *)

Lemma plus_digits_eol (s : pystr) :
  plus_match digit09 (re_match [Eol] false) s = true <->
  exists d, d <> [] /\ all_digits d = true /\ (s = d \/ s = d ++ [10%N]).
Proof.
  induction s as [|c s IH]; simpl.
  - split; [discriminate|].
    intros (d & Hd & _ & [E|E]); destruct d; try congruence; discriminate.
  - rewrite andb_true_iff, orb_true_iff, IH. split.
    + intros [Hc [(d & Hd & Ha & E)|He]].
      * exists (c :: d). split; [discriminate|]. split; [simpl; now rewrite Hc|].
        destruct E as [->| ->]; auto.
      * exists [c]. split; [discriminate|]. split; [simpl; now rewrite Hc|].
        rewrite andb_true_r in He. destruct s as [|x [|y s]]; simpl in He;
          try discriminate; auto.
        apply N.eqb_eq in He. subst. auto.
    + intros (d & Hd & Ha & E). destruct d as [|c' d]; [congruence|].
      simpl in Ha. apply andb_true_iff in Ha as [Hc Ha].
      assert (c' = c /\ (s = d \/ s = d ++ [10%N])) as [-> Hs].
      { destruct E as [E|E]; injection E as -> ->; auto. }
      split; [assumption|]. destruct d as [|x d].
      * right. destruct Hs as [->| ->]; simpl; auto.
      * left. exists (x :: d). split; [discriminate|]. auto.
Qed.

(** [RX_DIGITS.match(s)]: one or more ASCII digits, then the end of the
    string or one newline that ends it. *)
Lemma rx_digits_spec (s : pystr) :
  rx_match RX_DIGITS s = true <->
  exists d, d <> [] /\ all_digits d = true /\ (s = d \/ s = d ++ [10%N]).
Proof. unfold rx_match, RX_DIGITS. simpl. apply plus_digits_eol. Qed.

Lemma expect_just_digits_ok (v : pystr) (f : string) (n : nat) :
  rx_match RX_DIGITS v = true -> expect_just_digits v f n = ret tt.
Proof. unfold expect_just_digits. now intros ->. Qed.

Lemma expect_just_digits_raises (v : pystr) (f : string) (n : nat) :
  rx_match RX_DIGITS v = false ->
  expect_just_digits v f n =
  raise (ValueError [Lit f; Lit " is expected to be just digits, but got ";
                     FRepr v; Lit " on row "; FInt n]).
Proof. unfold expect_just_digits. now intros ->. Qed.

(** ** Rows of the two readers *)

Lemma item_smech (rec : list pystr) :
  item (zip_row SMECH_SECTORS_COLUMNS rec) "smech_name" = nth_error rec 0
  /\ item (zip_row SMECH_SECTORS_COLUMNS rec) "smech_code" = nth_error rec 1
  /\ item (zip_row SMECH_SECTORS_COLUMNS rec) "bcc_code" = nth_error rec 5.
Proof.
  destruct rec as [|c0 [|c1 [|c2 [|c3 [|c4 [|c5 rec]]]]]]; repeat split; reflexivity.
Qed.

Lemma item_bcc (rec : list pystr) :
  item (zip_row BCC_SECTORS_COLUMNS rec) "nace_code" = nth_error rec 0
  /\ item (zip_row BCC_SECTORS_COLUMNS rec) "use_for_bcc" = nth_error rec 6
  /\ item (zip_row BCC_SECTORS_COLUMNS rec) "bcc_name" = nth_error rec 7.
Proof.
  destruct rec as [|c0 [|c1 [|c2 [|c3 [|c4 [|c5 [|c6 [|c7 rec]]]]]]]];
    repeat split; reflexivity.
Qed.

Lemma DictReader_app (cols : list string) (a b : list (list pystr)) :
  DictReader cols (a ++ b) = DictReader cols a ++ DictReader cols b.
Proof. unfold DictReader. now rewrite filter_app, map_app. Qed.

Lemma DictReader_cons (cols : list string) (rec : list pystr) (f : list (list pystr)) :
  rec <> [] -> DictReader cols (rec :: f) = zip_row cols rec :: DictReader cols f.
Proof. unfold DictReader. destruct rec; [congruence|reflexivity]. Qed.

(** ** The SMECH-to-target loader, row by row *)

(** Every way through the loop body, by the cells of the row. *)
Lemma smech_row_cases (idx : nat) (out : dict) (r : row) :
  smech_row idx out r =
  match item r "smech_code", item r "bcc_code" with
  | Some s, Some t =>
      if str_eqb (strip t) []
      then ([Print (smech_warning (strip s) (item r "smech_name"))], Ok out)
      else if negb (rx_match RX_DIGITS (strip s))
      then ([], Raise (digits_error "smech_code" (strip s) idx))
      else if negb (rx_match RX_DIGITS (strip t))
      then ([], Raise (digits_error "bcc_code" (strip t) idx))
      else
        match dict_get out (strip s) with
        | Some v =>
            if str_eqb v (strip t)
            then ([Print (smech_note (strip s) (item r "smech_name") (strip t))],
                  Ok (dict_set out (strip s) (strip t)))
            else ([Print (smech_note (strip s) (item r "smech_name") (strip t))],
                  Raise (multiple_mappings (strip s) idx))
        | None => ([Print (smech_note (strip s) (item r "smech_name") (strip t))],
                   Ok (dict_set out (strip s) (strip t)))
        end
  | _, _ => ([], Raise AttributeError)
  end.
Proof.
  unfold smech_row, strip_cell, expect_just_digits, dict_in.
  destruct (item r "smech_code") as [s|]; [|reflexivity].
  destruct (item r "bcc_code") as [t|]; [|reflexivity].
  rewrite !bind_ret.
  destruct (str_eqb (strip t) []); [reflexivity|].
  destruct (rx_match RX_DIGITS (strip s)); [|reflexivity].
  destruct (rx_match RX_DIGITS (strip t)); [|reflexivity].
  simpl negb. cbv iota. rewrite !bind_ret.
  destruct (dict_get out (strip s)) as [v|]; [|reflexivity].
  destruct (str_eqb v (strip t)); reflexivity.
Qed.

Lemma smech_row_idx (i j : nat) (out o : dict) (r : row) :
  outcome (smech_row i out r) = Ok o -> smech_row j out r = smech_row i out r.
Proof.
  rewrite !smech_row_cases.
  destruct (item r "smech_code") as [s|]; [|discriminate].
  destruct (item r "bcc_code") as [t|]; [|discriminate].
  destruct (str_eqb (strip t) []); [reflexivity|].
  destruct (negb (rx_match RX_DIGITS (strip s))); [discriminate|].
  destruct (negb (rx_match RX_DIGITS (strip t))); [discriminate|].
  destruct (dict_get out (strip s)) as [v|]; [|reflexivity].
  destruct (str_eqb v (strip t)); [reflexivity|discriminate].
Qed.

Lemma smech_rows_idx (rows : list row) :
  forall i j out m,
    outcome (smech_rows i out rows) = Ok m ->
    smech_rows j out rows = smech_rows i out rows.
Proof.
  induction rows as [|r rows IH]; intros i j out m H; [reflexivity|].
  simpl in *. rewrite outcome_bind in H.
  destruct (outcome (smech_row i out r)) as [o|e] eqn:E; [|discriminate].
  rewrite (smech_row_idx i j out o r E).
  rewrite (M_eq (smech_row i out r)), E, !bind_pair_ok.
  now rewrite (IH (S i) (S j) o m H).
Qed.

Lemma smech_rows_app (a b : list row) :
  forall i out,
    smech_rows i out (a ++ b) =
    (out' <- smech_rows i out a ;; smech_rows (i + List.length a) out' b).
Proof.
  induction a as [|r a IH]; intros i out; simpl.
  - now rewrite bind_ret, Nat.add_0_r.
  - rewrite (M_eq (smech_row i out r)).
    destruct (outcome (smech_row i out r)) as [o|e]; [|reflexivity].
    rewrite !bind_pair_ok, IH, Nat.add_succ_r.
    rewrite (M_eq (smech_rows (S i) o a)).
    destruct (outcome (smech_rows (S i) o a)) as [o1|e1].
    + rewrite !bind_pair_ok. simpl. rewrite bind_pair_ok. simpl.
      now rewrite app_assoc.
    + rewrite !bind_pair_raise. reflexivity.
Qed.

(** ** The digits-only validator *)

(** [expect_just_digits] raises exactly when [RX_DIGITS] does not match:
    when the value is not a non-empty run of ASCII digits, possibly
    followed by one final newline. *)
Lemma expect_just_digits_raises_iff (v : pystr) (f : string) (n : nat) :
  outcome (expect_just_digits v f n) = Raise (digits_error f v n) <->
  ~ exists d, d <> [] /\ all_digits d = true /\ (v = d \/ v = d ++ [10%N]).
Proof.
  rewrite <- rx_digits_spec. unfold expect_just_digits, digits_error.
  destruct (rx_match RX_DIGITS v); simpl; split; intros H.
  - discriminate.
  - now elim H.
  - discriminate.
  - reflexivity.
Qed.

(** C6: [expect_just_digits] is meant to raise whenever the value holds a
    code point that is not a decimal digit.  On the value made of the
    digit 1 and a line feed, which holds a non-digit, it returns without
    raising: the [$] of [RX_DIGITS] also matches before a final newline. *)
Theorem expect_just_digits_trailing_newline :
  existsb (fun c => negb (digit09 c)) (lit "1" ++ [10%N]) = true
  /\ expect_just_digits (lit "1" ++ [10%N]) "smech_code" 2 = ret tt.
Proof. split; reflexivity. Qed.

(** ** Rows without a target code *)

Lemma smech_row_skip (idx : nat) (out : dict) (rec : list pystr) (s t : pystr) :
  nth_error rec 1 = Some s -> nth_error rec 5 = Some t -> strip t = [] ->
  smech_row idx out (zip_row SMECH_SECTORS_COLUMNS rec) =
  ([Print (smech_warning (strip s) (nth_error rec 0))], Ok out).
Proof.
  intros Hs Ht E. rewrite smech_row_cases.
  destruct (item_smech rec) as (-> & -> & ->). now rewrite Hs, Ht, E.
Qed.

(** C7: a row of the SMECH file whose target code is empty after trimming
    prints one warning and leaves the mapping as it was, whatever the row
    number and the mapping so far; and when the file without that row
    loads, the file with it loads too, to the same mapping. *)
Theorem smech_empty_target_is_skipped :
  forall (hdr : list pystr) (pre post : list (list pystr)) (rec : list pystr)
         (s t : pystr) (m : dict),
    hdr <> [] ->
    nth_error rec 1 = Some s -> nth_error rec 5 = Some t -> strip t = [] ->
    outcome (load_smech_to_bcc (hdr :: pre ++ post)) = Ok m ->
    (forall idx out,
        smech_row idx out (zip_row SMECH_SECTORS_COLUMNS rec) =
        ([Print (smech_warning (strip s) (nth_error rec 0))], Ok out))
    /\ outcome (load_smech_to_bcc (hdr :: pre ++ rec :: post)) = Ok m.
Proof.
  intros hdr pre post rec s t m Hh Hs Ht E H. split.
  - intros idx out. now apply smech_row_skip with (t := t).
  - assert (Hrec : rec <> []) by (intros ->; discriminate).
    unfold load_smech_to_bcc in *.
    rewrite DictReader_cons in * by assumption.
    rewrite DictReader_app in *.
    rewrite DictReader_cons by assumption.
    rewrite smech_rows_app, outcome_bind in *.
    destruct (outcome (smech_rows 2 [] (DictReader SMECH_SECTORS_COLUMNS pre)))
      as [o|e]; [|discriminate].
    cbn [smech_rows].
    rewrite (smech_row_skip _ o rec s t Hs Ht E), bind_pair_ok.
    cbn [outcome snd].
    fold (outcome (smech_rows
                     (S (2 + List.length (DictReader SMECH_SECTORS_COLUMNS pre))) o
                     (DictReader SMECH_SECTORS_COLUMNS post))).
    now rewrite (smech_rows_idx _ _ (S _) _ _ H).
Qed.

Lemma smech_empty_target_is_skipped_witness :
  outcome (load_smech_to_bcc
             [map lit ["smech_name"; "smech_code"; "nace_name"; "exio2"; "exio3"; "bcc"];
              map lit ["Widgets"; "5"; "Widget Mfg"; "E1"; "E2"; "12"];
              map lit ["Gadgets"; "6"; "Gadget Mfg"; "E1"; "E2"; "  "];
              map lit ["Gizmos"; "7"; "Gizmo Mfg"; "E1"; "E2"; "13"]]%string)
  = Ok [(lit "5", lit "12"); (lit "7", lit "13")].
Proof.
  refine (proj2 (smech_empty_target_is_skipped
                   (map lit ["smech_name"; "smech_code"; "nace_name";
                             "exio2"; "exio3"; "bcc"]%string)
                   [map lit ["Widgets"; "5"; "Widget Mfg"; "E1"; "E2"; "12"]%string]
                   [map lit ["Gizmos"; "7"; "Gizmo Mfg"; "E1"; "E2"; "13"]%string]
                   (map lit ["Gadgets"; "6"; "Gadget Mfg"; "E1"; "E2"; "  "]%string)
                   (lit "6") (lit "  ") [(lit "5", lit "12"); (lit "7", lit "13")]
                   _ _ _ _ _)).
  - discriminate.
  - reflexivity.
  - reflexivity.
  - reflexivity.
  - reflexivity.
Defined.

(** C10: the empty-target check comes before field validation.  A row
    whose target code trims to empty and whose source code would fail
    [expect_just_digits] (it is empty, or holds a non-digit) raises
    nothing: it prints the warning, keeps the mapping, and the load goes
    on with the next row. *)
Theorem smech_empty_target_not_validated :
  forall (rec : list pystr) (s t : pystr) (idx : nat) (out : dict) (rest : list row),
    nth_error rec 1 = Some s -> nth_error rec 5 = Some t -> strip t = [] ->
    rx_match RX_DIGITS (strip s) = false ->
    outcome (expect_just_digits (strip s) "smech_code" idx)
    = Raise (digits_error "smech_code" (strip s) idx)
    /\ smech_row idx out (zip_row SMECH_SECTORS_COLUMNS rec)
       = ([Print (smech_warning (strip s) (nth_error rec 0))], Ok out)
    /\ outcome (smech_rows idx out (zip_row SMECH_SECTORS_COLUMNS rec :: rest))
       = outcome (smech_rows (S idx) out rest).
Proof.
  intros rec s t idx out rest Hs Ht E Hd. split; [|split].
  - now rewrite expect_just_digits_raises.
  - now apply smech_row_skip with (t := t).
  - cbn [smech_rows]. rewrite (smech_row_skip idx out rec s t Hs Ht E), bind_pair_ok.
    reflexivity.
Qed.

Lemma smech_empty_target_not_validated_witness :
  outcome (smech_rows 2 []
             [zip_row SMECH_SECTORS_COLUMNS
                (map lit ["Gadgets"; "six"; "Gadget Mfg"; "E1"; "E2"; " "]%string);
              zip_row SMECH_SECTORS_COLUMNS
                (map lit ["Odds"; ""; "Odd Mfg"; "E1"; "E2"; ""]%string)])
  = Ok [].
Proof.
  rewrite (proj2 (proj2 (smech_empty_target_not_validated
                           (map lit ["Gadgets"; "six"; "Gadget Mfg"; "E1"; "E2"; " "]%string)
                           (lit "six") (lit " ") 2 []
                           [zip_row SMECH_SECTORS_COLUMNS
                              (map lit ["Odds"; ""; "Odd Mfg"; "E1"; "E2"; ""]%string)]
                           eq_refl eq_refl eq_refl eq_refl))).
  rewrite (proj2 (proj2 (smech_empty_target_not_validated
                           (map lit ["Odds"; ""; "Odd Mfg"; "E1"; "E2"; ""]%string)
                           (lit "") (lit "") 3 [] []
                           eq_refl eq_refl eq_refl eq_refl))).
  reflexivity.
Defined.

(** ** Dictionaries *)

Lemma dict_in_get (k : pystr) (d : dict) :
  dict_in k d = true <-> exists v, dict_get d k = Some v.
Proof.
  unfold dict_in. destruct (dict_get d k) as [v|]; split; try discriminate.
  - intros _. now exists v.
  - reflexivity.
  - intros [v H]. discriminate.
Qed.

Lemma dict_in_keys (k : pystr) (d : dict) : dict_in k d = true <-> In k (keys d).
Proof.
  unfold dict_in, keys. induction d as [|[k' v'] d IH]; simpl.
  - split; [discriminate|tauto].
  - destruct (str_eqb k' k) eqn:E.
    + apply str_eqb_eq in E. tauto.
    + apply str_eqb_neq in E. rewrite IH. tauto.
Qed.

Lemma dict_set_new (d : dict) (k v : pystr) :
  dict_in k d = false -> dict_set d k v = d ++ [(k, v)].
Proof.
  unfold dict_in. induction d as [|[k' v'] d IH]; simpl; [reflexivity|].
  destruct (str_eqb k' k); [discriminate|]. intros H. now rewrite IH.
Qed.

Lemma dict_set_same (d : dict) (k v : pystr) :
  dict_get d k = Some v -> dict_set d k v = d.
Proof.
  induction d as [|[k' v'] d IH]; simpl; [discriminate|].
  destruct (str_eqb k' k).
  - intros H. now injection H as ->.
  - intros H. now rewrite IH.
Qed.

Lemma dict_get_set (d : dict) (k v k0 : pystr) :
  dict_get (dict_set d k v) k0 = if str_eqb k k0 then Some v else dict_get d k0.
Proof.
  induction d as [|[k' v'] d IH]; simpl.
  - reflexivity.
  - destruct (str_eqb k' k) eqn:E; simpl.
    + apply str_eqb_eq in E. subst k'. now destruct (str_eqb k k0).
    + rewrite IH. destruct (str_eqb k' k0) eqn:E0; [|reflexivity].
      apply str_eqb_eq in E0. subst k0. apply str_eqb_neq in E.
      now rewrite (proj2 (str_eqb_neq k k')) by congruence.
Qed.

Lemma keys_dict_set_in (d : dict) (k v : pystr) :
  dict_in k d = true -> keys (dict_set d k v) = keys d.
Proof.
  unfold dict_in, keys. induction d as [|[k' v'] d IH]; simpl; [discriminate|].
  destruct (str_eqb k' k); [reflexivity|]. intros H. simpl. now rewrite IH.
Qed.

Lemma NoDup_keys_set (d : dict) (k v : pystr) :
  NoDup (keys d) -> NoDup (keys (dict_set d k v)).
Proof.
  intros H. destruct (dict_in k d) eqn:E.
  - now rewrite keys_dict_set_in.
  - rewrite dict_set_new by assumption. unfold keys. rewrite map_app. simpl.
    apply NoDup_app; [assumption|repeat constructor; simpl; tauto|].
    intros x Hx [<-|[]]. apply dict_in_keys in Hx. congruence.
Qed.

Lemma dict_get_In (d : dict) (k v : pystr) :
  NoDup (keys d) -> In (k, v) d -> dict_get d k = Some v.
Proof.
  unfold keys. induction d as [|[k' v'] d IH]; simpl; [tauto|].
  intros Hn [H|H].
  - injection H as -> ->. now rewrite str_eqb_refl.
  - inversion Hn as [|? ? Hk Hd]; subst.
    destruct (str_eqb k' k) eqn:E; [|now apply IH].
    apply str_eqb_eq in E. subst k'. elim Hk.
    change k with (fst (k, v)). now apply in_map.
Qed.

Lemma dict_get_Some_In (d : dict) (k v : pystr) :
  dict_get d k = Some v -> In (k, v) d.
Proof.
  induction d as [|[k' v'] d IH]; simpl; [discriminate|].
  destruct (str_eqb k' k) eqn:E.
  - apply str_eqb_eq in E. intros H. injection H as ->. subst. now left.
  - intros H. right. now apply IH.
Qed.

(** ** The target-sector loader, row by row *)

Lemma DictReader_nonblank (cols : list string) (recs : list (list pystr)) :
  Forall (fun rec => rec <> []) recs ->
  DictReader cols recs = map (zip_row cols) recs.
Proof.
  induction 1 as [|rec recs Hr _ IH]; [reflexivity|].
  now rewrite DictReader_cons, IH.
Qed.

Section TargetSectorFacts.
Variable lower : pystr -> pystr.

(** Every way through the loop body, by the cells of the row. *)
Lemma bcc_row_cases (idx : nat) (out : dict) (r : row) :
  bcc_row lower idx out r =
  match item r "nace_code", item r "bcc_name", item r "use_for_bcc" with
  | Some c, Some n, Some f =>
      if negb (in_yes (lower (strip f))) then ([], Ok out)
      else if negb (rx_match RX_DIGITS (strip c))
      then ([], Raise (digits_error "nace_code" (strip c) idx))
      else if rx_match RX_DIGITS (strip n)
      then ([], Raise (non_digits_error "bcc_name" (strip n) idx))
      else if dict_in (strip c) out
      then ([], Raise (duplicate_code (strip c) idx))
      else ([], Ok (dict_set out (strip c) (strip n)))
  | _, _, _ => ([], Raise AttributeError)
  end.
Proof.
  unfold bcc_row, strip_cell, expect_just_digits, expect_non_digits.
  destruct (item r "nace_code") as [c|]; [|reflexivity].
  destruct (item r "bcc_name") as [n|]; [|reflexivity].
  destruct (item r "use_for_bcc") as [f|]; [|reflexivity].
  rewrite !bind_ret.
  destruct (in_yes (lower (strip f))); [|reflexivity].
  destruct (rx_match RX_DIGITS (strip c)); [|reflexivity].
  destruct (rx_match RX_DIGITS (strip n)); [reflexivity|].
  simpl negb. cbv iota. rewrite !bind_ret.
  destruct (dict_in (strip c) out); reflexivity.
Qed.

(** The same, for a record with its eight columns. *)
Lemma bcc_row_record (idx : nat) (out : dict) (rec : list pystr) :
  8 <= List.length rec ->
  bcc_row lower idx out (zip_row BCC_SECTORS_COLUMNS rec) =
  if negb (flagged lower rec) then ([], Ok out)
  else if negb (rx_match RX_DIGITS (fst (sector_entry rec)))
  then ([], Raise (digits_error "nace_code" (fst (sector_entry rec)) idx))
  else if rx_match RX_DIGITS (snd (sector_entry rec))
  then ([], Raise (non_digits_error "bcc_name" (snd (sector_entry rec)) idx))
  else if dict_in (fst (sector_entry rec)) out
  then ([], Raise (duplicate_code (fst (sector_entry rec)) idx))
  else ([], Ok (dict_set out (fst (sector_entry rec)) (snd (sector_entry rec)))).
Proof.
  intros H. rewrite bcc_row_cases.
  destruct (item_bcc rec) as (-> & -> & ->).
  rewrite (nth_error_nth' rec [] (n := 0)) by lia.
  rewrite (nth_error_nth' rec [] (n := 6)) by lia.
  rewrite (nth_error_nth' rec [] (n := 7)) by lia.
  reflexivity.
Qed.

Lemma bcc_rows_app (a b : list row) :
  forall i out,
    bcc_rows lower i out (a ++ b) =
    (out' <- bcc_rows lower i out a ;; bcc_rows lower (i + List.length a) out' b).
Proof.
  induction a as [|r a IH]; intros i out; simpl.
  - now rewrite bind_ret, Nat.add_0_r.
  - rewrite (M_eq (bcc_row lower i out r)).
    destruct (outcome (bcc_row lower i out r)) as [o|e]; [|reflexivity].
    rewrite !bind_pair_ok, IH, Nat.add_succ_r.
    rewrite (M_eq (bcc_rows lower (S i) o a)).
    destruct (outcome (bcc_rows lower (S i) o a)) as [o1|e1].
    + rewrite !bind_pair_ok. simpl. rewrite bind_pair_ok. simpl.
      now rewrite app_assoc.
    + rewrite !bind_pair_raise. reflexivity.
Qed.

(** A load that succeeds appended the entries of the flagged records, in
    the order of the file. *)
Lemma bcc_rows_entries (recs : list (list pystr)) :
  Forall (fun rec => 8 <= List.length rec) recs ->
  forall i out m,
    outcome (bcc_rows lower i out (map (zip_row BCC_SECTORS_COLUMNS) recs)) = Ok m ->
    m = out ++ map sector_entry (filter (flagged lower) recs).
Proof.
  induction 1 as [|rec recs Hr _ IH]; intros i out m H; simpl in *.
  - injection H as <-. now rewrite app_nil_r.
  - rewrite outcome_bind, (bcc_row_record _ _ _ Hr) in H.
    unfold sector_entry in *. cbn [fst snd] in *.
    destruct (flagged lower rec); cbn [negb] in H; cbv iota in H.
    + destruct (rx_match RX_DIGITS (strip (nth 0 rec []))); cbn [negb] in H;
        cbv iota in H; [|discriminate].
      destruct (rx_match RX_DIGITS (strip (nth 7 rec []))); [discriminate|].
      destruct (dict_in (strip (nth 0 rec [])) out) eqn:E; [discriminate|].
      cbn [outcome snd] in H.
      apply IH in H. rewrite H, dict_set_new by assumption.
      now rewrite <- app_assoc.
    + cbn [outcome snd] in H. now apply IH in H.
Qed.

Lemma sectors_ok_set (d : dict) (k v : pystr) :
  sectors_ok d -> rx_match RX_DIGITS k = true -> rx_match RX_DIGITS v = false ->
  dict_in k d = false -> sectors_ok (dict_set d k v).
Proof.
  intros [Hn Hd] Hk Hv Hin. split; [now apply NoDup_keys_set|].
  rewrite dict_set_new by assumption. intros k0 v0 H.
  apply in_app_or in H as [H|[H|[]]]; [now apply Hd|].
  injection H as <- <-. tauto.
Qed.

Lemma bcc_rows_ok (rows : list row) :
  forall i out m,
    sectors_ok out -> outcome (bcc_rows lower i out rows) = Ok m -> sectors_ok m.
Proof.
  induction rows as [|r rows IH]; intros i out m Hok H; simpl in H.
  - now injection H as <-.
  - rewrite outcome_bind, bcc_row_cases in H.
    destruct (item r "nace_code") as [c|]; [|discriminate].
    destruct (item r "bcc_name") as [n|]; [|discriminate].
    destruct (item r "use_for_bcc") as [f|]; [|discriminate].
    destruct (in_yes (lower (strip f))); simpl in H; [|now apply IH in H].
    destruct (rx_match RX_DIGITS (strip c)) eqn:Ec; simpl in H; [|discriminate].
    destruct (rx_match RX_DIGITS (strip n)) eqn:En; simpl in H; [discriminate|].
    destruct (dict_in (strip c) out) eqn:Ei; simpl in H; [discriminate|].
    apply IH in H; [assumption|]. now apply sectors_ok_set.
Qed.

Lemma load_bcc_sectors_ok (file : list (list pystr)) (m : dict) :
  outcome (load_bcc_sectors lower file) = Ok m -> sectors_ok m.
Proof.
  unfold load_bcc_sectors.
  destruct (DictReader BCC_SECTORS_COLUMNS file) as [|h rows]; [discriminate|].
  apply bcc_rows_ok. split; [constructor|]. intros k v [].
Qed.

(** C4: of a target-sector file with a header and eight-column records, a
    load that succeeds returns exactly the entries (trimmed code, trimmed
    display name) of the records whose flag column, trimmed and
    lower-cased, is x, y or yes, in file order; and any other record
    leaves the mapping as it was without raising or printing, whatever
    its code and name cells hold. *)
Theorem target_sectors_are_the_flagged_rows :
  forall (hdr : list pystr) (recs : list (list pystr)) (m : dict),
    hdr <> [] ->
    Forall (fun rec => 8 <= List.length rec) recs ->
    outcome (load_bcc_sectors lower (hdr :: recs)) = Ok m ->
    m = map sector_entry (filter (flagged lower) recs)
    /\ forall rec idx out,
         In rec recs -> flagged lower rec = false ->
         bcc_row lower idx out (zip_row BCC_SECTORS_COLUMNS rec) = ([], Ok out).
Proof.
  intros hdr recs m Hh Hr H. split.
  - unfold load_bcc_sectors in H. rewrite DictReader_cons in H by assumption.
    rewrite DictReader_nonblank in H.
    + now apply bcc_rows_entries in H.
    + eapply Forall_impl; [|exact Hr]. intros [|c rec]; simpl; [lia|discriminate].
  - intros rec idx out Hin Hf. rewrite Forall_forall in Hr.
    rewrite bcc_row_record by now apply Hr. now rewrite Hf.
Qed.
(** C5 (amended): when the load has reached an included record whose
    trimmed code is already in the mapping, it always fails there.  The
    error is the duplicate-code error naming the code and the row number,
    unless the trimmed display name is digits-only, in which case the
    display-name validation fails first.  A display name equal to the
    recorded one is never digits-only, so a plain repeat of an entry is a
    duplicate-code error too: there is no idempotent case. *)
Theorem repeated_sector_code_fails :
  forall (hdr : list pystr) (pre : list (list pystr)) (rec : list pystr)
         (post : list (list pystr)) (out : dict),
    hdr <> [] -> 8 <= List.length rec -> flagged lower rec = true ->
    outcome (load_bcc_sectors lower (hdr :: pre)) = Ok out ->
    dict_in (fst (sector_entry rec)) out = true ->
    let n := 2 + List.length (DictReader BCC_SECTORS_COLUMNS pre) in
    let code := fst (sector_entry rec) in
    let name := snd (sector_entry rec) in
    outcome (load_bcc_sectors lower (hdr :: pre ++ rec :: post))
    = Raise (if rx_match RX_DIGITS name
             then non_digits_error "bcc_name" name n
             else duplicate_code code n)
    /\ (dict_get out code = Some name ->
        outcome (load_bcc_sectors lower (hdr :: pre ++ rec :: post))
        = Raise (duplicate_code code n)).
Proof.
  intros hdr pre rec post out Hh Hr Hf Hpre Hin n code name.
  subst n code name.
  set (n := 2 + List.length (DictReader BCC_SECTORS_COLUMNS pre)).
  set (code := fst (sector_entry rec)) in *.
  set (name := snd (sector_entry rec)).
  assert (Hok : sectors_ok out) by now apply load_bcc_sectors_ok in Hpre.
  assert (Hrec : rec <> []) by (intros ->; simpl in Hr; lia).
  assert (Hcode : rx_match RX_DIGITS code = true).
  { apply dict_in_get in Hin as [v Hv]. apply dict_get_Some_In in Hv.
    now apply Hok in Hv. }
  assert (E : outcome (load_bcc_sectors lower (hdr :: pre ++ rec :: post))
              = Raise (if rx_match RX_DIGITS name
                       then non_digits_error "bcc_name" name n
                       else duplicate_code code n)).
  { unfold load_bcc_sectors in *.
    rewrite DictReader_cons in * by assumption.
    rewrite DictReader_app, DictReader_cons by assumption.
    rewrite bcc_rows_app, outcome_bind, Hpre.
    cbn [bcc_rows]. rewrite outcome_bind, bcc_row_record by assumption.
    fold code name n. rewrite Hf, Hcode, Hin. cbn [negb]. cbv iota.
    now destruct (rx_match RX_DIGITS name). }
  split; [exact E|].
  intros Hg. rewrite E. apply dict_get_Some_In in Hg. apply Hok in Hg as [_ ->].
  reflexivity.
Qed.
End TargetSectorFacts.

Lemma target_sectors_are_the_flagged_rows_witness :
  [(lit "12", lit "Widget Manufacture"); (lit "13", lit "Gadgets")]
  = map sector_entry
      (filter (flagged ascii_lower)
         [map lit ["12"; "_"; "_"; "Widget Mfg"; "Widget Manufacture"; ""; " X";
                   " Widget Manufacture "];
          map lit ["zz"; "_"; "_"; "Other"; "Other"; ""; "no"; "77"];
          map lit ["13"; "_"; "_"; "Gadget Mfg"; "Gadgets"; ""; "Yes"; "Gadgets"]]%string).
Proof.
  refine (proj1 (target_sectors_are_the_flagged_rows ascii_lower
                   (map lit ["nace"; "i1"; "i2"; "exio3"; "name"; "notes"; "use";
                             "bcc_name"]%string)
                   _ _ _ _ _)).
  - discriminate.
  - repeat constructor.
  - reflexivity.
Defined.

(** C5, as stated, fails: the second record is included and repeats the
    recorded code 12, but its display name is digits-only, and the load
    ends with the display-name validation error, not the duplicate-code
    error. *)
Lemma repeated_sector_code_with_digit_name :
  outcome (load_bcc_sectors ascii_lower
             [map lit ["nace"; "i1"; "i2"; "exio3"; "name"; "notes"; "use"; "bcc_name"];
              map lit ["12"; "_"; "_"; "Widget Mfg"; "Widgets"; ""; "x"; "Widgets"]]%string)
  = Ok [(lit "12", lit "Widgets")]
  /\ flagged ascii_lower
       (map lit ["12"; "_"; "_"; "Widget Mfg"; "34"; ""; "x"; "34"]%string) = true
  /\ fst (sector_entry (map lit ["12"; "_"; "_"; "Widget Mfg"; "34"; ""; "x"; "34"]%string))
     = lit "12"
  /\ outcome (load_bcc_sectors ascii_lower
                [map lit ["nace"; "i1"; "i2"; "exio3"; "name"; "notes"; "use"; "bcc_name"];
                 map lit ["12"; "_"; "_"; "Widget Mfg"; "Widgets"; ""; "x"; "Widgets"];
                 map lit ["12"; "_"; "_"; "Widget Mfg"; "34"; ""; "x"; "34"]]%string)
     = Raise (non_digits_error "bcc_name" (lit "34") 3)
  /\ outcome (load_bcc_sectors ascii_lower
                [map lit ["nace"; "i1"; "i2"; "exio3"; "name"; "notes"; "use"; "bcc_name"];
                 map lit ["12"; "_"; "_"; "Widget Mfg"; "Widgets"; ""; "x"; "Widgets"];
                 map lit ["12"; "_"; "_"; "Widget Mfg"; "34"; ""; "x"; "34"]]%string)
     <> Raise (duplicate_code (lit "12") 3).
Proof.
  repeat split; try reflexivity. vm_compute. discriminate.
Qed.

Lemma repeated_sector_code_fails_witness :
  outcome (load_bcc_sectors ascii_lower
             [map lit ["nace"; "i1"; "i2"; "exio3"; "name"; "notes"; "use";
                       "bcc_name"];
              map lit ["12"; "_"; "_"; "Widget Mfg"; "Widgets"; ""; "x"; "Widgets"];
              map lit ["12"; "_"; "_"; "Widget Mfg"; "Widgets"; ""; "y"; "Widgets"];
              map lit ["13"; "_"; "_"; "Gadget Mfg"; "Gadgets"; ""; "x"; "Gadgets"]]%string)
  = Raise (duplicate_code (lit "12") 3).
Proof.
  refine (proj2 (repeated_sector_code_fails ascii_lower
                   (map lit ["nace"; "i1"; "i2"; "exio3"; "name"; "notes"; "use";
                             "bcc_name"]%string)
                   [map lit ["12"; "_"; "_"; "Widget Mfg"; "Widgets"; ""; "x";
                             "Widgets"]%string]
                   (map lit ["12"; "_"; "_"; "Widget Mfg"; "Widgets"; ""; "y";
                             "Widgets"]%string)
                   [map lit ["13"; "_"; "_"; "Gadget Mfg"; "Gadgets"; ""; "x";
                             "Gadgets"]%string]
                   [(lit "12", lit "Widgets")]
                   _ _ _ _ _) _).
  - discriminate.
  - simpl. lia.
  - reflexivity.
  - reflexivity.
  - reflexivity.
  - reflexivity.
Defined.

(** ** Repeated source codes in the SMECH file *)

Lemma smech_row_keeps (i : nat) (out o : dict) (r : row) (k v : pystr) :
  outcome (smech_row i out r) = Ok o ->
  dict_get out k = Some v -> dict_get o k = Some v.
Proof.
  rewrite smech_row_cases.
  destruct (item r "smech_code") as [s|]; [|discriminate].
  destruct (item r "bcc_code") as [t|]; [|discriminate].
  destruct (str_eqb (strip t) []); [now intros [= <-]|].
  destruct (negb (rx_match RX_DIGITS (strip s))); [discriminate|].
  destruct (negb (rx_match RX_DIGITS (strip t))); [discriminate|].
  destruct (dict_get out (strip s)) as [v'|] eqn:E.
  - destruct (str_eqb v' (strip t)) eqn:Ev; [|discriminate].
    apply str_eqb_eq in Ev. subst v'. intros [= <-].
    now rewrite dict_set_same.
  - intros [= <-] H. rewrite dict_get_set.
    destruct (str_eqb (strip s) k) eqn:Ek; [|assumption].
    apply str_eqb_eq in Ek. congruence.
Qed.

Lemma smech_rows_keep (rows : list row) :
  forall i out m k v,
    outcome (smech_rows i out rows) = Ok m ->
    dict_get out k = Some v -> dict_get m k = Some v.
Proof.
  induction rows as [|r rows IH]; intros i out m k v H Hk; simpl in H.
  - now injection H as <-.
  - rewrite outcome_bind in H.
    destruct (outcome (smech_row i out r)) as [o|e] eqn:E; [|discriminate].
    eapply IH; [exact H|]. eapply smech_row_keeps; eassumption.
Qed.

Lemma smech_row_NoDup (i : nat) (out o : dict) (r : row) :
  outcome (smech_row i out r) = Ok o -> NoDup (keys out) -> NoDup (keys o).
Proof.
  rewrite smech_row_cases.
  destruct (item r "smech_code") as [s|]; [|discriminate].
  destruct (item r "bcc_code") as [t|]; [|discriminate].
  destruct (str_eqb (strip t) []); [now intros [= <-]|].
  destruct (negb (rx_match RX_DIGITS (strip s))); [discriminate|].
  destruct (negb (rx_match RX_DIGITS (strip t))); [discriminate|].
  destruct (dict_get out (strip s)) as [v'|].
  - destruct (str_eqb v' (strip t)); [|discriminate].
    intros [= <-]. apply NoDup_keys_set.
  - intros [= <-]. apply NoDup_keys_set.
Qed.

Lemma smech_rows_NoDup (rows : list row) :
  forall i out m,
    outcome (smech_rows i out rows) = Ok m -> NoDup (keys out) -> NoDup (keys m).
Proof.
  induction rows as [|r rows IH]; intros i out m H Hn; simpl in H.
  - now injection H as <-.
  - rewrite outcome_bind in H.
    destruct (outcome (smech_row i out r)) as [o|e] eqn:E; [|discriminate].
    eapply IH; [exact H|]. eapply smech_row_NoDup; eassumption.
Qed.

(** A row with a target code, once passed, is in the mapping, and its
    codes went through the digits check. *)
Lemma smech_row_recorded (i : nat) (out o : dict) (r : row) (s t : pystr) :
  outcome (smech_row i out r) = Ok o ->
  item r "smech_code" = Some s -> item r "bcc_code" = Some t -> strip t <> [] ->
  dict_get o (strip s) = Some (strip t)
  /\ rx_match RX_DIGITS (strip s) = true /\ rx_match RX_DIGITS (strip t) = true.
Proof.
  intros H Hs Hc Ht. rewrite smech_row_cases, Hs, Hc in H.
  apply str_eqb_neq in Ht. rewrite Ht in H.
  destruct (rx_match RX_DIGITS (strip s)); [|discriminate].
  destruct (rx_match RX_DIGITS (strip t)); [|discriminate].
  simpl in H.
  assert (o = dict_set out (strip s) (strip t)) as ->.
  { destruct (dict_get out (strip s)) as [v'|]; [|simpl in H; congruence].
    destruct (str_eqb v' (strip t)); simpl in H; [congruence|discriminate]. }
  now rewrite dict_get_set, str_eqb_refl.
Qed.

Lemma smech_rows_recorded (rows : list row) :
  forall i out m r s t,
    outcome (smech_rows i out rows) = Ok m -> In r rows ->
    item r "smech_code" = Some s -> item r "bcc_code" = Some t -> strip t <> [] ->
    dict_get m (strip s) = Some (strip t)
    /\ rx_match RX_DIGITS (strip s) = true /\ rx_match RX_DIGITS (strip t) = true.
Proof.
  induction rows as [|r0 rows IH]; intros i out m r s t H Hin Hs Ht Hne; [easy|].
  simpl in H. rewrite outcome_bind in H.
  destruct (outcome (smech_row i out r0)) as [o|e] eqn:E; [|discriminate].
  destruct Hin as [->|Hin].
  - destruct (smech_row_recorded _ _ _ _ _ _ E Hs Ht Hne) as (Hg & Hrs & Hrt).
    repeat split; try assumption. eapply smech_rows_keep; eassumption.
  - eapply IH; eassumption.
Qed.

Lemma In_DictReader (cols : list string) (rec : list pystr) (file : list (list pystr)) :
  rec <> [] -> In rec file -> In (zip_row cols rec) (DictReader cols file).
Proof.
  intros Hr Hin. unfold DictReader. apply in_map. apply filter_In. split; [assumption|].
  destruct rec; [congruence|reflexivity].
Qed.

Lemma dict_get_once (d : dict) (k v : pystr) :
  NoDup (keys d) -> dict_get d k = Some v ->
  filter (fun kv => str_eqb (fst kv) k) d = [(k, v)].
Proof.
  unfold keys. induction d as [|[k' v'] d IH]; simpl; [discriminate|].
  intros Hn H. inversion Hn as [|? ? Hk Hd]; subst.
  destruct (str_eqb k' k) eqn:E.
  - apply str_eqb_eq in E. injection H as ->. subst k'. f_equal.
    clear IH Hn Hd. induction d as [|[k1 v1] d IH]; [reflexivity|]. simpl in *.
    destruct (str_eqb k1 k) eqn:E1.
    + apply str_eqb_eq in E1. tauto.
    + apply IH. tauto.
  - now apply IH.
Qed.

(** C3 (amended): take two rows of the SMECH file with the same trimmed
    source code and non-empty trimmed target codes, the load having passed
    the earlier one and reached the later one.  If the target codes are
    equal, the later row raises nothing and the mapping stays as it was,
    with its single entry for the code.  If they differ, the load fails at
    the later row: with the duplicate-mapping error naming the code and
    that row's number when the later target code is digits-only, and with
    the target-code validation error otherwise. *)
Theorem repeated_source_code :
  forall (hdr : list pystr) (before : list (list pystr)) (rec1 rec2 : list pystr)
         (post : list (list pystr)) (out : dict) (s1 t1 s2 t2 : pystr),
    hdr <> [] -> In rec1 before ->
    nth_error rec1 1 = Some s1 -> nth_error rec1 5 = Some t1 ->
    nth_error rec2 1 = Some s2 -> nth_error rec2 5 = Some t2 ->
    strip s2 = strip s1 -> strip t1 <> [] -> strip t2 <> [] ->
    outcome (load_smech_to_bcc (hdr :: before)) = Ok out ->
    let n := 2 + List.length (DictReader SMECH_SECTORS_COLUMNS before) in
    (strip t2 = strip t1 ->
     outcome (load_smech_to_bcc (hdr :: before ++ [rec2])) = Ok out
     /\ filter (fun kv => str_eqb (fst kv) (strip s1)) out = [(strip s1, strip t1)])
    /\ (strip t2 <> strip t1 ->
        outcome (load_smech_to_bcc (hdr :: before ++ rec2 :: post))
        = Raise (if rx_match RX_DIGITS (strip t2)
                 then multiple_mappings (strip s1) n
                 else digits_error "bcc_code" (strip t2) n)).
Proof.
  intros hdr before rec1 rec2 post out s1 t1 s2 t2 Hh Hin Hs1 Ht1 Hs2 Ht2 Es Hn1 Hn2
         Hload n.
  assert (Hr1 : rec1 <> []) by (intros ->; discriminate).
  assert (Hr2 : rec2 <> []) by (intros ->; discriminate).
  unfold load_smech_to_bcc in Hload. rewrite DictReader_cons in Hload by assumption.
  destruct (item_smech rec1) as (_ & I1 & I5). rewrite Hs1 in I1. rewrite Ht1 in I5.
  destruct (smech_rows_recorded _ _ _ _ _ _ _ Hload
              (In_DictReader SMECH_SECTORS_COLUMNS _ _ Hr1 Hin) I1 I5 Hn1)
    as (Hg & Hrs & Hrt).
  assert (Hnd : NoDup (keys out)).
  { eapply smech_rows_NoDup; [exact Hload|constructor]. }
  assert (Hrow : forall rest,
             outcome (load_smech_to_bcc (hdr :: before ++ rec2 :: rest))
             = match outcome (smech_row n out (zip_row SMECH_SECTORS_COLUMNS rec2)) with
               | Ok o => outcome (smech_rows (S n) o
                                    (DictReader SMECH_SECTORS_COLUMNS rest))
               | Raise e => Raise e
               end).
  { intros rest. unfold load_smech_to_bcc.
    rewrite DictReader_cons, DictReader_app, DictReader_cons by assumption.
    rewrite smech_rows_app, outcome_bind, Hload. cbn [smech_rows].
    now rewrite outcome_bind. }
  assert (Hcases : smech_row n out (zip_row SMECH_SECTORS_COLUMNS rec2)
                   = if negb (rx_match RX_DIGITS (strip t2))
                     then ([], Raise (digits_error "bcc_code" (strip t2) n))
                     else if str_eqb (strip t1) (strip t2)
                          then ([Print (smech_note (strip s1) (nth_error rec2 0) (strip t2))],
                                Ok (dict_set out (strip s1) (strip t2)))
                          else ([Print (smech_note (strip s1) (nth_error rec2 0) (strip t2))],
                                Raise (multiple_mappings (strip s1) n))).
  { rewrite smech_row_cases. destruct (item_smech rec2) as (-> & -> & ->).
    rewrite Hs2, Ht2, Es, Hrs, Hg.
    now rewrite (proj2 (str_eqb_neq (strip t2) [])) by assumption. }
  split.
  - intros Et. split.
    + rewrite Hrow, Hcases, Et, Hrt, str_eqb_refl. simpl.
      now rewrite dict_set_same.
    + now apply dict_get_once.
  - intros Et. rewrite Hrow, Hcases.
    destruct (rx_match RX_DIGITS (strip t2)); [|reflexivity]. simpl.
    now rewrite (proj2 (str_eqb_neq (strip t1) (strip t2))) by congruence.
Qed.

(** C3, as stated, fails: two rows with the same trimmed source code and
    different trimmed target codes, the later one empty, load without any
    error. *)
Lemma repeated_source_code_empty_target :
  strip (lit "12") <> strip (lit " ")
  /\ outcome (load_smech_to_bcc
               [map lit ["smech_name"; "smech_code"; "nace_name"; "exio2"; "exio3"; "bcc"];
                map lit ["Widgets"; "5"; "Widget Mfg"; "E1"; "E2"; "12"];
                map lit ["Widgets"; "5"; "Widget Mfg"; "E1"; "E2"; " "]]%string)
     = Ok [(lit "5", lit "12")].
Proof. split; [discriminate|reflexivity]. Qed.

Lemma repeated_source_code_witness :
  outcome (load_smech_to_bcc
             [map lit ["smech_name"; "smech_code"; "nace_name"; "exio2"; "exio3"; "bcc"];
              map lit ["Widgets"; "5"; "Widget Mfg"; "E1"; "E2"; "12"];
              map lit ["Gadgets"; "6"; "Gadget Mfg"; "E1"; "E2"; "13"];
              map lit ["Widgets"; " 5"; "Widget Mfg"; "E1"; "E2"; "14"];
              map lit ["Gizmos"; "7"; "Gizmo Mfg"; "E1"; "E2"; "15"]]%string)
  = Raise (multiple_mappings (lit "5") 4).
Proof.
  refine (proj2 (repeated_source_code
                   (map lit ["smech_name"; "smech_code"; "nace_name"; "exio2"; "exio3";
                             "bcc"]%string)
                   [map lit ["Widgets"; "5"; "Widget Mfg"; "E1"; "E2"; "12"]%string;
                    map lit ["Gadgets"; "6"; "Gadget Mfg"; "E1"; "E2"; "13"]%string]
                   (map lit ["Widgets"; "5"; "Widget Mfg"; "E1"; "E2"; "12"]%string)
                   (map lit ["Widgets"; " 5"; "Widget Mfg"; "E1"; "E2"; "14"]%string)
                   [map lit ["Gizmos"; "7"; "Gizmo Mfg"; "E1"; "E2"; "15"]%string]
                   [(lit "5", lit "12"); (lit "6", lit "13")]
                   (lit "5") (lit "12") (lit " 5") (lit "14")
                   _ _ _ _ _ _ _ _ _ _) _).
  - discriminate.
  - left. reflexivity.
  - reflexivity.
  - reflexivity.
  - reflexivity.
  - reflexivity.
  - reflexivity.
  - discriminate.
  - discriminate.
  - reflexivity.
  - discriminate.
Defined.

(** ** The cross-reference check *)

Lemma effects_app (a b : list event) : effects (a ++ b) = effects a ++ effects b.
Proof. apply filter_app. Qed.

Lemma written_effects (t : list event) : written (effects t) = written t.
Proof.
  induction t as [|e t IH]; [reflexivity|].
  destruct e; simpl; now rewrite ?IH.
Qed.

Lemma effects_smech_rows (rows : list row) :
  forall i out, effects (trace (smech_rows i out rows)) = [].
Proof.
  induction rows as [|r rows IH]; intros i out; [reflexivity|].
  cbn [smech_rows]. rewrite trace_bind, effects_app.
  assert (E : effects (trace (smech_row i out r)) = []).
  { rewrite smech_row_cases.
    destruct (item r "smech_code") as [s|]; [|reflexivity].
    destruct (item r "bcc_code") as [t|]; [|reflexivity].
    destruct (str_eqb (strip t) []); [reflexivity|].
    destruct (negb (rx_match RX_DIGITS (strip s))); [reflexivity|].
    destruct (negb (rx_match RX_DIGITS (strip t))); [reflexivity|].
    destruct (dict_get out (strip s)) as [v|]; [|reflexivity].
    destruct (str_eqb v (strip t)); reflexivity. }
  rewrite E. destruct (outcome (smech_row i out r)); [apply IH|reflexivity].
Qed.

Lemma effects_load_smech (file : list (list pystr)) :
  effects (trace (load_smech_to_bcc file)) = [].
Proof.
  unfold load_smech_to_bcc.
  destruct (DictReader SMECH_SECTORS_COLUMNS file); [reflexivity|].
  apply effects_smech_rows.
Qed.

Lemma trace_bcc_rows (lower : pystr -> pystr) (rows : list row) :
  forall i out, trace (bcc_rows lower i out rows) = [].
Proof.
  induction rows as [|r rows IH]; intros i out; [reflexivity|].
  cbn [bcc_rows]. rewrite trace_bind.
  assert (E : trace (bcc_row lower i out r) = []).
  { rewrite bcc_row_cases.
    destruct (item r "nace_code") as [c|]; [|reflexivity].
    destruct (item r "bcc_name") as [n|]; [|reflexivity].
    destruct (item r "use_for_bcc") as [f|]; [|reflexivity].
    destruct (negb (in_yes (lower (strip f)))); [reflexivity|].
    destruct (negb (rx_match RX_DIGITS (strip c))); [reflexivity|].
    destruct (rx_match RX_DIGITS (strip n)); [reflexivity|].
    destruct (dict_in (strip c) out); reflexivity. }
  rewrite E. destruct (outcome (bcc_row lower i out r)); [apply IH|reflexivity].
Qed.

Lemma trace_load_bcc (lower : pystr -> pystr) (file : list (list pystr)) :
  trace (load_bcc_sectors lower file) = [].
Proof.
  unfold load_bcc_sectors.
  destruct (DictReader BCC_SECTORS_COLUMNS file); [reflexivity|].
  apply trace_bcc_rows.
Qed.

Lemma verify_codes_first_absent (items good rest : dict) (k v : pystr) (t : dict) :
  items = good ++ (k, v) :: rest ->
  Forall (present t) good -> dict_in v t = false ->
  verify_codes items t = raise (not_in_sector_list k v).
Proof.
  intros -> Hg Hv. induction Hg as [|[k' v'] good Hp _ IH]; simpl.
  - now rewrite Hv.
  - unfold present in Hp. simpl in Hp. now rewrite Hp.
Qed.

Lemma verify_codes_all_present (items t : dict) :
  Forall (present t) items -> verify_codes items t = ret tt.
Proof.
  induction 1 as [|[k v] items Hp _ IH]; [reflexivity|].
  simpl. unfold present in Hp. simpl in Hp. now rewrite Hp.
Qed.

(** The check finds the first pair whose target code is absent, or none. *)
Lemma verify_codes_cases (items t : dict) :
  Forall (present t) items
  \/ exists good k v rest,
       items = good ++ (k, v) :: rest /\ Forall (present t) good
       /\ dict_in v t = false.
Proof.
  induction items as [|[k v] items IH]; [now left|].
  destruct (dict_in v t) eqn:E.
  - destruct IH as [IH|(good & k' & v' & rest & -> & Hg & Hv)].
    + left. now constructor.
    + right. exists ((k, v) :: good), k', v', rest. repeat split; try assumption.
      now constructor.
  - right. exists [], k, v, items. repeat split; [constructor|assumption].
Qed.

Lemma trace_verify_codes (items t : dict) : trace (verify_codes items t) = [].
Proof.
  induction items as [|[k v] items IH]; [reflexivity|].
  simpl. now destruct (dict_in v t).
Qed.

(** ** Writing out *)


Lemma written_app (t1 t2 : list event) : written (t1 ++ t2) = written t1 ++ written t2.
Proof. apply flat_map_app. Qed.

Ltac write_out_cases fs args a b :=
  unfold write_out, makedirs, write_text, makedirs_events;
  destruct (negb (truthy (output_bcc args)) || negb (truthy (output_benchmark args)))
    eqn:?;
  [destruct (os_makedirs fs (lit "dist")) as [[]|?] eqn:?|];
  (destruct (open_for_writing fs BenchmarkModule (output_benchmark_path args))
     as [[]|?] eqn:?;
   [destruct (write_and_close fs BenchmarkModule (output_benchmark_path args) a)
      as [[]|?] eqn:?;
    [destruct (open_for_writing fs SectorsModule (output_bcc_sectors_path args))
       as [[]|?] eqn:?;
     [destruct (write_and_close fs SectorsModule (output_bcc_sectors_path args) b)
        as [[]|?] eqn:?|]|]|]);
  run_m.

(** Writing out prints nothing. *)
Lemma effects_write_out (fs : Filesystem) (args : Namespace) (a b : pystr) :
  effects (trace (write_out fs args a b)) = trace (write_out fs args a b).
Proof. write_out_cases fs args a b; reflexivity. Qed.

(** The files are written in order, each after the one before it. *)
Lemma written_write_out (fs : Filesystem) (args : Namespace) (a b : pystr) :
  exists n,
    written (trace (write_out fs args a b))
    = firstn n [(output_benchmark_path args, a); (output_bcc_sectors_path args, b)].
Proof.
  write_out_cases fs args a b;
    solve [now exists 0 | now exists 1 | now exists 2].
Qed.

(** Writing out runs no process. *)
Lemma no_process_write_out (fs : Filesystem) (args : Namespace) (a b : pystr) :
  forall c i, ~ In (RunProcess c i) (trace (write_out fs args a b)).
Proof.
  intros c i. write_out_cases fs args a b; simpl; intuition discriminate.
Qed.

(** Writing out returns normally exactly when every call it makes is
    granted. *)
Lemma write_out_ok_iff (fs : Filesystem) (args : Namespace) (a b : pystr) :
  outcome (write_out fs args a b) = Ok tt
  <-> (truthy (output_bcc args) && truthy (output_benchmark args) = false ->
       os_makedirs fs (lit "dist") = Ok tt)
      /\ open_for_writing fs BenchmarkModule (output_benchmark_path args) = Ok tt
      /\ write_and_close fs BenchmarkModule (output_benchmark_path args) a = Ok tt
      /\ open_for_writing fs SectorsModule (output_bcc_sectors_path args) = Ok tt
      /\ write_and_close fs SectorsModule (output_bcc_sectors_path args) b = Ok tt.
Proof.
  unfold write_out, makedirs, write_text.
  replace (negb (truthy (output_bcc args)) || negb (truthy (output_benchmark args)))
    with (negb (truthy (output_bcc args) && truthy (output_benchmark args)))
    by now destruct (truthy (output_bcc args)), (truthy (output_benchmark args)).
  destruct (truthy (output_bcc args) && truthy (output_benchmark args));
    cbn [negb];
    [|destruct (os_makedirs fs (lit "dist")) as [[]|?]];
    (destruct (open_for_writing fs BenchmarkModule (output_benchmark_path args))
       as [[]|?];
     [destruct (write_and_close fs BenchmarkModule (output_benchmark_path args) a)
        as [[]|?];
      [destruct (open_for_writing fs SectorsModule (output_bcc_sectors_path args))
         as [[]|?];
       [destruct (write_and_close fs SectorsModule (output_bcc_sectors_path args) b)
          as [[]|?]|]|]|]);
    run_m;
    (split;
     [intros H; first [discriminate H | repeat split; intros; first [reflexivity | discriminate]]
     |intros (Hd & Ha & Hb & Hc & He);
      first [reflexivity | discriminate | (specialize (Hd eq_refl); discriminate)]]).
Qed.

Lemma written_makedirs (args : Namespace) : written (makedirs_events args) = [].
Proof.
  unfold makedirs_events.
  now destruct (negb (truthy (output_bcc args)) || negb (truthy (output_benchmark args))).
Qed.

(** Writing out returns normally only when every call was granted. *)
Lemma write_out_ok (fs : Filesystem) (args : Namespace) (a b : pystr) :
  outcome (write_out fs args a b) = Ok tt ->
  trace (write_out fs args a b)
  = makedirs_events args
    ++ [OpenFile (output_benchmark_path args);
        WriteFile (output_benchmark_path args) a;
        OpenFile (output_bcc_sectors_path args);
        WriteFile (output_bcc_sectors_path args) b].
Proof. write_out_cases fs args a b; intros H; try discriminate H; reflexivity. Qed.

(** ** Runs of [main] *)

Section RunFacts.
Variable lower : pystr -> pystr.
Variable run : list pystr -> pystr -> result CompletedProcess.
Variable fs : Filesystem.

Lemma main_after_loads (args : Namespace) (f1 f2 : list (list pystr)) (ts : pystr)
      (m t : dict) :
  outcome (load_smech_to_bcc f1) = Ok m ->
  outcome (load_bcc_sectors lower f2) = Ok t ->
  outcome (main lower run fs args f1 f2 ts)
  = match outcome (verify_codes m t) with
    | Ok _ => outcome (build_and_write run fs args m t ts)
    | Raise e => Raise e
    end
  /\ effects (trace (main lower run fs args f1 f2 ts))
     = match outcome (verify_codes m t) with
       | Ok _ => effects (trace (build_and_write run fs args m t ts))
       | Raise e => []
       end.
Proof.
  intros H1 H2. unfold main.
  rewrite (M_eq (load_smech_to_bcc f1)), H1, bind_pair_ok.
  rewrite (M_eq (load_bcc_sectors lower f2)), H2, bind_pair_ok.
  cbn [trace outcome fst snd]. rewrite outcome_bind, !effects_app, trace_bind.
  fold (trace (load_smech_to_bcc f1)) (trace (load_bcc_sectors lower f2)).
  rewrite effects_load_smech, trace_load_bcc, trace_verify_codes. split; [reflexivity|].
  simpl. now destruct (outcome (verify_codes m t)).
Qed.


(** C1 (amended): when both tables have loaded and some pair of the
    source-to-target mapping has a target code that is no key of the
    sector mapping, the run fails with the referential-integrity error
    that names the source code and the target code of the first such pair
    in the order of the mapping, having done nothing but print: no
    formatter was run, no directory made, no file written.  Any event
    other than printing implies that every target code is present. *)
Theorem absent_target_code_aborts :
  forall (args : Namespace) (f1 f2 : list (list pystr)) (ts : pystr) (m t : dict),
    outcome (load_smech_to_bcc f1) = Ok m ->
    outcome (load_bcc_sectors lower f2) = Ok t ->
    (forall good k v rest,
        m = good ++ (k, v) :: rest -> Forall (present t) good ->
        dict_in v t = false ->
        outcome (main lower run fs args f1 f2 ts) = Raise (not_in_sector_list k v)
        /\ names (not_in_sector_list k v) k = true
        /\ names (not_in_sector_list k v) v = true)
    /\ (forall k v,
           In (k, v) m -> dict_in v t = false ->
           (exists k' v', In (k', v') m /\ dict_in v' t = false
                          /\ outcome (main lower run fs args f1 f2 ts)
                             = Raise (not_in_sector_list k' v'))
           /\ effects (trace (main lower run fs args f1 f2 ts)) = []
           /\ written (trace (main lower run fs args f1 f2 ts)) = [])
    /\ (effects (trace (main lower run fs args f1 f2 ts)) <> [] ->
        forall k v, In (k, v) m -> dict_in v t = true).
Proof.
  intros args f1 f2 ts m t H1 H2.
  destruct (main_after_loads args f1 f2 ts m t H1 H2) as [Ho He].
  assert (Hbad : forall good k v rest,
             m = good ++ (k, v) :: rest -> Forall (present t) good ->
             dict_in v t = false ->
             outcome (main lower run fs args f1 f2 ts) = Raise (not_in_sector_list k v)
             /\ effects (trace (main lower run fs args f1 f2 ts)) = []).
  { intros good k v rest Hm Hg Hv.
    rewrite Ho, He, (verify_codes_first_absent m good rest k v t Hm Hg Hv).
    now split. }
  split; [|split].
  - intros good k v rest Hm Hg Hv.
    destruct (Hbad good k v rest Hm Hg Hv) as [-> _].
    split; [reflexivity|]. simpl. rewrite !str_eqb_refl, ?orb_true_r. now split.
  - intros k v Hin Hv.
    destruct (verify_codes_cases m t) as [Hall|(good & k' & v' & rest & Hm & Hg & Hv')].
    + rewrite Forall_forall in Hall. specialize (Hall (k, v) Hin).
      unfold present in Hall. simpl in Hall. congruence.
    + destruct (Hbad good k' v' rest Hm Hg Hv') as [Eo Ee].
      split; [|split].
      * exists k', v'. repeat split; try assumption.
        rewrite Hm. apply in_or_app. right. now left.
      * exact Ee.
      * now rewrite <- written_effects, Ee.
  - intros Hne k v Hin.
    destruct (verify_codes_cases m t) as [Hall|(good & k' & v' & rest & Hm & Hg & Hv')].
    + rewrite Forall_forall in Hall. exact (Hall (k, v) Hin).
    + destruct (Hbad good k' v' rest Hm Hg Hv') as [_ Ee]. contradiction.
Qed.

(** A run whose tables load and cross-check goes on to render, format
    and write. *)
Lemma main_checked (args : Namespace) (f1 f2 : list (list pystr)) (ts : pystr)
      (m t : dict) :
  outcome (load_smech_to_bcc f1) = Ok m ->
  outcome (load_bcc_sectors lower f2) = Ok t ->
  (forall k v, In (k, v) m -> dict_in v t = true) ->
  outcome (main lower run fs args f1 f2 ts) = outcome (build_and_write run fs args m t ts)
  /\ effects (trace (main lower run fs args f1 f2 ts))
     = effects (trace (build_and_write run fs args m t ts)).
Proof.
  intros H1 H2 Hall.
  destruct (main_after_loads args f1 f2 ts m t H1 H2) as [Ho He].
  assert (Hv : verify_codes m t = ret tt).
  { apply verify_codes_all_present. apply Forall_forall. intros [k v] Hin.
    exact (Hall k v Hin). }
  rewrite Hv in Ho, He. now split.
Qed.

(** A run without the formatter writes the two renderings as they are. *)
Lemma main_unformatted (args : Namespace) (f1 f2 : list (list pystr)) (ts : pystr)
      (m t : dict) :
  is_true (prettier args) = false ->
  outcome (load_smech_to_bcc f1) = Ok m ->
  outcome (load_bcc_sectors lower f2) = Ok t ->
  (forall k v, In (k, v) m -> dict_in v t = true) ->
  outcome (main lower run fs args f1 f2 ts)
  = outcome (write_out fs args (benchmark_code_of (sector_list_of t) m ts)
                       (bcc_sectors_code_of (sector_list_of t) ts))
  /\ effects (trace (main lower run fs args f1 f2 ts))
     = trace (write_out fs args (benchmark_code_of (sector_list_of t) m ts)
                        (bcc_sectors_code_of (sector_list_of t) ts)).
Proof.
  intros Hp H1 H2 Hall.
  destruct (main_checked args f1 f2 ts m t H1 H2 Hall) as [Ho He].
  rewrite Ho, He. unfold build_and_write. cbv zeta. rewrite Hp. cbv iota.
  rewrite bind_ret. cbn [fst snd]. split; [reflexivity|]. apply effects_write_out.
Qed.

End RunFacts.

(** C1, as stated, fails: the pair of source code 2 and target code 99 is
    in the mapping and 99 is no key of the sector mapping, but the error
    of the run names the pair before it, 1 and 98, and neither 2 nor 99. *)
Lemma second_absent_target_code_not_named :
  outcome (load_smech_to_bcc
             [map lit ["smech_name"; "smech_code"; "nace_name"; "exio2"; "exio3"; "bcc"];
              map lit ["Widgets"; "1"; "Widget Mfg"; "E1"; "E2"; "98"];
              map lit ["Gadgets"; "2"; "Gadget Mfg"; "E1"; "E2"; "99"]]%string)
  = Ok [(lit "1", lit "98"); (lit "2", lit "99")]
  /\ outcome (load_bcc_sectors ascii_lower
                [map lit ["nace"; "i1"; "i2"; "exio3"; "name"; "notes"; "use"; "bcc_name"];
                 map lit ["12"; "_"; "_"; "Widget Mfg"; "Widgets"; ""; "x"; "Widgets"]]%string)
     = Ok [(lit "12", lit "Widgets")]
  /\ dict_in (lit "99") [(lit "12", lit "Widgets")] = false
  /\ outcome (main ascii_lower echo disk_ok no_options
                [map lit ["smech_name"; "smech_code"; "nace_name"; "exio2"; "exio3"; "bcc"];
                 map lit ["Widgets"; "1"; "Widget Mfg"; "E1"; "E2"; "98"];
                 map lit ["Gadgets"; "2"; "Gadget Mfg"; "E1"; "E2"; "99"]]%string
                [map lit ["nace"; "i1"; "i2"; "exio3"; "name"; "notes"; "use"; "bcc_name"];
                 map lit ["12"; "_"; "_"; "Widget Mfg"; "Widgets"; ""; "x"; "Widgets"]]%string
                (lit "2022-06-01T12:00:00"))
     = Raise (not_in_sector_list (lit "1") (lit "98"))
  /\ names (not_in_sector_list (lit "1") (lit "98")) (lit "2") = false
  /\ names (not_in_sector_list (lit "1") (lit "98")) (lit "99") = false.
Proof. repeat split; reflexivity. Qed.

Lemma absent_target_code_aborts_witness :
  outcome (main ascii_lower echo disk_ok no_options
             [map lit ["smech_name"; "smech_code"; "nace_name"; "exio2"; "exio3"; "bcc"];
              map lit ["Widgets"; "5"; "Widget Mfg"; "E1"; "E2"; "12"];
              map lit ["Gadgets"; "6"; "Gadget Mfg"; "E1"; "E2"; "99"]]%string
             [map lit ["nace"; "i1"; "i2"; "exio3"; "name"; "notes"; "use"; "bcc_name"];
              map lit ["12"; "_"; "_"; "Widget Mfg"; "Widgets"; ""; "x"; "Widgets"]]%string
             (lit "2022-06-01T12:00:00"))
  = Raise (not_in_sector_list (lit "6") (lit "99"))
  /\ names (not_in_sector_list (lit "6") (lit "99")) (lit "6") = true
  /\ names (not_in_sector_list (lit "6") (lit "99")) (lit "99") = true.
Proof.
  refine (proj1 (absent_target_code_aborts ascii_lower echo disk_ok no_options _ _ _
                   [(lit "5", lit "12"); (lit "6", lit "99")]
                   [(lit "12", lit "Widgets")] _ _)
                [(lit "5", lit "12")] (lit "6") (lit "99") [] _ _ _).
  - reflexivity.
  - reflexivity.
  - reflexivity.
  - repeat constructor.
  - reflexivity.
Defined.



(** ** The order of strings and the stable sort *)

Lemma str_leb_refl (a : pystr) : str_leb a a = true.
Proof.
  induction a as [|x a IH]; [reflexivity|].
  simpl. now rewrite N.eqb_refl, IH, orb_true_r.
Qed.

Lemma str_leb_total (a b : pystr) : str_leb a b = false -> str_leb b a = true.
Proof.
  revert b. induction a as [|x a IH]; intros [|y b]; simpl; try easy.
  intros H. apply orb_false_iff in H as [Hlt H].
  apply N.ltb_ge in Hlt.
  destruct (N.eqb x y) eqn:E; simpl in H.
  - apply N.eqb_eq in E. subst y. rewrite N.eqb_refl, (IH b H). apply orb_true_r.
  - apply N.eqb_neq in E. assert (Hyx : (y < x)%N) by lia.
    apply N.ltb_lt in Hyx. now rewrite Hyx.
Qed.

Lemma str_leb_trans (a b c : pystr) :
  str_leb a b = true -> str_leb b c = true -> str_leb a c = true.
Proof.
  revert b c. induction a as [|x a IH]; intros [|y b] [|z c]; simpl; try easy.
  intros H1 H2.
  apply orb_true_iff in H1 as [H1|H1]; apply orb_true_iff in H2 as [H2|H2].
  - apply N.ltb_lt in H1, H2. apply orb_true_iff. left. apply N.ltb_lt. lia.
  - apply andb_true_iff in H2 as [E _]. apply N.eqb_eq in E. subst z.
    now rewrite H1.
  - apply andb_true_iff in H1 as [E _]. apply N.eqb_eq in E. subst y.
    now rewrite H2.
  - apply andb_true_iff in H1 as [E1 H1]. apply andb_true_iff in H2 as [E2 H2].
    apply N.eqb_eq in E1, E2. subst y z.
    rewrite N.eqb_refl, (IH b c H1 H2). apply orb_true_r.
Qed.

Lemma str_leb_antisym (a b : pystr) :
  str_leb a b = true -> str_leb b a = true -> a = b.
Proof.
  revert b. induction a as [|x a IH]; intros [|y b]; simpl; try easy.
  intros H1 H2.
  apply orb_true_iff in H1 as [H1|H1]; apply orb_true_iff in H2 as [H2|H2].
  - apply N.ltb_lt in H1, H2. lia.
  - apply andb_true_iff in H2 as [E _]. apply N.eqb_eq in E. apply N.ltb_lt in H1. lia.
  - apply andb_true_iff in H1 as [E _]. apply N.eqb_eq in E. apply N.ltb_lt in H2. lia.
  - apply andb_true_iff in H1 as [E1 H1]. apply andb_true_iff in H2 as [E2 H2].
    apply N.eqb_eq in E1. subst y. f_equal. now apply IH.
Qed.

Section SortedFacts.
Variable A : Type.
Variable key : A -> pystr.

Let le (a b : A) : Prop := str_leb (key a) (key b) = true.

Lemma insert_by_perm (x : A) (l : list A) : Permutation (insert_by key x l) (x :: l).
Proof.
  induction l as [|y l IH]; simpl; [reflexivity|].
  destruct (str_leb (key x) (key y)); [reflexivity|].
  rewrite IH. apply perm_swap.
Qed.

Lemma sorted_perm (l : list A) : Permutation (sorted key l) l.
Proof.
  induction l as [|x l IH]; simpl; [reflexivity|].
  now rewrite insert_by_perm, IH.
Qed.

Lemma insert_by_hd (x y : A) (l : list A) :
  HdRel le y l -> le y x -> HdRel le y (insert_by key x l).
Proof.
  intros Hl Hyx. destruct l as [|z l]; simpl.
  - now constructor.
  - destruct (str_leb (key x) (key z)); constructor; [assumption|].
    now inversion Hl.
Qed.

Lemma insert_by_sorted (x : A) (l : list A) :
  Sorted le l -> Sorted le (insert_by key x l).
Proof.
  induction 1 as [|y l Hs IH Hh]; simpl.
  - repeat constructor.
  - destruct (str_leb (key x) (key y)) eqn:E.
    + constructor; [now constructor|]. now constructor.
    + constructor; [assumption|]. apply insert_by_hd; [assumption|].
      now apply str_leb_total.
Qed.

Lemma sorted_is_sorted (l : list A) : StronglySorted le (sorted key l).
Proof.
  apply Sorted_StronglySorted.
  - intros a b c. apply str_leb_trans.
  - induction l as [|x l IH]; simpl; [constructor|]. now apply insert_by_sorted.
Qed.

(** Stability: the elements with a given key keep their order. *)
Lemma insert_by_stable (n : pystr) (x : A) (l : list A) :
  filter (fun e => str_eqb (key e) n) (insert_by key x l)
  = filter (fun e => str_eqb (key e) n) (x :: l).
Proof.
  induction l as [|y l IH]; [reflexivity|].
  cbn [insert_by]. destruct (str_leb (key x) (key y)) eqn:E; [reflexivity|].
  cbn [filter] in *. rewrite IH.
  destruct (str_eqb (key y) n) eqn:Ey; [|reflexivity].
  destruct (str_eqb (key x) n) eqn:Ex; [|reflexivity].
  apply str_eqb_eq in Ex, Ey. rewrite Ex, Ey, str_leb_refl in E. discriminate.
Qed.

Lemma sorted_stable (n : pystr) (l : list A) :
  filter (fun e => str_eqb (key e) n) (sorted key l)
  = filter (fun e => str_eqb (key e) n) l.
Proof.
  induction l as [|x l IH]; [reflexivity|].
  cbn [sorted]. rewrite insert_by_stable. cbn [filter]. now rewrite IH.
Qed.
End SortedFacts.

(** ** The rendered sector list *)

Lemma substitute_text (s : string) (t : template) (kws : list (string * pystr)) :
  substitute (Text s :: t) kws = lit s ++ substitute t kws.
Proof. reflexivity. Qed.

Lemma substitute_placeholder (n : string) (v : pystr) (t : template)
      (kws : list (string * pystr)) :
  kw_get kws n = Some v ->
  substitute (Placeholder n :: t) kws = v ++ substitute t kws.
Proof. intros H. cbn [substitute]. now rewrite H. Qed.

(** The benchmark module is a frame, fixed by the timestamp, around the
    two payloads. *)
Lemma benchmark_code_frame (ts : pystr) :
  exists pre mid post,
    forall (sector_list : list dict) (smech_to_bcc : dict),
      benchmark_code_of sector_list smech_to_bcc ts
      = pre ++ dumps_list sector_list ++ mid ++ dumps_dict true smech_to_bcc ++ post.
Proof.
  unfold benchmark_code_of, BENCHMARK_OUT_TEMPLATE.
  match goal with
  | |- context [ [Text ?a; _; Text ?b; _; Text ?c; _; Text ?d] ] =>
      exists (lit a ++ ts ++ lit b), (lit c), (lit d)
  end.
  intros sector_list smech_to_bcc.
  rewrite substitute_text, (substitute_placeholder _ ts) by reflexivity.
  rewrite substitute_text, (substitute_placeholder _ (dumps_list sector_list))
    by reflexivity.
  rewrite substitute_text, (substitute_placeholder _ (dumps_dict true smech_to_bcc))
    by reflexivity.
  rewrite substitute_text. cbn [substitute].
  now rewrite app_nil_r, <- !app_assoc.
Qed.

(** The sector module is a frame around its one payload. *)
Lemma bcc_sectors_code_frame (ts : pystr) :
  exists pre post,
    forall (sector_list : list dict),
      bcc_sectors_code_of sector_list ts
      = pre ++ dumps_list (sector_list ++ [not_listed]) ++ post.
Proof.
  unfold bcc_sectors_code_of, BCC_SECTORS_OUT_TEMPLATE.
  match goal with
  | |- context [ [Text ?a; _; Text ?b; _; Text ?c] ] =>
      exists (lit a ++ ts ++ lit b), (lit c)
  end.
  intros sector_list.
  rewrite substitute_text, (substitute_placeholder _ ts) by reflexivity.
  rewrite substitute_text,
    (substitute_placeholder _ (dumps_list (sector_list ++ [not_listed])))
    by reflexivity.
  rewrite substitute_text. cbn [substitute].
  now rewrite app_nil_r, <- !app_assoc.
Qed.

(** ** Decoding inverts encoding *)

Lemma unhex_hexdigit (d : N) : (d < 16)%N -> unhex (hexdigit d) = Some d.
Proof.
  intros H. unfold hexdigit, unhex.
  destruct (d <? 10)%N eqn:E.
  - apply N.ltb_lt in E.
    replace ((48 <=? 48 + d) && (48 + d <=? 57))%N with true.
    + f_equal. lia.
    + symmetry. apply andb_true_iff. split; apply N.leb_le; lia.
  - apply N.ltb_ge in E.
    replace ((48 <=? 87 + d) && (87 + d <=? 57))%N with false.
    + replace ((97 <=? 87 + d) && (87 + d <=? 102))%N with true.
      * f_equal. lia.
      * symmetry. apply andb_true_iff. split; apply N.leb_le; lia.
    + symmetry. apply andb_false_iff. right. apply N.leb_gt. lia.
Qed.

Lemma decode_u_escape (n : N) :
  (n < 65536)%N ->
  decode_uXXXX (hexdigit (n / 4096 mod 16)) (hexdigit (n / 256 mod 16))
               (hexdigit (n / 16 mod 16)) (hexdigit (n mod 16)) = Some n.
Proof.
  intros H. unfold decode_uXXXX.
  rewrite !unhex_hexdigit by (apply N.mod_lt; discriminate).
  f_equal.
  replace (n / 4096)%N with (n / 16 / 16 / 16)%N by (now rewrite !N.Div0.div_div).
  replace (n / 256)%N with (n / 16 / 16)%N by (now rewrite !N.Div0.div_div).
  assert (n / 16 / 16 / 16 < 16)%N.
  { apply N.Div0.div_lt_upper_bound. apply N.Div0.div_lt_upper_bound.
    apply N.Div0.div_lt_upper_bound. lia. }
  rewrite (N.mod_small (n / 16 / 16 / 16) 16) by assumption.
  pose proof (N.Div0.div_mod n 16) as H1.
  pose proof (N.Div0.div_mod (n / 16) 16) as H2.
  pose proof (N.Div0.div_mod (n / 16 / 16) 16) as H3.
  revert H1 H2 H3.
  generalize (n mod 16)%N ((n / 16) mod 16)%N ((n / 16 / 16) mod 16)%N
             (n / 16 / 16 / 16)%N.
  generalize (n / 16 / 16)%N. generalize (n / 16)%N. intros. lia.
Qed.

Lemma lor_high_low (h lo : N) :
  (lo < 1024)%N -> N.lor (h * 1024) lo = (h * 1024 + lo)%N.
Proof.
  intros H.
  assert (E : N.land (h * 1024) lo = 0%N).
  { apply N.bits_inj_0. intros i. rewrite N.land_spec.
    destruct (N.lt_ge_cases i 10) as [Hi|Hi].
    - change 1024%N with (2 ^ 10)%N. now rewrite N.mul_pow2_bits_low.
    - destruct (N.eq_dec lo 0) as [->|Hz].
      + now rewrite N.bits_0, andb_false_r.
      + rewrite (N.bits_above_log2 lo i), andb_false_r; [reflexivity|].
        apply N.log2_lt_pow2; [lia|].
        apply N.lt_le_trans with (2 ^ 10)%N; [exact H|].
        apply N.pow_le_mono_r; [discriminate|exact Hi]. }
  now rewrite <- N.lxor_lor, <- N.add_nocarry_lxor.
Qed.

Lemma surrogates_join (c : N) :
  (65536 <= c)%N -> (c <= 1114111)%N ->
  let n := (c - 65536)%N in
  let s1 := N.lor 55296 (N.land (N.shiftr n 10) 1023) in
  let s2 := N.lor 56320 (N.land n 1023) in
  is_high_surrogate s1 = true /\ is_low_surrogate s2 = true
  /\ join_surrogates s1 s2 = c.
Proof.
  intros Hlo Hhi n s1 s2.
  assert (Hn : (n < 1048576)%N) by (unfold n; lia).
  assert (E1 : s1 = (55296 + n / 1024)%N).
  { unfold s1. change 1023%N with (N.ones 10).
    rewrite N.land_ones, N.shiftr_div_pow2. change (2 ^ 10)%N with 1024%N.
    rewrite N.mod_small by (apply N.Div0.div_lt_upper_bound; lia).
    change 55296%N with (54 * 1024)%N.
    apply lor_high_low. apply N.Div0.div_lt_upper_bound. lia. }
  assert (E2 : s2 = (56320 + n mod 1024)%N).
  { unfold s2. change 1023%N with (N.ones 10).
    rewrite N.land_ones. change (2 ^ 10)%N with 1024%N.
    change 56320%N with (55 * 1024)%N.
    apply lor_high_low. apply N.mod_lt. discriminate. }
  assert (Hq : (n / 1024 < 1024)%N) by (apply N.Div0.div_lt_upper_bound; lia).
  assert (Hr : (n mod 1024 < 1024)%N) by (apply N.mod_lt; discriminate).
  assert (Hc : c = (65536 + (1024 * (n / 1024) + n mod 1024))%N).
  { rewrite <- N.Div0.div_mod. unfold n. lia. }
  rewrite E1, E2. unfold is_high_surrogate, is_low_surrogate, join_surrogates.
  rewrite N.shiftl_mul_pow2. change (2 ^ 10)%N with 1024%N.
  rewrite !N.add_sub_swap, !N.sub_diag by apply N.le_refl. rewrite !N.add_0_l.
  rewrite lor_high_low by assumption.
  clear E1 E2. revert Hq Hr Hc. generalize (n / 1024)%N (n mod 1024)%N.
  intros q r Hq Hr Hc. repeat split.
  - apply andb_true_iff. split; apply N.leb_le; lia.
  - apply andb_true_iff. split; apply N.leb_le; lia.
  - lia.
Qed.

Lemma scanstring_u (n : N) (rest : pystr) :
  (n < 65536)%N -> is_high_surrogate n = false ->
  scanstring (u_escape n ++ rest) = cons_chr n (scanstring rest).
Proof.
  intros Hn Hh. unfold u_escape. cbn [app].
  set (h1 := hexdigit (n / 4096 mod 16)). set (h2 := hexdigit (n / 256 mod 16)).
  set (h3 := hexdigit (n / 16 mod 16)). set (h4 := hexdigit (n mod 16)).
  cbn [scanstring]. 
  change (92 =? 34)%N with false. change (92 =? 92)%N with true.
  change (117 =? 117)%N with true. cbv iota.
  unfold h1, h2, h3, h4. rewrite decode_u_escape by assumption. now rewrite Hh.
Qed.

Lemma scanstring_pair (u1 u2 : N) (rest : pystr) :
  is_high_surrogate u1 = true -> is_low_surrogate u2 = true ->
  scanstring (u_escape u1 ++ u_escape u2 ++ rest)
  = cons_chr (join_surrogates u1 u2) (scanstring rest).
Proof.
  intros H1 H2.
  assert (L1 : (u1 < 65536)%N).
  { unfold is_high_surrogate in H1. apply andb_true_iff in H1 as [_ H1].
    apply N.leb_le in H1. lia. }
  assert (L2 : (u2 < 65536)%N).
  { unfold is_low_surrogate in H2. apply andb_true_iff in H2 as [_ H2].
    apply N.leb_le in H2. lia. }
  unfold u_escape. cbn [app].
  set (h1 := hexdigit (u1 / 4096 mod 16)). set (h2 := hexdigit (u1 / 256 mod 16)).
  set (h3 := hexdigit (u1 / 16 mod 16)). set (h4 := hexdigit (u1 mod 16)).
  set (g1 := hexdigit (u2 / 4096 mod 16)). set (g2 := hexdigit (u2 / 256 mod 16)).
  set (g3 := hexdigit (u2 / 16 mod 16)). set (g4 := hexdigit (u2 mod 16)).
  cbn [scanstring].
  change (92 =? 34)%N with false. change (92 =? 92)%N with true.
  change (117 =? 117)%N with true. cbv iota.
  unfold h1, h2, h3, h4. rewrite decode_u_escape by assumption. rewrite H1.
  cbn [andb]. unfold g1, g2, g3, g4. rewrite decode_u_escape by assumption.
  now rewrite H2.
Qed.

Lemma scanstring_escape (c : N) (rest : pystr) :
  scalar c = true ->
  scanstring (escape_char c ++ rest) = cons_chr c (scanstring rest).
Proof.
  intros Hc. unfold escape_char.
  destruct (c =? 92)%N eqn:E92.
  { apply N.eqb_eq in E92. subst c. reflexivity. }
  destruct (c =? 34)%N eqn:E34.
  { apply N.eqb_eq in E34. subst c. reflexivity. }
  destruct ((32 <=? c) && (c <=? 126))%N eqn:Ep.
  { apply andb_true_iff in Ep as [Ep _]. apply N.leb_le in Ep.
    cbn [app scanstring]. rewrite E34, E92.
    now rewrite (proj2 (N.ltb_ge c 32)) by assumption. }
  destruct (c =? 8)%N eqn:E8; [apply N.eqb_eq in E8; subst c; reflexivity|].
  destruct (c =? 12)%N eqn:E12; [apply N.eqb_eq in E12; subst c; reflexivity|].
  destruct (c =? 10)%N eqn:E10; [apply N.eqb_eq in E10; subst c; reflexivity|].
  destruct (c =? 13)%N eqn:E13; [apply N.eqb_eq in E13; subst c; reflexivity|].
  destruct (c =? 9)%N eqn:E9; [apply N.eqb_eq in E9; subst c; reflexivity|].
  unfold scalar in Hc.
  destruct (c <? 65536)%N eqn:El.
  - apply N.ltb_lt in El. apply scanstring_u; [assumption|].
    unfold is_high_surrogate. apply andb_false_iff.
    apply orb_true_iff in Hc as [Hc|Hc].
    + apply N.ltb_lt in Hc. left. apply N.leb_gt. lia.
    + apply andb_true_iff in Hc as [Hc _]. apply N.leb_le in Hc.
      right. apply N.leb_gt. lia.
  - apply N.ltb_ge in El. cbv zeta. rewrite <- app_assoc.
    assert (Hhi : (c <= 1114111)%N).
    { apply orb_true_iff in Hc as [Hc|Hc].
      - apply N.ltb_lt in Hc. lia.
      - apply andb_true_iff in Hc as [_ Hc]. now apply N.leb_le in Hc. }
    destruct (surrogates_join c El Hhi) as (H1 & H2 & H3).
    cbv zeta in H1, H2, H3. rewrite scanstring_pair by assumption. now rewrite H3.
Qed.

Lemma scanstring_encoded (s : pystr) (rest : pystr) :
  wf_str s ->
  scanstring (flat_map escape_char s ++ 34%N :: rest) = Some (s, rest).
Proof.
  induction 1 as [|c s Hc _ IH]; [reflexivity|].
  cbn [flat_map]. rewrite <- app_assoc, scanstring_escape by assumption.
  now rewrite IH.
Qed.

Lemma encoded_app (s rest : pystr) :
  encode_basestring_ascii s ++ rest
  = 34%N :: (flat_map escape_char s ++ 34%N :: rest).
Proof. unfold encode_basestring_ascii. cbn [app]. now rewrite <- app_assoc. Qed.

Lemma expect_hit (c : N) (r : pystr) : expect c (c :: r) = Some r.
Proof. cbn [expect]. now rewrite N.eqb_refl. Qed.

Lemma colon_space_app (r : pystr) : lit ": " ++ r = 58%N :: 32%N :: r.
Proof. reflexivity. Qed.

Lemma comma_space_app (r : pystr) : lit ", " ++ r = 44%N :: 32%N :: r.
Proof. reflexivity. Qed.

Lemma skip_ws_colon (r : pystr) : skip_ws (58%N :: r) = 58%N :: r.
Proof. reflexivity. Qed.

Lemma skip_ws_quote (r : pystr) : skip_ws (34%N :: r) = 34%N :: r.
Proof. reflexivity. Qed.

Lemma skip_ws_space (r : pystr) : skip_ws (32%N :: r) = skip_ws r.
Proof. reflexivity. Qed.

Lemma object_pairs_item (k v tail : pystr) (fuel : nat) :
  wf_str k -> wf_str v ->
  object_pairs (S fuel) (dumps_item (k, v) ++ tail)
  = match skip_ws tail with
    | x :: r5 =>
        if (x =? 125)%N then Some ([(k, v)], r5)
        else if (x =? 44)%N then
          match object_pairs fuel (skip_ws r5) with
          | Some (ps, r6) => Some ((k, v) :: ps, r6)
          | None => None
          end
        else None
    | [] => None
    end.
Proof.
  intros Hk Hv. unfold dumps_item. cbn [fst snd].
  rewrite <- !app_assoc, encoded_app. cbn [object_pairs].
  rewrite expect_hit, scanstring_encoded by assumption.
  rewrite colon_space_app, skip_ws_colon, expect_hit.
  rewrite skip_ws_space, encoded_app, skip_ws_quote, expect_hit.
  now rewrite scanstring_encoded by assumption.
Qed.

Lemma skip_ws_brace (r : pystr) : skip_ws (125%N :: r) = 125%N :: r.
Proof. reflexivity. Qed.

Lemma skip_ws_comma (r : pystr) : skip_ws (44%N :: r) = 44%N :: r.
Proof. reflexivity. Qed.

Lemma skip_ws_open_brace (r : pystr) : skip_ws (123%N :: r) = 123%N :: r.
Proof. reflexivity. Qed.

Lemma skip_ws_bracket (r : pystr) : skip_ws (93%N :: r) = 93%N :: r.
Proof. reflexivity. Qed.

Lemma join_cons2 (sep x y : pystr) (l : list pystr) :
  join sep (x :: y :: l) = x ++ sep ++ join sep (y :: l).
Proof. reflexivity. Qed.

(** The members of a non-empty object start with the quote of a key. *)
Lemma members_head (kv : pystr * pystr) (d : dict) (rest : pystr) :
  exists r, join (lit ", ") (map dumps_item (kv :: d)) ++ rest = 34%N :: r.
Proof.
  destruct d as [|kv' d]; cbn [map].
  - cbn [join]. unfold dumps_item. rewrite <- !app_assoc, encoded_app. eauto.
  - rewrite join_cons2. unfold dumps_item at 1. rewrite <- !app_assoc, encoded_app.
    eauto.
Qed.

Lemma members_length (d : dict) (rest : pystr) :
  List.length d <= List.length (join (lit ", ") (map dumps_item d) ++ rest).
Proof.
  induction d as [|kv d IH]; [apply Nat.le_0_l|].
  destruct d as [|kv' d]; cbn [map] in *.
  - cbn [join]. unfold dumps_item. rewrite <- !app_assoc, encoded_app. simpl. lia.
  - rewrite join_cons2, <- !app_assoc.
    rewrite (length_app (dumps_item kv)), (length_app (lit ", ")).
    change (List.length (lit ", ")) with 2. cbn [List.length] in *. lia.
Qed.

Lemma object_pairs_members (d : dict) :
  forall (kv : pystr * pystr) (fuel : nat) (rest : pystr),
    dict_wf (kv :: d) -> List.length d < fuel ->
    object_pairs fuel (join (lit ", ") (map dumps_item (kv :: d)) ++ 125%N :: rest)
    = Some (kv :: d, rest).
Proof.
  induction d as [|kv' d IH]; intros [k v] fuel rest Hw Hf;
    (destruct fuel as [|fuel]; [lia|]);
    inversion Hw as [|? ? [Hk Hv] Hd]; subst; cbn [fst snd] in *.
  - cbn [map join]. rewrite object_pairs_item, skip_ws_brace by assumption.
    reflexivity.
  - cbn [map]. rewrite join_cons2, <- !app_assoc.
    rewrite object_pairs_item, comma_space_app, skip_ws_comma by assumption.
    change (44 =? 125)%N with false. change (44 =? 44)%N with true. cbv iota.
    rewrite skip_ws_space.
    change (dumps_item kv' :: map dumps_item d) with (map dumps_item (kv' :: d)).
    destruct (members_head kv' d (125%N :: rest)) as [r Hr].
    rewrite Hr, skip_ws_quote, <- Hr.
    rewrite IH; [reflexivity|assumption|simpl in Hf; lia].
Qed.

Lemma dict_of_pairs_acc (d : dict) :
  forall acc, NoDup (keys (acc ++ d)) ->
              fold_left (fun a kv => dict_set a (fst kv) (snd kv)) d acc = acc ++ d.
Proof.
  induction d as [|[k v] d IH]; intros acc Hn; cbn [fold_left fst snd].
  - now rewrite app_nil_r.
  - assert (Hin : dict_in k acc = false).
    { destruct (dict_in k acc) eqn:E; [|reflexivity].
      apply dict_in_keys in E. unfold keys in Hn. rewrite map_app in Hn.
      apply NoDup_remove_2 in Hn. elim Hn. apply in_or_app. now left. }
    rewrite dict_set_new by assumption. rewrite IH.
    + now rewrite <- app_assoc.
    + now rewrite <- app_assoc.
Qed.

Lemma dict_of_pairs_NoDup (d : dict) : NoDup (keys d) -> dict_of_pairs d = d.
Proof. intros H. unfold dict_of_pairs. now rewrite dict_of_pairs_acc. Qed.

Lemma JSONObject_dumps (d : dict) (rest : pystr) :
  dict_wf d -> NoDup (keys d) ->
  JSONObject (join (lit ", ") (map dumps_item d) ++ 125%N :: rest) = Some (d, rest).
Proof.
  intros Hw Hn. destruct d as [|kv d]; [reflexivity|].
  unfold JSONObject.
  pose proof (members_length (kv :: d) (125%N :: rest)) as Hl.
  destruct (members_head kv d (125%N :: rest)) as [r Hr].
  rewrite Hr, skip_ws_quote. change (34 =? 125)%N with false. cbv iota.
  rewrite <- Hr, object_pairs_members; [|assumption|cbn [List.length] in Hl; lia].
  now rewrite dict_of_pairs_NoDup.
Qed.

Lemma dumps_dict_app (d : dict) (rest : pystr) :
  dumps_dict false d ++ rest
  = 123%N :: (join (lit ", ") (map dumps_item d) ++ 125%N :: rest).
Proof.
  unfold dumps_dict. change (lit "{") with [123%N]. change (lit "}") with [125%N].
  cbn [app]. now rewrite <- app_assoc.
Qed.

Lemma loads_dict_dumps (d : dict) :
  dict_wf d -> NoDup (keys d) -> loads_dict (dumps_dict false d) = Some d.
Proof.
  intros Hw Hn. unfold loads_dict.
  rewrite <- (app_nil_r (dumps_dict false d)), dumps_dict_app.
  rewrite skip_ws_open_brace, expect_hit, JSONObject_dumps by assumption.
  reflexivity.
Qed.

Lemma array_values_item (d : dict) (tail : pystr) (fuel : nat) :
  dict_wf d -> NoDup (keys d) ->
  array_values (S fuel) (dumps_dict false d ++ tail)
  = match skip_ws tail with
    | x :: r2 =>
        if (x =? 93)%N then Some ([d], r2)
        else if (x =? 44)%N then
          match array_values fuel (skip_ws r2) with
          | Some (ds, r3) => Some (d :: ds, r3)
          | None => None
          end
        else None
    | [] => None
    end.
Proof.
  intros Hw Hn. rewrite dumps_dict_app. cbn [array_values].
  now rewrite expect_hit, JSONObject_dumps by assumption.
Qed.

Lemma elements_head (d : dict) (l : list dict) (rest : pystr) :
  exists r, join (lit ", ") (map (dumps_dict false) (d :: l)) ++ rest = 123%N :: r.
Proof.
  destruct l as [|d' l]; cbn [map].
  - cbn [join]. rewrite dumps_dict_app. eauto.
  - rewrite join_cons2, <- !app_assoc, dumps_dict_app. eauto.
Qed.

Lemma elements_length (l : list dict) (rest : pystr) :
  List.length l <= List.length (join (lit ", ") (map (dumps_dict false) l) ++ rest).
Proof.
  induction l as [|d l IH]; [apply Nat.le_0_l|].
  destruct l as [|d' l]; cbn [map] in *.
  - cbn [join]. rewrite dumps_dict_app. cbn [List.length]. lia.
  - rewrite join_cons2, <- !app_assoc.
    rewrite (length_app (dumps_dict false d)), (length_app (lit ", ")).
    change (List.length (lit ", ")) with 2. cbn [List.length] in *. lia.
Qed.

Lemma array_values_elements (l : list dict) :
  forall (d : dict) (fuel : nat) (rest : pystr),
    Forall (fun e => dict_wf e /\ NoDup (keys e)) (d :: l) ->
    List.length l < fuel ->
    array_values fuel (join (lit ", ") (map (dumps_dict false) (d :: l)) ++ 93%N :: rest)
    = Some (d :: l, rest).
Proof.
  induction l as [|d' l IH]; intros d fuel rest Hw Hf;
    (destruct fuel as [|fuel]; [lia|]);
    inversion Hw as [|? ? [Hd Hn] Hl]; subst.
  - cbn [map join]. rewrite array_values_item, skip_ws_bracket by assumption.
    reflexivity.
  - cbn [map]. rewrite join_cons2, <- !app_assoc.
    rewrite array_values_item, comma_space_app, skip_ws_comma by assumption.
    change (44 =? 93)%N with false. change (44 =? 44)%N with true. cbv iota.
    rewrite skip_ws_space.
    change (dumps_dict false d' :: map (dumps_dict false) l)
      with (map (dumps_dict false) (d' :: l)).
    destruct (elements_head d' l (93%N :: rest)) as [r Hr].
    rewrite Hr, skip_ws_open_brace, <- Hr.
    rewrite IH; [reflexivity|assumption|simpl in Hf; lia].
Qed.

Lemma JSONArray_dumps (l : list dict) (rest : pystr) :
  Forall (fun e => dict_wf e /\ NoDup (keys e)) l ->
  JSONArray (join (lit ", ") (map (dumps_dict false) l) ++ 93%N :: rest)
  = Some (l, rest).
Proof.
  intros Hw. destruct l as [|d l]; [reflexivity|].
  unfold JSONArray.
  pose proof (elements_length (d :: l) (93%N :: rest)) as Hl.
  destruct (elements_head d l (93%N :: rest)) as [r Hr].
  rewrite Hr, skip_ws_open_brace. change (123 =? 93)%N with false. cbv iota.
  rewrite <- Hr, array_values_elements; [reflexivity|assumption|].
  cbn [List.length] in Hl. lia.
Qed.

Lemma loads_list_dumps (l : list dict) :
  Forall (fun e => dict_wf e /\ NoDup (keys e)) l ->
  loads_list (dumps_list l) = Some l.
Proof.
  intros Hw. unfold loads_list, dumps_list.
  change (lit "[") with [91%N]. change (lit "]") with [93%N]. cbn [app].
  change (skip_ws (91%N :: ?x)) with (91%N :: x).
  now rewrite expect_hit, JSONArray_dumps.
Qed.

Lemma dict_eqb_perm (a b : dict) :
  Permutation a b -> NoDup (keys b) -> dict_eqb a b = true.
Proof.
  intros Hp Hn. unfold dict_eqb. apply andb_true_iff. split.
  - apply Nat.eqb_eq. now apply Permutation_length.
  - apply forallb_forall. intros [k v] Hin. cbn [fst snd].
    rewrite (dict_get_In b k v Hn); [apply str_eqb_refl|].
    now apply (Permutation_in _ Hp).
Qed.

Lemma dict_wf_perm (a b : dict) : Permutation a b -> dict_wf b -> dict_wf a.
Proof.
  unfold dict_wf. intros Hp Hb. rewrite Forall_forall in *.
  intros kv Hin. apply Hb. now apply (Permutation_in _ Hp).
Qed.

(** Decoding the sorted encoding of a mapping gives the mapping back, as
    Python compares dicts. *)
Lemma loads_dict_sorted (m : dict) :
  dict_wf m -> NoDup (keys m) ->
  exists d, loads_dict (dumps_dict true m) = Some d
            /\ dict_eqb d m = true /\ Permutation d m.
Proof.
  intros Hw Hn. exists (sorted (@fst pystr pystr) m).
  assert (Hp : Permutation (sorted (@fst pystr pystr) m) m) by apply sorted_perm.
  split; [|split; [now apply dict_eqb_perm|exact Hp]].
  change (dumps_dict true m) with (dumps_dict false (sorted (@fst pystr pystr) m)).
  apply loads_dict_dumps.
  - now apply (dict_wf_perm _ m).
  - unfold keys. apply (Permutation_NoDup (l := map fst m)); [|exact Hn].
    apply Permutation_map. now symmetry.
Qed.

(** ** Loaded tables hold decoded text *)

Lemma lstrip_wf (s : pystr) : wf_str s -> wf_str (lstrip s).
Proof.
  induction 1 as [|c s Hc Hs IH]; [constructor|].
  simpl. destruct (isspace c); [assumption|now constructor].
Qed.

Lemma strip_wf (s : pystr) : wf_str s -> wf_str (strip s).
Proof.
  intros H. unfold strip, rstrip, wf_str in *.
  apply Forall_rev. apply lstrip_wf. apply Forall_rev. now apply lstrip_wf.
Qed.

Lemma zip_row_wf (cols : list string) :
  forall rec, Forall wf_str rec -> row_wf (zip_row cols rec).
Proof.
  induction cols as [|c cols IH]; intros rec Hr name v; [discriminate|].
  destruct rec as [|x rec]; cbn [zip_row item].
  - destruct (String.eqb c name); [discriminate|]. apply (IH [] Hr).
  - inversion Hr; subst. destruct (String.eqb c name).
    + now intros [= <-].
    + now apply IH.
Qed.

Lemma DictReader_wf (cols : list string) (file : list (list pystr)) :
  wf_file file -> Forall row_wf (DictReader cols file).
Proof.
  unfold wf_file, DictReader. intros H. apply Forall_map.
  apply Forall_forall. intros rec Hin. apply zip_row_wf.
  apply filter_In in Hin as [Hin _]. rewrite Forall_forall in H. now apply H.
Qed.

Lemma dict_wf_set (d : dict) (k v : pystr) :
  dict_wf d -> wf_str k -> wf_str v -> dict_wf (dict_set d k v).
Proof.
  unfold dict_wf. intros Hd Hk Hv. induction Hd as [|[k' v'] d [Hk' Hv'] Hd IH]; simpl.
  - repeat constructor; assumption.
  - destruct (str_eqb k' k); constructor; try assumption; now split.
Qed.

Lemma smech_row_wf (i : nat) (out o : dict) (r : row) :
  row_wf r -> dict_wf out -> outcome (smech_row i out r) = Ok o -> dict_wf o.
Proof.
  intros Hr Hout. rewrite smech_row_cases.
  destruct (item r "smech_code") as [s|] eqn:Es; [|discriminate].
  destruct (item r "bcc_code") as [t|] eqn:Et; [|discriminate].
  apply Hr in Es, Et. apply strip_wf in Es, Et.
  destruct (str_eqb (strip t) []); [now intros [= <-]|].
  destruct (negb (rx_match RX_DIGITS (strip s))); [discriminate|].
  destruct (negb (rx_match RX_DIGITS (strip t))); [discriminate|].
  destruct (dict_get out (strip s)) as [v'|].
  - destruct (str_eqb v' (strip t)); [|discriminate].
    intros [= <-]. now apply dict_wf_set.
  - intros [= <-]. now apply dict_wf_set.
Qed.

Lemma smech_rows_wf (rows : list row) :
  forall i out m,
    Forall row_wf rows -> dict_wf out ->
    outcome (smech_rows i out rows) = Ok m -> dict_wf m.
Proof.
  induction rows as [|r rows IH]; intros i out m Hr Hout H; simpl in H.
  - now injection H as <-.
  - rewrite outcome_bind in H. inversion Hr; subst.
    destruct (outcome (smech_row i out r)) as [o|e] eqn:E; [|discriminate].
    eapply IH; [assumption| |exact H]. eapply smech_row_wf; eassumption.
Qed.

Lemma load_smech_wf (file : list (list pystr)) (m : dict) :
  wf_file file -> outcome (load_smech_to_bcc file) = Ok m ->
  dict_wf m /\ NoDup (keys m).
Proof.
  intros Hf. unfold load_smech_to_bcc.
  pose proof (DictReader_wf SMECH_SECTORS_COLUMNS file Hf) as Hr.
  destruct (DictReader SMECH_SECTORS_COLUMNS file) as [|h rows]; [discriminate|].
  inversion Hr; subst. intros H. split.
  - eapply smech_rows_wf; [eassumption|constructor|exact H].
  - eapply smech_rows_NoDup; [exact H|constructor].
Qed.

Lemma bcc_row_wf (lower : pystr -> pystr) (i : nat) (out o : dict) (r : row) :
  row_wf r -> dict_wf out -> outcome (bcc_row lower i out r) = Ok o -> dict_wf o.
Proof.
  intros Hr Hout. rewrite bcc_row_cases.
  destruct (item r "nace_code") as [c|] eqn:Ec; [|discriminate].
  destruct (item r "bcc_name") as [n|] eqn:En; [|discriminate].
  destruct (item r "use_for_bcc") as [f|]; [|discriminate].
  apply Hr in Ec, En. apply strip_wf in Ec, En.
  destruct (negb (in_yes (lower (strip f)))); [now intros [= <-]|].
  destruct (negb (rx_match RX_DIGITS (strip c))); [discriminate|].
  destruct (rx_match RX_DIGITS (strip n)); [discriminate|].
  destruct (dict_in (strip c) out); [discriminate|].
  intros [= <-]. now apply dict_wf_set.
Qed.

Lemma bcc_rows_wf (lower : pystr -> pystr) (rows : list row) :
  forall i out m,
    Forall row_wf rows -> dict_wf out ->
    outcome (bcc_rows lower i out rows) = Ok m -> dict_wf m.
Proof.
  induction rows as [|r rows IH]; intros i out m Hr Hout H; simpl in H.
  - now injection H as <-.
  - rewrite outcome_bind in H. inversion Hr; subst.
    destruct (outcome (bcc_row lower i out r)) as [o|e] eqn:E; [|discriminate].
    eapply IH; [assumption| |exact H]. eapply bcc_row_wf; eassumption.
Qed.

Lemma load_bcc_wf (lower : pystr -> pystr) (file : list (list pystr)) (t : dict) :
  wf_file file -> outcome (load_bcc_sectors lower file) = Ok t ->
  dict_wf t /\ NoDup (keys t).
Proof.
  intros Hf H. split; [|now apply load_bcc_sectors_ok in H as [Hn _]].
  unfold load_bcc_sectors in H.
  pose proof (DictReader_wf BCC_SECTORS_COLUMNS file Hf) as Hr.
  destruct (DictReader BCC_SECTORS_COLUMNS file) as [|h rows]; [discriminate|].
  inversion Hr; subst.
  eapply bcc_rows_wf; [eassumption|constructor|exact H].
Qed.

Lemma entry_of_wf (kv : pystr * pystr) :
  wf_str (fst kv) /\ wf_str (snd kv) ->
  dict_wf (entry_of kv) /\ NoDup (keys (entry_of kv)).
Proof.
  intros [Hk Hv]. split.
  - unfold entry_of, dict_wf. repeat constructor; assumption.
  - unfold entry_of, keys. cbn [map fst]. repeat constructor; simpl; [|tauto].
    intros [E|[]]. discriminate.
Qed.

Lemma sector_list_wf (t : dict) :
  dict_wf t ->
  Forall (fun e => dict_wf e /\ NoDup (keys e)) (sector_list_of t).
Proof.
  intros Ht. unfold sector_list_of. apply Forall_forall. intros e He.
  apply (Permutation_in _ (sorted_perm _ entry_name (map entry_of t))) in He.
  apply in_map_iff in He as (kv & <- & Hin).
  apply entry_of_wf. unfold dict_wf in Ht. rewrite Forall_forall in Ht.
  now apply Ht.
Qed.

Lemma not_listed_wf : dict_wf not_listed /\ NoDup (keys not_listed).
Proof.
  split.
  - unfold not_listed, dict_wf. repeat constructor.
  - unfold not_listed, keys. cbn [map fst]. repeat constructor; simpl; [|tauto].
    intros [E|[]]. discriminate.
Qed.

(** C8: for tables loaded from decoded text, the payloads interpolated
    into the two modules decode back to what they encode.  The benchmark
    module holds the encoded sector list, which decodes to the sector list
    itself, and the encoded mapping, which decodes to a dict equal to the
    mapping; the sector module holds the encoded sector list with the
    entry for Not listed, which decodes to a list whose last entry is
    that one and whose other entries are the sector list. *)
Theorem json_payloads_round_trip :
  forall (lower : pystr -> pystr) (f1 f2 : list (list pystr)) (ts : pystr)
         (m t : dict),
    wf_file f1 -> wf_file f2 ->
    outcome (load_smech_to_bcc f1) = Ok m ->
    outcome (load_bcc_sectors lower f2) = Ok t ->
    (exists pre mid post,
        benchmark_code_of (sector_list_of t) m ts
        = pre ++ dumps_list (sector_list_of t) ++ mid ++ dumps_dict true m ++ post)
    /\ loads_list (dumps_list (sector_list_of t)) = Some (sector_list_of t)
    /\ (exists d, loads_dict (dumps_dict true m) = Some d /\ dict_eqb d m = true
                  /\ Permutation d m)
    /\ (exists pre post,
           bcc_sectors_code_of (sector_list_of t) ts
           = pre ++ dumps_list (sector_list_of t ++ [not_listed]) ++ post)
    /\ (exists l, loads_list (dumps_list (sector_list_of t ++ [not_listed])) = Some l
                  /\ removelast l = sector_list_of t
                  /\ last l [] = not_listed).
Proof.
  intros lower f1 f2 ts m t Hf1 Hf2 H1 H2.
  destruct (load_smech_wf f1 m Hf1 H1) as [Hwm Hnm].
  destruct (load_bcc_wf lower f2 t Hf2 H2) as [Hwt Hnt].
  pose proof (sector_list_wf t Hwt) as Hsl.
  split; [|split; [|split; [|split]]].
  - destruct (benchmark_code_frame ts) as (pre & mid & post & H).
    exists pre, mid, post. apply H.
  - now apply loads_list_dumps.
  - now apply loads_dict_sorted.
  - destruct (bcc_sectors_code_frame ts) as (pre & post & H).
    exists pre, post. apply H.
  - exists (sector_list_of t ++ [not_listed]). split; [|split].
    + apply loads_list_dumps. apply Forall_app. split; [assumption|].
      constructor; [exact not_listed_wf|constructor].
    + apply removelast_last.
    + apply last_last.
Qed.

Lemma json_payloads_round_trip_witness :
  loads_list (dumps_list (sector_list_of
                            [(lit "12", [67; 97; 102; 233; 32; 9749; 128512]%N);
                             (lit "13", lit "Bakery")]))
  = Some [[(lit "name", lit "Bakery"); (lit "nace", lit "13")];
          [(lit "name", [67; 97; 102; 233; 32; 9749; 128512]%N); (lit "nace", lit "12")]].
Proof.
  refine (proj1 (proj2 (json_payloads_round_trip ascii_lower
            [map lit ["smech_name"; "smech_code"; "nace_name"; "exio2"; "exio3"; "bcc"];
             map lit ["Widgets"; "5"; "Widget Mfg"; "E1"; "E2"; "12"]]%string
            [map lit ["nace"; "i1"; "i2"; "exio3"; "name"; "notes"; "use"; "bcc_name"]%string;
             [lit "12"; lit "_"; lit "_"; lit "Cafes"; lit "Cafes"; lit ""; lit "x";
              [67; 97; 102; 233; 32; 9749; 128512]%N];
             map lit ["13"; "_"; "_"; "Bakers"; "Bakery"; ""; "yes"; "Bakery"]%string]
            (lit "2022-06-01T12:00:00")
            [(lit "5", lit "12")]
            [(lit "12", [67; 97; 102; 233; 32; 9749; 128512]%N); (lit "13", lit "Bakery")]
            _ _ _ _))).
  - repeat constructor.
  - repeat constructor.
  - reflexivity.
  - reflexivity.
Defined.

(** ** The sector list in the two modules *)

Lemma dumps_dict_entry (kv : pystr * pystr) :
  dumps_dict false (entry_of kv) = entry_text (entry_of kv).
Proof.
  destruct kv as [k v]. unfold dumps_dict, entry_text, entry_of, dumps_item.
  cbn [map join fst snd].
  change (entry_name [(lit "name", v); (lit "nace", k)]) with v.
  change (entry_nace [(lit "name", v); (lit "nace", k)]) with k.
  now rewrite <- !app_assoc.
Qed.

Lemma dumps_list_entries (l : list dict) :
  Forall (fun e => exists kv, e = entry_of kv) l ->
  dumps_list l = array_text l.
Proof.
  intros H. unfold dumps_list, array_text. do 3 f_equal.
  induction H as [|e l [kv ->] _ IH]; [reflexivity|].
  cbn [map]. now rewrite dumps_dict_entry, IH.
Qed.

Lemma sector_list_entries (t : dict) :
  Forall (fun e => exists kv, e = entry_of kv) (sector_list_of t).
Proof.
  apply Forall_forall. intros e He. unfold sector_list_of in He.
  apply (Permutation_in _ (sorted_perm _ entry_name (map entry_of t))) in He.
  apply in_map_iff in He as (kv & <- & _). now exists kv.
Qed.

Lemma with_not_listed_entries (t : dict) :
  Forall (fun e => exists kv, e = entry_of kv) (sector_list_of t ++ [not_listed]).
Proof.
  apply Forall_app. split; [apply sector_list_entries|].
  constructor; [|constructor]. now exists ([], lit "Not listed").
Qed.

Lemma text_ends_with (s suffix : pystr) :
  skipn (List.length s - List.length suffix) s = suffix ->
  s = firstn (List.length s - List.length suffix) s ++ suffix.
Proof. intros H. rewrite <- H at 2. symmetry. apply firstn_skipn. Qed.

(** The benchmark module: the sector list is the value of SECTOR_LIST. *)
Lemma benchmark_code_sector_list (ts : pystr) :
  exists pre mid post,
    forall (sector_list : list dict) (smech_to_bcc : dict),
      benchmark_code_of sector_list smech_to_bcc ts
      = pre ++ lit "export const SECTOR_LIST: NaceInfo[] = "
        ++ dumps_list sector_list ++ mid ++ dumps_dict true smech_to_bcc ++ post.
Proof.
  unfold benchmark_code_of, BENCHMARK_OUT_TEMPLATE.
  match goal with
  | |- context [ [Text ?a; _; Text ?b; _; Text ?c; _; Text ?d] ] =>
      exists (lit a ++ ts
              ++ firstn (List.length (lit b)
                         - List.length (lit "export const SECTOR_LIST: NaceInfo[] = "))
                        (lit b)),
        (lit c), (lit d);
      pose proof (text_ends_with (lit b)
                    (lit "export const SECTOR_LIST: NaceInfo[] = ")
                    ltac:(vm_compute; reflexivity)) as Eb
  end.
  intros sector_list smech_to_bcc.
  rewrite substitute_text, (substitute_placeholder _ ts) by reflexivity.
  rewrite substitute_text, (substitute_placeholder _ (dumps_list sector_list))
    by reflexivity.
  rewrite substitute_text, (substitute_placeholder _ (dumps_dict true smech_to_bcc))
    by reflexivity.
  rewrite substitute_text. cbn [substitute].
  rewrite Eb at 1. now rewrite app_nil_r, <- !app_assoc.
Qed.

(** The sector module: the sector list with the entry for Not listed is
    the value of SECTORS. *)
Lemma bcc_sectors_code_sectors (ts : pystr) :
  exists pre post,
    forall (sector_list : list dict),
      bcc_sectors_code_of sector_list ts
      = pre ++ lit "export const SECTORS: Sector[] = "
        ++ dumps_list (sector_list ++ [not_listed]) ++ post.
Proof.
  unfold bcc_sectors_code_of, BCC_SECTORS_OUT_TEMPLATE.
  match goal with
  | |- context [ [Text ?a; _; Text ?b; _; Text ?c] ] =>
      exists (lit a ++ ts
              ++ firstn (List.length (lit b)
                         - List.length (lit "export const SECTORS: Sector[] = "))
                        (lit b)),
        (lit c);
      pose proof (text_ends_with (lit b)
                    (lit "export const SECTORS: Sector[] = ")
                    ltac:(vm_compute; reflexivity)) as Eb
  end.
  intros sector_list.
  rewrite substitute_text, (substitute_placeholder _ ts) by reflexivity.
  rewrite substitute_text,
    (substitute_placeholder _ (dumps_list (sector_list ++ [not_listed])))
    by reflexivity.
  rewrite substitute_text. cbn [substitute].
  rewrite Eb at 1. now rewrite app_nil_r, <- !app_assoc.
Qed.

(** C2: the sector list is the entries of the sector mapping, one per
    pair, each with the display name of the pair as its name and the code
    as its nace, in ascending order of name (code point by code point),
    entries of equal name in the order of the mapping.  Its encoding is the JSON
    array of the objects with the members name and nace, and the encoding
    of the sector list with the one entry for Not listed (and the empty
    code) after it is the array of these objects and that one; for a
    mapping of decoded text both decode to exactly these lists.  The
    benchmark module has the first array as the value of SECTOR_LIST, the
    sector module has the second as the value of SECTORS, whatever the
    mapping.  A run without the formatter writes these two renderings,
    the benchmark module first: what it wrote is nothing, the benchmark
    module alone, or both, and both if it returned normally. *)
Theorem sector_list_sorted_by_name :
  (forall (t : dict),
      Permutation (sector_list_of t) (map entry_of t)
      /\ (forall e, In e (sector_list_of t)
                    <-> exists k v, In (k, v) t
                                    /\ e = [(lit "name", v); (lit "nace", k)])
      /\ StronglySorted name_le (sector_list_of t)
      /\ (forall n, filter (fun e => str_eqb (entry_name e) n) (sector_list_of t)
                    = filter (fun e => str_eqb (entry_name e) n) (map entry_of t))
      /\ dumps_list (sector_list_of t) = array_text (sector_list_of t)
      /\ dumps_list (sector_list_of t ++ [not_listed])
         = array_text (sector_list_of t
                       ++ [[(lit "name", lit "Not listed"); (lit "nace", lit "")]])
      /\ (dict_wf t ->
          loads_list (dumps_list (sector_list_of t)) = Some (sector_list_of t)
          /\ loads_list (dumps_list (sector_list_of t ++ [not_listed]))
             = Some (sector_list_of t
                     ++ [[(lit "name", lit "Not listed"); (lit "nace", lit "")]])))
  /\ (forall ts, exists pre mid post, forall (t m : dict),
         benchmark_code_of (sector_list_of t) m ts
         = pre ++ lit "export const SECTOR_LIST: NaceInfo[] = "
           ++ array_text (sector_list_of t) ++ mid ++ dumps_dict true m ++ post)
  /\ (forall ts, exists pre post, forall (t : dict),
         bcc_sectors_code_of (sector_list_of t) ts
         = pre ++ lit "export const SECTORS: Sector[] = "
           ++ array_text (sector_list_of t
                          ++ [[(lit "name", lit "Not listed"); (lit "nace", lit "")]])
           ++ post)
  /\ (forall (lower : pystr -> pystr)
             (run : list pystr -> pystr -> result CompletedProcess)
             (fs : Filesystem) args f1 f2 ts m t,
         is_true (prettier args) = false ->
         outcome (load_smech_to_bcc f1) = Ok m ->
         outcome (load_bcc_sectors lower f2) = Ok t ->
         (forall k v, In (k, v) m -> dict_in v t = true) ->
         (exists n,
             written (trace (main lower run fs args f1 f2 ts))
             = firstn n
                 [(output_benchmark_path args,
                   benchmark_code_of (sector_list_of t) m ts);
                  (output_bcc_sectors_path args,
                   bcc_sectors_code_of (sector_list_of t) ts)])
         /\ (outcome (main lower run fs args f1 f2 ts) = Ok tt ->
             written (trace (main lower run fs args f1 f2 ts))
             = [(output_benchmark_path args,
                 benchmark_code_of (sector_list_of t) m ts);
                (output_bcc_sectors_path args,
                 bcc_sectors_code_of (sector_list_of t) ts)])).
Proof.
  split; [|split; [|split]].
  - intros t. split; [|split; [|split; [|split; [|split; [|split]]]]].
    + apply sorted_perm.
    + intros e. unfold sector_list_of. split.
      * intros He.
        apply (Permutation_in _ (sorted_perm _ entry_name (map entry_of t))) in He.
        apply in_map_iff in He as ([k v] & <- & Hin). now exists k, v.
      * intros (k & v & Hin & ->).
        apply (Permutation_in _ (Permutation_sym
                                   (sorted_perm _ entry_name (map entry_of t)))).
        apply in_map_iff. now exists (k, v).
    + exact (sorted_is_sorted _ entry_name (map entry_of t)).
    + intros n. apply sorted_stable.
    + apply dumps_list_entries, sector_list_entries.
    + apply (dumps_list_entries _ (with_not_listed_entries t)).
    + intros Hw. pose proof (sector_list_wf t Hw) as Hsl. split.
      * now apply loads_list_dumps.
      * apply (loads_list_dumps (sector_list_of t ++ [not_listed])).
        apply Forall_app. split; [assumption|].
        constructor; [exact not_listed_wf|constructor].
  - intros ts. destruct (benchmark_code_sector_list ts) as (pre & mid & post & H).
    exists pre, mid, post. intros t m.
    rewrite <- (dumps_list_entries _ (sector_list_entries t)). apply H.
  - intros ts. destruct (bcc_sectors_code_sectors ts) as (pre & post & H).
    exists pre, post. intros t.
    rewrite H, (dumps_list_entries _ (with_not_listed_entries t)). reflexivity.
  - intros lower run fs args f1 f2 ts m t Hp H1 H2 Hall.
    destruct (main_unformatted lower run fs args f1 f2 ts m t Hp H1 H2 Hall)
      as [Ho He].
    rewrite <- written_effects, He, Ho. split.
    + apply written_write_out.
    + intros Hok. now rewrite (write_out_ok _ _ _ _ Hok), written_app, written_makedirs.
Qed.

Lemma sector_list_sorted_by_name_witness :
  written (trace (main ascii_lower echo disk_ok no_options
             [map lit ["smech_name"; "smech_code"; "nace_name"; "exio2"; "exio3"; "bcc"];
              map lit ["Widgets"; "5"; "Widget Mfg"; "E1"; "E2"; "12"]]%string
             [map lit ["nace"; "i1"; "i2"; "exio3"; "name"; "notes"; "use"; "bcc_name"];
              map lit ["12"; "_"; "_"; "Widget Mfg"; "Widgets"; ""; "x"; "Widgets"];
              map lit ["13"; "_"; "_"; "Gadget Mfg"; "Gadgets"; ""; "y"; "Gadgets"]]%string
             (lit "2022-06-01T12:00:00")))
  = [(output_benchmark_path no_options,
      benchmark_code_of
        [[(lit "name", lit "Gadgets"); (lit "nace", lit "13")];
         [(lit "name", lit "Widgets"); (lit "nace", lit "12")]]
        [(lit "5", lit "12")] (lit "2022-06-01T12:00:00"));
     (output_bcc_sectors_path no_options,
      bcc_sectors_code_of
        [[(lit "name", lit "Gadgets"); (lit "nace", lit "13")];
         [(lit "name", lit "Widgets"); (lit "nace", lit "12")]]
        (lit "2022-06-01T12:00:00"))]
  /\ loads_list (dumps_list (sector_list_of
                               [(lit "12", lit "Widgets"); (lit "13", lit "Gadgets")]))
     = Some [[(lit "name", lit "Gadgets"); (lit "nace", lit "13")];
             [(lit "name", lit "Widgets"); (lit "nace", lit "12")]].
Proof.
  split.
  - refine (proj2 (proj2 (proj2 (proj2 sector_list_sorted_by_name))
              ascii_lower echo disk_ok no_options _ _ (lit "2022-06-01T12:00:00")
              [(lit "5", lit "12")]
              [(lit "12", lit "Widgets"); (lit "13", lit "Gadgets")] _ _ _ _) _).
    + reflexivity.
    + reflexivity.
    + reflexivity.
    + intros k v [E|[]]. injection E as <- <-. reflexivity.
    + vm_compute. reflexivity.
  - refine (proj1 (proj2 (proj2 (proj2 (proj2 (proj2 (proj2
              (proj1 sector_list_sorted_by_name
                 [(lit "12", lit "Widgets"); (lit "13", lit "Gadgets")])))))) _)).
    repeat constructor.
Defined.

(** * Further properties of the program *)

(** ** The two validators *)

(** X1: [expect_just_digits] returns without raising exactly when the
    value is one or more ASCII digits, optionally followed by one final
    line feed; on every other value (the empty string included) it raises
    the error that carries the field name, the value and the row number.
    It never prints. *)
Theorem expect_just_digits_exact :
  forall (v : pystr) (f : string) (n : nat),
    (expect_just_digits v f n = ret tt
     <-> exists d, d <> [] /\ all_digits d = true /\ (v = d \/ v = d ++ [10%N]))
    /\ (expect_just_digits v f n = ret tt
        \/ expect_just_digits v f n = raise (digits_error f v n)).
Proof.
  intros v f n. rewrite <- rx_digits_spec. unfold expect_just_digits, digits_error.
  destruct (rx_match RX_DIGITS v); simpl; split; try tauto.
  split; discriminate.
Qed.

(** X2: the two validators are complementary.  On every value exactly one
    of them raises: [expect_non_digits] raises where [expect_just_digits]
    passes, and passes where it raises; so the empty string passes
    [expect_non_digits]. *)
Theorem validators_complementary :
  forall (v : pystr) (f g : string) (n : nat),
    (expect_just_digits v f n = ret tt
     /\ expect_non_digits v g n = raise (non_digits_error g v n))
    \/ (expect_just_digits v f n = raise (digits_error f v n)
        /\ expect_non_digits v g n = ret tt).
Proof.
  intros v f g n. unfold expect_just_digits, expect_non_digits.
  destruct (rx_match RX_DIGITS v); [left|right]; split; reflexivity.
Qed.

(** ** Trimmed values *)

Lemma lstrip_head (s r : pystr) (c : N) : lstrip s = c :: r -> isspace c = false.
Proof.
  induction s as [|x s IH]; simpl; [discriminate|].
  destruct (isspace x) eqn:E; [exact IH|]. now intros [= <- <-].
Qed.

Lemma strip_last (s x : pystr) (c : N) : strip s = x ++ [c] -> isspace c = false.
Proof.
  unfold strip, rstrip. intros H.
  apply (f_equal (@rev N)) in H. rewrite rev_involutive, rev_app_distr in H.
  simpl in H. now apply lstrip_head in H.
Qed.

Lemma rx_digits_strip (s : pystr) :
  rx_match RX_DIGITS (strip s) = true <-> digit_string (strip s).
Proof.
  rewrite rx_digits_spec. unfold digit_string. split.
  - intros (d & Hd & Ha & [E|E]); [now rewrite E|].
    apply strip_last in E. discriminate.
  - intros [Hn Ha]. exists (strip s). auto.
Qed.

(** X3: on a trimmed value, as the loaders pass it, the digits check is
    exact: it passes if and only if the trimmed value is a non-empty
    string of ASCII digits. *)
Theorem expect_just_digits_on_trimmed :
  forall (s : pystr) (f : string) (n : nat),
    expect_just_digits (strip s) f n = ret tt <-> digit_string (strip s).
Proof.
  intros s f n. rewrite <- rx_digits_strip. unfold expect_just_digits.
  destruct (rx_match RX_DIGITS (strip s)); simpl; split; try tauto; discriminate.
Qed.

(** ** The reader: header, blank records, short and long records *)

Lemma DictReader_blank (cols : list string) (file : list (list pystr)) :
  Forall (fun rec => rec = []) file -> DictReader cols file = [].
Proof.
  induction 1 as [|rec file Hr _ IH]; [reflexivity|]. subst rec. exact IH.
Qed.

(** X4: a file without any non-blank record makes either loader raise
    [StopIteration] (there is no header row to discard), and a file that
    holds only a header row loads to the empty mapping; nothing is printed
    in either case. *)
Theorem loaders_on_files_without_data :
  forall (lower : pystr -> pystr) (file : list (list pystr)) (hdr : list pystr),
    (Forall (fun rec => rec = []) file ->
     load_smech_to_bcc file = ([], Raise StopIteration)
     /\ load_bcc_sectors lower file = ([], Raise StopIteration))
    /\ (hdr <> [] ->
        load_smech_to_bcc [hdr] = ([], Ok [])
        /\ load_bcc_sectors lower [hdr] = ([], Ok [])).
Proof.
  intros lower file hdr. split.
  - intros H. unfold load_smech_to_bcc, load_bcc_sectors.
    now rewrite !DictReader_blank.
  - intros H. unfold load_smech_to_bcc, load_bcc_sectors.
    now rewrite !DictReader_cons.
Qed.

Lemma loaders_on_files_without_data_witness :
  load_smech_to_bcc [[]; []] = ([], Raise StopIteration)
  /\ load_bcc_sectors ascii_lower [map lit ["nace"; "i1"]%string] = ([], Ok []).
Proof.
  split.
  - refine (proj1 (proj1 (loaders_on_files_without_data ascii_lower [[]; []] []) _)).
    repeat constructor.
  - refine (proj2 (proj2 (loaders_on_files_without_data ascii_lower []
                            (map lit ["nace"; "i1"]%string)) _)).
    discriminate.
Defined.

(** X5: blank records are passed over wherever they stand, and they do
    not count as rows: a file loads to the same result, with the same
    printed lines and the same row numbers in its errors, as the file
    without its blank records. *)
Theorem blank_records_are_not_rows :
  forall (lower : pystr -> pystr) (file : list (list pystr)),
    load_smech_to_bcc file
    = load_smech_to_bcc (filter (fun rec => negb (is_blank rec)) file)
    /\ load_bcc_sectors lower file
       = load_bcc_sectors lower (filter (fun rec => negb (is_blank rec)) file).
Proof.
  intros lower file.
  assert (E : forall cols,
             DictReader cols (filter (fun rec => negb (is_blank rec)) file)
             = DictReader cols file).
  { intros cols. unfold DictReader. f_equal.
    induction file as [|rec file IH]; [reflexivity|].
    simpl. destruct (negb (is_blank rec)) eqn:Er; simpl; rewrite ?Er, IH; reflexivity. }
  unfold load_smech_to_bcc, load_bcc_sectors. now rewrite !E.
Qed.

(** X6: the first non-blank record is discarded unread: two files that
    differ only in their header row load to the same result. *)
Theorem header_row_is_discarded :
  forall (lower : pystr -> pystr) (hdr hdr' : list pystr) (recs : list (list pystr)),
    hdr <> [] -> hdr' <> [] ->
    load_smech_to_bcc (hdr :: recs) = load_smech_to_bcc (hdr' :: recs)
    /\ load_bcc_sectors lower (hdr :: recs) = load_bcc_sectors lower (hdr' :: recs).
Proof.
  intros lower hdr hdr' recs H H'. unfold load_smech_to_bcc, load_bcc_sectors.
  now rewrite !DictReader_cons.
Qed.

Lemma header_row_is_discarded_witness :
  load_smech_to_bcc [map lit ["5"; "6"]%string;
                     map lit ["Widgets"; "5"; "Widget Mfg"; "E1"; "E2"; "12"]%string]
  = load_smech_to_bcc [map lit ["smech_name"; "smech_code"]%string;
                       map lit ["Widgets"; "5"; "Widget Mfg"; "E1"; "E2"; "12"]%string].
Proof.
  refine (proj1 (header_row_is_discarded ascii_lower _ _ _ _ _)); discriminate.
Defined.

Lemma zip_row_firstn (cols : list string) :
  forall rec, zip_row cols (firstn (List.length cols) rec) = zip_row cols rec.
Proof.
  induction cols as [|c cols IH]; intros rec; [reflexivity|].
  destruct rec as [|x rec]; [reflexivity|]. simpl. now rewrite IH.
Qed.

Lemma DictReader_firstn (cols : list string) (file : list (list pystr)) :
  cols <> [] ->
  DictReader cols (map (firstn (List.length cols)) file) = DictReader cols file.
Proof.
  intros Hc. unfold DictReader. induction file as [|rec file IH]; [reflexivity|].
  cbn [map filter].
  assert (E : is_blank (firstn (List.length cols) rec) = is_blank rec).
  { destruct cols; [congruence|]. now destruct rec. }
  rewrite E. destruct (negb (is_blank rec)); [|exact IH].
  cbn [map]. now rewrite zip_row_firstn, IH.
Qed.

(** X7: cells beyond the named columns are ignored: cutting every record
    of the SMECH file to its first six cells, or every record of the
    sector file to its first eight, does not change the result of the
    load. *)
Theorem extra_columns_are_ignored :
  forall (lower : pystr -> pystr) (file : list (list pystr)),
    load_smech_to_bcc (map (firstn 6) file) = load_smech_to_bcc file
    /\ load_bcc_sectors lower (map (firstn 8) file) = load_bcc_sectors lower file.
Proof.
  intros lower file. unfold load_smech_to_bcc, load_bcc_sectors.
  rewrite (DictReader_firstn SMECH_SECTORS_COLUMNS) by discriminate.
  rewrite (DictReader_firstn BCC_SECTORS_COLUMNS) by discriminate.
  split; reflexivity.
Qed.

(** ** Records that are too short *)

Lemma load_smech_at_row (hdr : list pystr) (pre : list (list pystr)) (rec : list pystr)
      (rest : list (list pystr)) (out : dict) :
  hdr <> [] -> rec <> [] ->
  outcome (load_smech_to_bcc (hdr :: pre)) = Ok out ->
  outcome (load_smech_to_bcc (hdr :: pre ++ rec :: rest))
  = match outcome (smech_row (2 + List.length (DictReader SMECH_SECTORS_COLUMNS pre)) out
                     (zip_row SMECH_SECTORS_COLUMNS rec)) with
    | Ok o => outcome (smech_rows
                         (S (2 + List.length (DictReader SMECH_SECTORS_COLUMNS pre))) o
                         (DictReader SMECH_SECTORS_COLUMNS rest))
    | Raise e => Raise e
    end.
Proof.
  intros Hh Hr H. unfold load_smech_to_bcc in *.
  rewrite DictReader_cons in * by assumption.
  rewrite DictReader_app, DictReader_cons by assumption.
  rewrite smech_rows_app, outcome_bind, H. cbn [smech_rows].
  now rewrite outcome_bind.
Qed.

Lemma load_bcc_at_row (lower : pystr -> pystr) (hdr : list pystr)
      (pre : list (list pystr)) (rec : list pystr) (rest : list (list pystr))
      (out : dict) :
  hdr <> [] -> rec <> [] ->
  outcome (load_bcc_sectors lower (hdr :: pre)) = Ok out ->
  outcome (load_bcc_sectors lower (hdr :: pre ++ rec :: rest))
  = match outcome (bcc_row lower (2 + List.length (DictReader BCC_SECTORS_COLUMNS pre)) out
                     (zip_row BCC_SECTORS_COLUMNS rec)) with
    | Ok o => outcome (bcc_rows lower
                         (S (2 + List.length (DictReader BCC_SECTORS_COLUMNS pre))) o
                         (DictReader BCC_SECTORS_COLUMNS rest))
    | Raise e => Raise e
    end.
Proof.
  intros Hh Hr H. unfold load_bcc_sectors in *.
  rewrite DictReader_cons in * by assumption.
  rewrite DictReader_app, DictReader_cons by assumption.
  rewrite bcc_rows_app, outcome_bind, H. cbn [bcc_rows].
  now rewrite outcome_bind.
Qed.

(** X8: a non-blank record of the SMECH file with fewer than six cells
    ends the load with [AttributeError] (the missing cell is [None], which
    has no [strip]), once the load has come to it; the validators and the
    duplicate check are not reached. *)
Theorem smech_short_record_raises :
  forall (hdr : list pystr) (pre : list (list pystr)) (rec : list pystr)
         (post : list (list pystr)) (out : dict),
    hdr <> [] -> rec <> [] -> List.length rec < 6 ->
    outcome (load_smech_to_bcc (hdr :: pre)) = Ok out ->
    outcome (load_smech_to_bcc (hdr :: pre ++ rec :: post)) = Raise AttributeError.
Proof.
  intros hdr pre rec post out Hh Hr Hl H.
  rewrite (load_smech_at_row hdr pre rec post out Hh Hr H), smech_row_cases.
  destruct (item_smech rec) as (_ & -> & ->).
  rewrite (proj2 (nth_error_None rec 5)) by lia.
  now destruct (nth_error rec 1).
Qed.

Lemma smech_short_record_raises_witness :
  outcome (load_smech_to_bcc
             [map lit ["smech_name"; "smech_code"; "nace_name"; "exio2"; "exio3"; "bcc"];
              map lit ["Widgets"; "5"; "Widget Mfg"; "E1"; "E2"; "12"];
              map lit ["Gadgets"; "6"; "Gadget Mfg"];
              map lit ["Gizmos"; "7"; "Gizmo Mfg"; "E1"; "E2"; "13"]]%string)
  = Raise AttributeError.
Proof.
  refine (smech_short_record_raises
            (map lit ["smech_name"; "smech_code"; "nace_name"; "exio2"; "exio3";
                      "bcc"]%string)
            [map lit ["Widgets"; "5"; "Widget Mfg"; "E1"; "E2"; "12"]%string]
            (map lit ["Gadgets"; "6"; "Gadget Mfg"]%string)
            [map lit ["Gizmos"; "7"; "Gizmo Mfg"; "E1"; "E2"; "13"]%string]
            [(lit "5", lit "12")] _ _ _ _).
  - discriminate.
  - discriminate.
  - simpl. lia.
  - reflexivity.
Defined.

(** X9: a non-blank record of the sector file with fewer than eight cells
    ends the load with [AttributeError] once the load has come to it,
    whatever its cells hold: the code and name cells are trimmed before
    the include flag is looked at, so this holds for a record that is not
    flagged for inclusion too. *)
Theorem sector_short_record_raises :
  forall (lower : pystr -> pystr) (hdr : list pystr) (pre : list (list pystr))
         (rec : list pystr) (post : list (list pystr)) (out : dict),
    hdr <> [] -> rec <> [] -> List.length rec < 8 ->
    outcome (load_bcc_sectors lower (hdr :: pre)) = Ok out ->
    outcome (load_bcc_sectors lower (hdr :: pre ++ rec :: post)) = Raise AttributeError.
Proof.
  intros lower hdr pre rec post out Hh Hr Hl H.
  rewrite (load_bcc_at_row lower hdr pre rec post out Hh Hr H), bcc_row_cases.
  destruct (item_bcc rec) as (-> & _ & ->).
  rewrite (proj2 (nth_error_None rec 7)) by lia.
  now destruct (nth_error rec 0).
Qed.

Lemma sector_short_record_raises_witness :
  outcome (load_bcc_sectors ascii_lower
             [map lit ["nace"; "i1"; "i2"; "exio3"; "name"; "notes"; "use"; "bcc_name"];
              map lit ["12"; "_"; "_"; "Widget Mfg"; "Widgets"; ""; "no"]]%string)
  = Raise AttributeError.
Proof.
  refine (sector_short_record_raises ascii_lower
            (map lit ["nace"; "i1"; "i2"; "exio3"; "name"; "notes"; "use";
                      "bcc_name"]%string)
            []
            (map lit ["12"; "_"; "_"; "Widget Mfg"; "Widgets"; ""; "no"]%string)
            [] [] _ _ _ _).
  - discriminate.
  - discriminate.
  - simpl. lia.
  - reflexivity.
Defined.

(** ** What a loaded mapping holds *)

Lemma In_dict_set (d : dict) (k v : pystr) (kv : pystr * pystr) :
  In kv (dict_set d k v) -> kv = (k, v) \/ In kv d.
Proof.
  induction d as [|[k' v'] d IH]; simpl.
  - intros [<-|[]]. now left.
  - destruct (str_eqb k' k) eqn:E; simpl.
    + apply str_eqb_eq in E. subst k'. intros [<-|H]; auto.
    + intros [<-|H]; auto. destruct (IH H); auto.
Qed.

Lemma smech_rows_hold (P : pystr -> pystr -> Prop) :
  (forall s t, rx_match RX_DIGITS (strip s) = true ->
               rx_match RX_DIGITS (strip t) = true -> P (strip s) (strip t)) ->
  forall rows i out m,
    (forall k v, In (k, v) out -> P k v) ->
    outcome (smech_rows i out rows) = Ok m ->
    forall k v, In (k, v) m -> P k v.
Proof.
  intros HP. induction rows as [|r rows IH]; intros i out m Hout H; simpl in H.
  - now injection H as <-.
  - rewrite outcome_bind in H.
    destruct (outcome (smech_row i out r)) as [o|e] eqn:E; [|discriminate].
    apply (IH (S i) o m); [|exact H]. clear IH H.
    rewrite smech_row_cases in E.
    destruct (item r "smech_code") as [s|]; [|discriminate].
    destruct (item r "bcc_code") as [t|]; [|discriminate].
    destruct (str_eqb (strip t) []); [now injection E as <-|].
    destruct (rx_match RX_DIGITS (strip s)) eqn:Es; [|discriminate].
    destruct (rx_match RX_DIGITS (strip t)) eqn:Et; [|discriminate].
    assert (Eo : o = dict_set out (strip s) (strip t)).
    { cbn [negb] in E. cbv iota in E.
      destruct (dict_get out (strip s)) as [v'|]; [|simpl in E; congruence].
      destruct (str_eqb v' (strip t)); simpl in E; [congruence|discriminate]. }
    subst o. intros k v Hin. apply In_dict_set in Hin as [Hin|Hin].
    + injection Hin as -> ->. now apply HP.
    + now apply Hout.
Qed.

(** X10: the mapping a successful SMECH load returns has every source
    code once, and each of its source and target codes is a non-empty
    string of ASCII digits. *)
Theorem smech_mapping_is_digits :
  forall (file : list (list pystr)) (m : dict),
    outcome (load_smech_to_bcc file) = Ok m ->
    NoDup (keys m)
    /\ forall k v, In (k, v) m -> digit_string k /\ digit_string v.
Proof.
  intros file m H. unfold load_smech_to_bcc in H.
  destruct (DictReader SMECH_SECTORS_COLUMNS file) as [|h rows]; [discriminate|].
  split.
  - eapply smech_rows_NoDup; [exact H|constructor].
  - apply (smech_rows_hold (fun k v => digit_string k /\ digit_string v))
      with (rows := rows) (i := 2) (out := []); [|easy|exact H].
    intros s t Hs Ht. split; now apply rx_digits_strip.
Qed.

Lemma smech_mapping_is_digits_witness :
  NoDup (keys [(lit "5", lit "12"); (lit "7", lit "13")])
  /\ forall k v, In (k, v) [(lit "5", lit "12"); (lit "7", lit "13")] ->
                 digit_string k /\ digit_string v.
Proof.
  refine (smech_mapping_is_digits
            [map lit ["smech_name"; "smech_code"; "nace_name"; "exio2"; "exio3"; "bcc"];
             map lit ["Widgets"; " 5 "; "Widget Mfg"; "E1"; "E2"; "12"];
             map lit ["Gizmos"; "7"; "Gizmo Mfg"; "E1"; "E2"; " 13"]]%string _ _).
  reflexivity.
Defined.

Lemma bcc_rows_hold (lower : pystr -> pystr) (P : pystr -> pystr -> Prop) :
  (forall c n, rx_match RX_DIGITS (strip c) = true ->
               rx_match RX_DIGITS (strip n) = false -> P (strip c) (strip n)) ->
  forall rows i out m,
    (forall k v, In (k, v) out -> P k v) ->
    outcome (bcc_rows lower i out rows) = Ok m ->
    forall k v, In (k, v) m -> P k v.
Proof.
  intros HP. induction rows as [|r rows IH]; intros i out m Hout H; simpl in H.
  - now injection H as <-.
  - rewrite outcome_bind in H.
    destruct (outcome (bcc_row lower i out r)) as [o|e] eqn:E; [|discriminate].
    apply (IH (S i) o m); [|exact H]. clear IH H.
    rewrite bcc_row_cases in E.
    destruct (item r "nace_code") as [c|]; [|discriminate].
    destruct (item r "bcc_name") as [n|]; [|discriminate].
    destruct (item r "use_for_bcc") as [f|]; [|discriminate].
    destruct (in_yes (lower (strip f))); [|now injection E as <-].
    destruct (rx_match RX_DIGITS (strip c)) eqn:Ec; [|discriminate].
    destruct (rx_match RX_DIGITS (strip n)) eqn:En; [discriminate|].
    cbn [negb] in E. cbv iota in E.
    destruct (dict_in (strip c) out); simpl in E; [discriminate|].
    injection E as <-. intros k v Hin. apply In_dict_set in Hin as [Hin|Hin].
    + injection Hin as -> ->. now apply HP.
    + now apply Hout.
Qed.

(** X11: the mapping a successful sector load returns has every code
    once; each code is a non-empty string of ASCII digits, and no display
    name is one (a display name may be empty). *)
Theorem sector_mapping_is_validated :
  forall (lower : pystr -> pystr) (file : list (list pystr)) (t : dict),
    outcome (load_bcc_sectors lower file) = Ok t ->
    NoDup (keys t)
    /\ forall k v, In (k, v) t -> digit_string k /\ ~ digit_string v.
Proof.
  intros lower file t H. split; [now apply load_bcc_sectors_ok in H as [Hn _]|].
  unfold load_bcc_sectors in H.
  destruct (DictReader BCC_SECTORS_COLUMNS file) as [|h rows]; [discriminate|].
  apply (bcc_rows_hold lower (fun k v => digit_string k /\ ~ digit_string v))
    with (rows := rows) (i := 2) (out := []); [|easy|exact H].
  intros c n Hc Hn. split; [now apply rx_digits_strip|].
  intros Hd. apply rx_digits_strip in Hd. congruence.
Qed.

Lemma sector_mapping_is_validated_witness :
  NoDup (keys [(lit "12", lit "Widgets"); (lit "13", lit "")])
  /\ forall k v, In (k, v) [(lit "12", lit "Widgets"); (lit "13", lit "")] ->
                 digit_string k /\ ~ digit_string v.
Proof.
  refine (sector_mapping_is_validated ascii_lower
            [map lit ["nace"; "i1"; "i2"; "exio3"; "name"; "notes"; "use"; "bcc_name"];
             map lit ["12"; "_"; "_"; "Widget Mfg"; "Widgets"; ""; "x"; "Widgets"];
             map lit ["13"; "_"; "_"; "Gadget Mfg"; "Gadgets"; ""; "y"; "  "]]%string
            _ _).
  reflexivity.
Defined.

(** ** The SMECH mapping against the rows of the file *)

Lemma smech_rows_complete (rows : list row) :
  forall i out m r,
    outcome (smech_rows i out rows) = Ok m -> In r rows ->
    cell r "bcc_code" <> [] ->
    dict_get m (cell r "smech_code") = Some (cell r "bcc_code").
Proof.
  intros i out m r H Hin Hne. unfold cell in *.
  destruct (item r "bcc_code") as [t|] eqn:Et; [|congruence].
  destruct (item r "smech_code") as [s|] eqn:Es.
  - now destruct (smech_rows_recorded rows i out m r s t H Hin Es Et Hne).
  - exfalso. clear Hne. revert i out H.
    induction rows as [|r0 rows IH]; intros i out H; [easy|].
    simpl in H. rewrite outcome_bind in H.
    destruct (outcome (smech_row i out r0)) as [o|e] eqn:E; [|discriminate].
    destruct Hin as [->|Hin]; [|now apply (IH Hin (S i) o)].
    rewrite smech_row_cases, Es in E. discriminate.
Qed.

Lemma smech_rows_sound (rows : list row) :
  forall i out m,
    outcome (smech_rows i out rows) = Ok m ->
    forall k v, In (k, v) m ->
                In (k, v) out
                \/ exists r, In r rows /\ cell r "smech_code" = k
                             /\ cell r "bcc_code" = v /\ v <> [].
Proof.
  induction rows as [|r rows IH]; intros i out m H k v Hin; simpl in H.
  - injection H as <-. now left.
  - rewrite outcome_bind in H.
    destruct (outcome (smech_row i out r)) as [o|e] eqn:E; [|discriminate].
    destruct (IH (S i) o m H k v Hin) as [Ho|(r' & Hr' & Hk & Hv & Hne)].
    + rewrite smech_row_cases in E.
      destruct (item r "smech_code") as [s|] eqn:Es; [|discriminate].
      destruct (item r "bcc_code") as [t|] eqn:Et; [|discriminate].
      destruct (str_eqb (strip t) []) eqn:Ee; [injection E as <-; now left|].
      destruct (rx_match RX_DIGITS (strip s)); [|discriminate].
      destruct (rx_match RX_DIGITS (strip t)); [|discriminate].
      cbn [negb] in E. cbv iota in E.
      assert (Eo : o = dict_set out (strip s) (strip t)).
      { destruct (dict_get out (strip s)) as [v'|]; [|simpl in E; congruence].
        destruct (str_eqb v' (strip t)); simpl in E; [congruence|discriminate]. }
      subst o. apply In_dict_set in Ho as [Ho|Ho]; [|now left].
      injection Ho as -> ->. right. exists r. unfold cell. rewrite Es, Et.
      repeat split; [now left|]. now apply str_eqb_neq.
    + right. exists r'. repeat split; try assumption. now right.
Qed.

(** X12: after a successful SMECH load, the mapping is exactly what the
    data rows say.  Every data row with a non-empty trimmed target code has
    its trimmed source code mapped to that target code; and every pair of
    the mapping is the trimmed source and target code of some data row with
    a non-empty target code. *)
Theorem smech_mapping_is_the_rows :
  forall (file : list (list pystr)) (m : dict),
    outcome (load_smech_to_bcc file) = Ok m ->
    (forall r, In r (data_rows SMECH_SECTORS_COLUMNS file) ->
               cell r "bcc_code" <> [] ->
               dict_get m (cell r "smech_code") = Some (cell r "bcc_code"))
    /\ (forall k v, In (k, v) m ->
                    exists r, In r (data_rows SMECH_SECTORS_COLUMNS file)
                              /\ cell r "smech_code" = k
                              /\ cell r "bcc_code" = v /\ v <> []).
Proof.
  intros file m H. unfold load_smech_to_bcc, data_rows in *.
  destruct (DictReader SMECH_SECTORS_COLUMNS file) as [|h rows]; [discriminate|].
  cbn [tl]. split.
  - intros r Hin Hne. now apply (smech_rows_complete rows 2 [] m r).
  - intros k v Hin.
    destruct (smech_rows_sound rows 2 [] m H k v Hin) as [[]|Hr]. exact Hr.
Qed.

Lemma smech_mapping_is_the_rows_witness :
  dict_get [(lit "5", lit "12"); (lit "7", lit "13")]
           (cell (zip_row SMECH_SECTORS_COLUMNS
                    (map lit ["Gizmos"; "7"; "Gizmo Mfg"; "E1"; "E2"; " 13"]%string))
                 "smech_code")
  = Some (cell (zip_row SMECH_SECTORS_COLUMNS
                  (map lit ["Gizmos"; "7"; "Gizmo Mfg"; "E1"; "E2"; " 13"]%string))
               "bcc_code").
Proof.
  refine (proj1 (smech_mapping_is_the_rows
            [map lit ["smech_name"; "smech_code"; "nace_name"; "exio2"; "exio3"; "bcc"];
             map lit ["Widgets"; " 5 "; "Widget Mfg"; "E1"; "E2"; "12"];
             map lit ["Gizmos"; "7"; "Gizmo Mfg"; "E1"; "E2"; " 13"]]%string
            [(lit "5", lit "12"); (lit "7", lit "13")] _) _ _ _).
  - reflexivity.
  - right. left. reflexivity.
  - discriminate.
Defined.

(** ** What the loaders print *)

Lemma smech_row_line (i : nat) (out o : dict) (r : row) :
  outcome (smech_row i out r) = Ok o -> trace (smech_row i out r) = [row_line r].
Proof.
  rewrite smech_row_cases. unfold row_line, cell.
  destruct (item r "smech_code") as [s|]; [|discriminate].
  destruct (item r "bcc_code") as [t|]; [|discriminate].
  destruct (str_eqb (strip t) []); [reflexivity|].
  destruct (negb (rx_match RX_DIGITS (strip s))); [discriminate|].
  destruct (negb (rx_match RX_DIGITS (strip t))); [discriminate|].
  destruct (dict_get out (strip s)) as [v|]; [|reflexivity].
  destruct (str_eqb v (strip t)); [reflexivity|discriminate].
Qed.

Lemma smech_rows_lines (rows : list row) :
  forall i out m,
    outcome (smech_rows i out rows) = Ok m ->
    trace (smech_rows i out rows) = map row_line rows.
Proof.
  induction rows as [|r rows IH]; intros i out m H; [reflexivity|].
  simpl in *. rewrite outcome_bind in H. rewrite trace_bind.
  destruct (outcome (smech_row i out r)) as [o|e] eqn:E; [|discriminate].
  now rewrite (smech_row_line i out o r E), (IH (S i) o m H).
Qed.

(** X13: a successful SMECH load prints exactly one line per data row, in
    file order: the warning for a row without a target code, the mapping
    note for every other row (a harmless repeat included).  The sector
    load never prints anything, whether it succeeds or fails. *)
Theorem loaders_printed_lines :
  forall (lower : pystr -> pystr) (file file' : list (list pystr)) (m : dict),
    outcome (load_smech_to_bcc file) = Ok m ->
    trace (load_smech_to_bcc file) = map row_line (data_rows SMECH_SECTORS_COLUMNS file)
    /\ trace (load_bcc_sectors lower file') = [].
Proof.
  intros lower file file' m H. split; [|apply trace_load_bcc].
  unfold load_smech_to_bcc, data_rows in *.
  destruct (DictReader SMECH_SECTORS_COLUMNS file) as [|h rows]; [discriminate|].
  now apply (smech_rows_lines rows 2 [] m).
Qed.

Lemma loaders_printed_lines_witness :
  trace (load_smech_to_bcc
           [map lit ["smech_name"; "smech_code"; "nace_name"; "exio2"; "exio3"; "bcc"];
            map lit ["Widgets"; "5"; "Widget Mfg"; "E1"; "E2"; "12"];
            map lit ["Gadgets"; "6"; "Gadget Mfg"; "E1"; "E2"; ""]]%string)
  = [Print (smech_note (lit "5") (Some (lit "Widgets")) (lit "12"));
     Print (smech_warning (lit "6") (Some (lit "Gadgets")))].
Proof.
  refine (proj1 (loaders_printed_lines ascii_lower
            [map lit ["smech_name"; "smech_code"; "nace_name"; "exio2"; "exio3"; "bcc"];
             map lit ["Widgets"; "5"; "Widget Mfg"; "E1"; "E2"; "12"];
             map lit ["Gadgets"; "6"; "Gadget Mfg"; "E1"; "E2"; ""]]%string
            [] [(lit "5", lit "12")] _)).
  reflexivity.
Defined.

(** ** When the sector load succeeds *)

Lemma bcc_rows_succeed (lower : pystr -> pystr) (recs : list (list pystr)) :
  Forall (fun rec => 8 <= List.length rec) recs ->
  forall i out,
    (forall e, In e (map sector_entry (filter (flagged lower) recs)) ->
               digit_string (fst e) /\ ~ digit_string (snd e)) ->
    NoDup (keys out ++ map fst (map sector_entry (filter (flagged lower) recs))) ->
    bcc_rows lower i out (map (zip_row BCC_SECTORS_COLUMNS) recs)
    = ([], Ok (out ++ map sector_entry (filter (flagged lower) recs))).
Proof.
  induction 1 as [|rec recs Hr _ IH]; intros i out Hv Hn.
  - simpl. now rewrite app_nil_r.
  - cbn [map bcc_rows filter] in *. rewrite (bcc_row_record lower i out rec Hr).
    destruct (flagged lower rec); cbn [negb]; cbv iota.
    + cbn [map] in *.
      destruct (Hv (sector_entry rec) (or_introl eq_refl)) as [Hc Hname].
      unfold sector_entry in Hc, Hname. cbn [fst snd] in Hc, Hname.
      apply rx_digits_strip in Hc.
      assert (Hnm : rx_match RX_DIGITS (snd (sector_entry rec)) = false).
      { destruct (rx_match RX_DIGITS (snd (sector_entry rec))) eqn:E; [|reflexivity].
        apply rx_digits_strip in E. contradiction. }
      assert (Hin : dict_in (fst (sector_entry rec)) out = false).
      { destruct (dict_in (fst (sector_entry rec)) out) eqn:E; [|reflexivity].
        apply dict_in_keys in E. apply NoDup_remove_2 in Hn. elim Hn.
        apply in_or_app. now left. }
      change (strip (nth 0 rec [])) with (fst (sector_entry rec)) in Hc.
      rewrite Hc, Hnm, Hin. cbn [negb]. cbv iota. rewrite bind_pair_ok.
      rewrite dict_set_new by assumption.
      rewrite IH.
      * cbn [trace outcome fst snd app]. rewrite <- app_assoc.
        now destruct (sector_entry rec).
      * intros e He. apply Hv. now right.
      * unfold keys in *. rewrite map_app, <- app_assoc. cbn [map app].
        now destruct (sector_entry rec).
    + rewrite bind_pair_ok, IH by assumption. reflexivity.
Qed.

(** X14: the sector load succeeds whenever the flagged records are good:
    if every record has its eight cells, every flagged record has a
    non-empty all-digit trimmed code and a trimmed display name that is
    not one, and no two flagged records share a code, then the load
    returns the entries of the flagged records in file order, printing
    nothing.  What the other records hold does not matter. *)
Theorem sector_load_succeeds :
  forall (lower : pystr -> pystr) (hdr : list pystr) (recs : list (list pystr)),
    hdr <> [] ->
    Forall (fun rec => 8 <= List.length rec) recs ->
    (forall e, In e (map sector_entry (filter (flagged lower) recs)) ->
               digit_string (fst e) /\ ~ digit_string (snd e)) ->
    NoDup (map fst (map sector_entry (filter (flagged lower) recs))) ->
    load_bcc_sectors lower (hdr :: recs)
    = ([], Ok (map sector_entry (filter (flagged lower) recs))).
Proof.
  intros lower hdr recs Hh Hr Hv Hn. unfold load_bcc_sectors.
  rewrite DictReader_cons by assumption. rewrite DictReader_nonblank.
  - now rewrite (bcc_rows_succeed lower recs Hr 2 []).
  - eapply Forall_impl; [|exact Hr]. intros [|c rec]; simpl; [lia|discriminate].
Qed.

Lemma sector_load_succeeds_witness :
  load_bcc_sectors ascii_lower
    [map lit ["nace"; "i1"; "i2"; "exio3"; "name"; "notes"; "use"; "bcc_name"];
     map lit ["12"; "_"; "_"; "Widget Mfg"; "Widgets"; ""; "x"; "Widgets"];
     map lit ["zz"; "_"; "_"; "Other"; "Other"; ""; ""; "77"];
     map lit ["13"; "_"; "_"; "Gadget Mfg"; "Gadgets"; ""; "YES"; "Gadgets 2"]]%string
  = ([], Ok [(lit "12", lit "Widgets"); (lit "13", lit "Gadgets 2")]).
Proof.
  refine (sector_load_succeeds ascii_lower
            (map lit ["nace"; "i1"; "i2"; "exio3"; "name"; "notes"; "use";
                      "bcc_name"]%string)
            [map lit ["12"; "_"; "_"; "Widget Mfg"; "Widgets"; ""; "x"; "Widgets"];
             map lit ["zz"; "_"; "_"; "Other"; "Other"; ""; ""; "77"];
             map lit ["13"; "_"; "_"; "Gadget Mfg"; "Gadgets"; ""; "YES";
                      "Gadgets 2"]]%string
            _ _ _ _).
  - discriminate.
  - repeat constructor.
  - intros e [<-|[<-|[]]]; (split; [split; [discriminate|reflexivity]|]);
      intros [_ H]; discriminate.
  - repeat constructor; simpl; intuition discriminate.
Defined.

(** ** Runs of [main] that fail early, and runs without the formatter *)

Section MoreRunFacts.
Variable lower : pystr -> pystr.
Variable run : list pystr -> pystr -> result CompletedProcess.
Variable fs : Filesystem.

(** X15: a failure of either load ends the run with that very exception
    before anything is formatted, created or written.  When the SMECH
    load fails the sector file plays no part in the outcome; when the
    SMECH load succeeds and the sector load fails, the run ends with the
    sector load's exception. *)
Theorem load_failure_aborts_main :
  forall (args : Namespace) (f1 f2 : list (list pystr)) (ts : pystr) (e : exn),
    (outcome (load_smech_to_bcc f1) = Raise e ->
     outcome (main lower run fs args f1 f2 ts) = Raise e
     /\ effects (trace (main lower run fs args f1 f2 ts)) = [])
    /\ (forall m,
           outcome (load_smech_to_bcc f1) = Ok m ->
           outcome (load_bcc_sectors lower f2) = Raise e ->
           outcome (main lower run fs args f1 f2 ts) = Raise e
           /\ effects (trace (main lower run fs args f1 f2 ts)) = []).
Proof.
  intros args f1 f2 ts e. split.
  - intros H. unfold main.
    rewrite (M_eq (load_smech_to_bcc f1)), H, bind_pair_raise.
    cbn [outcome trace fst snd]. split; [reflexivity|].
    fold (trace (load_smech_to_bcc f1)). apply effects_load_smech.
  - intros m H1 H2. unfold main.
    rewrite (M_eq (load_smech_to_bcc f1)), H1, bind_pair_ok.
    rewrite (M_eq (load_bcc_sectors lower f2)), H2, bind_pair_raise.
    cbn [outcome trace fst snd]. split; [reflexivity|].
    rewrite effects_app. fold (trace (load_smech_to_bcc f1)).
    fold (trace (load_bcc_sectors lower f2)).
    now rewrite effects_load_smech, trace_load_bcc.
Qed.

(** X16: a run without the formatter ([--prettier] absent or negated)
    whose tables load and cross-check runs no process.  It writes the
    benchmark module and after it the sector module, each exactly as
    rendered from its template: what it wrote is nothing, the benchmark
    module alone, or both.  It returns normally exactly when the
    filesystem grants every call it makes: the creation of the directory
    dist, made if and only if an output path is missing or empty, and the
    opening and the writing of each of the two files; and then these
    calls, in this order, are all it did besides printing. *)
Theorem main_without_formatter :
  forall (args : Namespace) (f1 f2 : list (list pystr)) (ts : pystr) (m t : dict),
    is_true (prettier args) = false ->
    outcome (load_smech_to_bcc f1) = Ok m ->
    outcome (load_bcc_sectors lower f2) = Ok t ->
    (forall k v, In (k, v) m -> dict_in v t = true) ->
    (forall a i, ~ In (RunProcess a i) (trace (main lower run fs args f1 f2 ts)))
    /\ (exists n,
           written (trace (main lower run fs args f1 f2 ts))
           = firstn n
               [(output_benchmark_path args, benchmark_code_of (sector_list_of t) m ts);
                (output_bcc_sectors_path args, bcc_sectors_code_of (sector_list_of t) ts)])
    /\ (outcome (main lower run fs args f1 f2 ts) = Ok tt
        <-> (truthy (output_bcc args) && truthy (output_benchmark args) = false ->
             os_makedirs fs (lit "dist") = Ok tt)
            /\ open_for_writing fs BenchmarkModule (output_benchmark_path args) = Ok tt
            /\ write_and_close fs BenchmarkModule (output_benchmark_path args)
                 (benchmark_code_of (sector_list_of t) m ts) = Ok tt
            /\ open_for_writing fs SectorsModule (output_bcc_sectors_path args) = Ok tt
            /\ write_and_close fs SectorsModule (output_bcc_sectors_path args)
                 (bcc_sectors_code_of (sector_list_of t) ts) = Ok tt)
    /\ (outcome (main lower run fs args f1 f2 ts) = Ok tt ->
        effects (trace (main lower run fs args f1 f2 ts))
        = (if truthy (output_bcc args) && truthy (output_benchmark args)
           then []
           else [Makedirs (lit "dist")])
          ++ [OpenFile (output_benchmark_path args);
              WriteFile (output_benchmark_path args)
                        (benchmark_code_of (sector_list_of t) m ts);
              OpenFile (output_bcc_sectors_path args);
              WriteFile (output_bcc_sectors_path args)
                        (bcc_sectors_code_of (sector_list_of t) ts)]).
Proof.
  intros args f1 f2 ts m t Hp H1 H2 Hall.
  destruct (main_unformatted lower run fs args f1 f2 ts m t Hp H1 H2 Hall)
    as [Ho He].
  split; [|split; [|split]].
  - intros a i Hin.
    assert (Hin' : In (RunProcess a i)
                      (effects (trace (main lower run fs args f1 f2 ts)))).
    { apply filter_In. now split. }
    rewrite He in Hin'. exact (no_process_write_out _ _ _ _ a i Hin').
  - rewrite <- written_effects, He. apply written_write_out.
  - rewrite Ho. apply write_out_ok_iff.
  - rewrite Ho, He. intros Hok. rewrite (write_out_ok _ _ _ _ Hok).
    unfold makedirs_events.
    now destruct (truthy (output_bcc args)), (truthy (output_benchmark args)).
Qed.
End MoreRunFacts.

Lemma load_failure_aborts_main_witness :
  outcome (main ascii_lower echo disk_ok with_prettier []
             [map lit ["nace"; "i1"]%string] (lit "2022-06-01T12:00:00"))
  = Raise StopIteration.
Proof.
  refine (proj1 (proj1 (load_failure_aborts_main ascii_lower echo disk_ok with_prettier []
                          [map lit ["nace"; "i1"]%string] (lit "2022-06-01T12:00:00")
                          StopIteration) _)).
  reflexivity.
Defined.

Lemma main_without_formatter_witness :
  effects (trace (main ascii_lower echo disk_ok
                    {| prettier := Some false; prettier_cmd := lit "npx prettier";
                       prettier_config := None; prettier_config_bcc := None;
                       prettier_config_benchmark := None;
                       output_bcc := Some (lit "out/sectors.ts");
                       output_benchmark := Some (lit "out/naces.ts") |}
                    [map lit ["smech_name"; "smech_code"; "nace_name"; "exio2"; "exio3";
                              "bcc"];
                     map lit ["Widgets"; "5"; "Widget Mfg"; "E1"; "E2"; "12"]]%string
                    [map lit ["nace"; "i1"; "i2"; "exio3"; "name"; "notes"; "use";
                              "bcc_name"];
                     map lit ["12"; "_"; "_"; "Widget Mfg"; "Widgets"; ""; "x";
                              "Widgets"]]%string
                    (lit "2022-06-01T12:00:00")))
  = [OpenFile (lit "out/naces.ts");
     WriteFile (lit "out/naces.ts")
               (benchmark_code_of (sector_list_of [(lit "12", lit "Widgets")])
                                  [(lit "5", lit "12")] (lit "2022-06-01T12:00:00"));
     OpenFile (lit "out/sectors.ts");
     WriteFile (lit "out/sectors.ts")
               (bcc_sectors_code_of (sector_list_of [(lit "12", lit "Widgets")])
                                    (lit "2022-06-01T12:00:00"))].
Proof.
  refine (proj2 (proj2 (proj2
            (main_without_formatter ascii_lower echo disk_ok _ _ _ _
               [(lit "5", lit "12")] [(lit "12", lit "Widgets")] _ _ _ _))) _).
  - reflexivity.
  - reflexivity.
  - reflexivity.
  - intros k v [E|[]]. injection E as <- <-. reflexivity.
  - vm_compute. reflexivity.
Defined.

(** ** The payloads are plain ASCII *)

Lemma hexdigit_printable (d : N) : (d < 16)%N -> printable_ascii (hexdigit d) = true.
Proof.
  intros H. unfold printable_ascii, hexdigit.
  destruct (d <? 10)%N eqn:E; apply andb_true_iff; split; apply N.leb_le.
  - lia.
  - apply N.ltb_lt in E. lia.
  - lia.
  - lia.
Qed.

Lemma u_escape_printable (n : N) : forallb printable_ascii (u_escape n) = true.
Proof.
  unfold u_escape. cbn [forallb].
  rewrite !hexdigit_printable by (apply N.mod_lt; discriminate). reflexivity.
Qed.

Lemma escape_char_printable (c : N) : forallb printable_ascii (escape_char c) = true.
Proof.
  unfold escape_char.
  destruct (c =? 92)%N; [reflexivity|].
  destruct (c =? 34)%N; [reflexivity|].
  destruct ((32 <=? c) && (c <=? 126))%N eqn:E.
  { cbn [forallb]. unfold printable_ascii. now rewrite E. }
  destruct (c =? 8)%N; [reflexivity|].
  destruct (c =? 12)%N; [reflexivity|].
  destruct (c =? 10)%N; [reflexivity|].
  destruct (c =? 13)%N; [reflexivity|].
  destruct (c =? 9)%N; [reflexivity|].
  destruct (c <? 65536)%N; [apply u_escape_printable|].
  cbv zeta. now rewrite forallb_app, !u_escape_printable.
Qed.

Lemma encode_printable (s : pystr) :
  forallb printable_ascii (encode_basestring_ascii s) = true.
Proof.
  unfold encode_basestring_ascii. cbn [forallb]. rewrite forallb_app.
  change (printable_ascii 34) with true. cbn [andb forallb]. rewrite andb_true_r.
  induction s as [|c s IH]; [reflexivity|].
  cbn [flat_map]. now rewrite forallb_app, escape_char_printable, IH.
Qed.

Lemma join_printable (sep : pystr) (l : list pystr) :
  forallb printable_ascii sep = true ->
  Forall (fun x => forallb printable_ascii x = true) l ->
  forallb printable_ascii (join sep l) = true.
Proof.
  intros Hs Hl. induction Hl as [|x l Hx Hl IH]; [reflexivity|].
  destruct l as [|y l]; [exact Hx|].
  rewrite join_cons2, !forallb_app, Hx, Hs. exact IH.
Qed.

Lemma dumps_dict_printable (b : bool) (d : dict) :
  forallb printable_ascii (dumps_dict b d) = true.
Proof.
  unfold dumps_dict. rewrite !forallb_app.
  change (forallb printable_ascii (lit "{")) with true.
  change (forallb printable_ascii (lit "}")) with true.
  rewrite andb_true_r. cbn [andb]. apply join_printable; [reflexivity|].
  apply Forall_map. apply Forall_forall. intros kv _. unfold dumps_item.
  rewrite !forallb_app, !encode_printable. reflexivity.
Qed.

(** X17: whatever the strings of the tables hold, both kinds of payload
    consist of printable ASCII code points only (from the space to the
    tilde): every other code point is written as an escape, and a payload
    never holds a line break. *)
Theorem payloads_are_printable_ascii :
  forall (sort_keys : bool) (d : dict) (l : list dict),
    forallb printable_ascii (dumps_dict sort_keys d) = true
    /\ forallb printable_ascii (dumps_list l) = true.
Proof.
  intros sort_keys d l. split; [apply dumps_dict_printable|].
  unfold dumps_list. rewrite !forallb_app.
  change (forallb printable_ascii (lit "[")) with true.
  change (forallb printable_ascii (lit "]")) with true.
  rewrite andb_true_r. cbn [andb]. apply join_printable; [reflexivity|].
  apply Forall_map. apply Forall_forall. intros e _. apply dumps_dict_printable.
Qed.

(** ** The mapping payload does not depend on the order of the rows *)

Section SortedUnique.
Variable A : Type.
Variable key : A -> pystr.

Lemma NoDup_key_inj (l : list A) (x y : A) :
  NoDup (map key l) -> In x l -> In y l -> key x = key y -> x = y.
Proof.
  induction l as [|z l IH]; [easy|]. cbn [map]. intros Hn Hx Hy E.
  inversion Hn as [|? ? Hz Hl]; subst.
  destruct Hx as [->|Hx], Hy as [->|Hy]; try reflexivity.
  - elim Hz. rewrite E. now apply in_map.
  - elim Hz. rewrite <- E. now apply in_map.
  - now apply IH.
Qed.

Lemma sorted_unique (a : list A) :
  forall b,
    StronglySorted (fun x y => str_leb (key x) (key y) = true) a ->
    StronglySorted (fun x y => str_leb (key x) (key y) = true) b ->
    Permutation a b -> NoDup (map key a) -> a = b.
Proof.
  induction a as [|x a IH]; intros b Sa Sb Hp Hn.
  - apply Permutation_nil in Hp. now subst.
  - destruct b as [|y b]; [apply Permutation_sym, Permutation_nil in Hp; discriminate|].
    inversion Sa as [|? ? Sa' Fa]; inversion Sb as [|? ? Sb' Fb]; subst.
    assert (E : x = y).
    { assert (Hx : In x (y :: b)) by (apply (Permutation_in _ Hp); now left).
      assert (Hy : In y (x :: a))
        by (apply (Permutation_in _ (Permutation_sym Hp)); now left).
      destruct Hx as [Hx|Hx]; [now symmetry|].
      destruct Hy as [Hy|Hy]; [assumption|].
      rewrite Forall_forall in Fa, Fb.
      apply (NoDup_key_inj (x :: a)); try assumption; [now left|now right|].
      apply str_leb_antisym; [now apply Fa|now apply Fb]. }
    subst y. f_equal. apply IH; try assumption.
    + now apply Permutation_cons_inv in Hp.
    + cbn [map] in Hn. now inversion Hn.
Qed.
End SortedUnique.

(** X18: the encoded mapping lists its keys in ascending order and does
    not depend on the order in which the pairs were recorded: two mappings
    with distinct keys that hold the same pairs encode, with sorted keys,
    to the same payload. *)
Theorem mapping_payload_ignores_order :
  forall (m m' : dict),
    Permutation m m' -> NoDup (keys m) ->
    dumps_dict true m = dumps_dict true m'
    /\ dumps_dict true m = dumps_dict false (sorted (@fst pystr pystr) m)
    /\ StronglySorted (fun a b => str_leb (fst a) (fst b) = true)
                      (sorted (@fst pystr pystr) m).
Proof.
  intros m m' Hp Hn. split; [|split; [reflexivity|apply sorted_is_sorted]].
  assert (E : sorted (@fst pystr pystr) m = sorted (@fst pystr pystr) m').
  { apply (sorted_unique _ (@fst pystr pystr)).
    - apply sorted_is_sorted.
    - apply sorted_is_sorted.
    - rewrite !sorted_perm. exact Hp.
    - apply (Permutation_NoDup (l := map fst m)); [|exact Hn].
      apply Permutation_map. symmetry. apply sorted_perm. }
  unfold dumps_dict. now rewrite E.
Qed.

Lemma mapping_payload_ignores_order_witness :
  dumps_dict true [(lit "7", lit "13"); (lit "5", lit "12")]
  = dumps_dict true [(lit "5", lit "12"); (lit "7", lit "13")].
Proof.
  refine (proj1 (mapping_payload_ignores_order
                   [(lit "7", lit "13"); (lit "5", lit "12")]
                   [(lit "5", lit "12"); (lit "7", lit "13")] _ _)).
  - apply perm_swap.
  - repeat constructor; simpl; intuition discriminate.
Defined.

(** ** The first invalid row *)

(** X19: when the SMECH load comes to a row with a non-empty trimmed
    target code, it checks the source code first and the target code
    second, and fails at the first that is not a non-empty string of
    ASCII digits, with the error naming that field, its trimmed value and
    the row number (two plus the number of non-blank records before the
    row, the header excluded). *)
Theorem smech_invalid_code_raises :
  forall (hdr : list pystr) (pre : list (list pystr)) (rec : list pystr)
         (post : list (list pystr)) (out : dict) (s t : pystr),
    hdr <> [] ->
    nth_error rec 1 = Some s -> nth_error rec 5 = Some t -> strip t <> [] ->
    outcome (load_smech_to_bcc (hdr :: pre)) = Ok out ->
    let n := 2 + List.length (DictReader SMECH_SECTORS_COLUMNS pre) in
    (~ digit_string (strip s) ->
     outcome (load_smech_to_bcc (hdr :: pre ++ rec :: post))
     = Raise (digits_error "smech_code" (strip s) n))
    /\ (digit_string (strip s) -> ~ digit_string (strip t) ->
        outcome (load_smech_to_bcc (hdr :: pre ++ rec :: post))
        = Raise (digits_error "bcc_code" (strip t) n)).
Proof.
  intros hdr pre rec post out s t Hh Hs Ht Hne H n.
  assert (Hr : rec <> []) by (intros ->; discriminate).
  rewrite (load_smech_at_row hdr pre rec post out Hh Hr H), smech_row_cases.
  destruct (item_smech rec) as (_ & -> & ->). rewrite Hs, Ht.
  rewrite (proj2 (str_eqb_neq (strip t) [])) by assumption.
  split.
  - intros Hd. destruct (rx_match RX_DIGITS (strip s)) eqn:E; [|reflexivity].
    apply rx_digits_strip in E. contradiction.
  - intros Hd Hd'. apply rx_digits_strip in Hd. rewrite Hd. cbn [negb]. cbv iota.
    destruct (rx_match RX_DIGITS (strip t)) eqn:E; [|reflexivity].
    apply rx_digits_strip in E. contradiction.
Qed.

Lemma smech_invalid_code_raises_witness :
  outcome (load_smech_to_bcc
             [map lit ["smech_name"; "smech_code"; "nace_name"; "exio2"; "exio3"; "bcc"];
              map lit ["Widgets"; "5"; "Widget Mfg"; "E1"; "E2"; "12"];
              [];
              map lit ["Gadgets"; "6a"; "Gadget Mfg"; "E1"; "E2"; "x13"]]%string)
  = Raise (digits_error "smech_code" (lit "6a") 3).
Proof.
  refine (proj1 (smech_invalid_code_raises
            (map lit ["smech_name"; "smech_code"; "nace_name"; "exio2"; "exio3";
                      "bcc"]%string)
            [map lit ["Widgets"; "5"; "Widget Mfg"; "E1"; "E2"; "12"]%string; []]
            (map lit ["Gadgets"; "6a"; "Gadget Mfg"; "E1"; "E2"; "x13"]%string)
            [] [(lit "5", lit "12")] (lit "6a") (lit "x13") _ _ _ _ _) _).
  - discriminate.
  - reflexivity.
  - reflexivity.
  - discriminate.
  - reflexivity.
  - intros [_ H]. discriminate.
Defined.

(** X20: when the sector load comes to a flagged record with its eight
    cells, it checks the code first and the display name second: a
    trimmed code that is not a non-empty string of ASCII digits raises
    the error naming the code field, that value and the row number;
    otherwise a trimmed display name that is such a string raises the
    error naming the display-name field. *)
Theorem sector_invalid_row_raises :
  forall (lower : pystr -> pystr) (hdr : list pystr) (pre : list (list pystr))
         (rec : list pystr) (post : list (list pystr)) (out : dict),
    hdr <> [] -> 8 <= List.length rec -> flagged lower rec = true ->
    outcome (load_bcc_sectors lower (hdr :: pre)) = Ok out ->
    let n := 2 + List.length (DictReader BCC_SECTORS_COLUMNS pre) in
    let code := fst (sector_entry rec) in
    let name := snd (sector_entry rec) in
    (~ digit_string code ->
     outcome (load_bcc_sectors lower (hdr :: pre ++ rec :: post))
     = Raise (digits_error "nace_code" code n))
    /\ (digit_string code -> digit_string name ->
        outcome (load_bcc_sectors lower (hdr :: pre ++ rec :: post))
        = Raise (non_digits_error "bcc_name" name n)).
Proof.
  intros lower hdr pre rec post out Hh Hl Hf H n code name.
  assert (Hr : rec <> []) by (intros ->; simpl in Hl; lia).
  rewrite (load_bcc_at_row lower hdr pre rec post out Hh Hr H).
  rewrite (bcc_row_record lower _ out rec Hl), Hf. cbn [negb]. cbv iota.
  fold code name. unfold code, name, sector_entry. cbn [fst snd].
  split.
  - intros Hd. destruct (rx_match RX_DIGITS (strip (nth 0 rec []))) eqn:E;
      [|reflexivity].
    apply rx_digits_strip in E. contradiction.
  - intros Hd Hd'. apply rx_digits_strip in Hd, Hd'. now rewrite Hd, Hd'.
Qed.

Lemma sector_invalid_row_raises_witness :
  outcome (load_bcc_sectors ascii_lower
             [map lit ["nace"; "i1"; "i2"; "exio3"; "name"; "notes"; "use"; "bcc_name"];
              map lit ["12"; "_"; "_"; "Widget Mfg"; "Widgets"; ""; "x"; " 2022 "]]%string)
  = Raise (non_digits_error "bcc_name" (lit "2022") 2).
Proof.
  refine (proj2 (sector_invalid_row_raises ascii_lower
            (map lit ["nace"; "i1"; "i2"; "exio3"; "name"; "notes"; "use";
                      "bcc_name"]%string)
            []
            (map lit ["12"; "_"; "_"; "Widget Mfg"; "Widgets"; ""; "x"; " 2022 "]%string)
            [] [] _ _ _ _) _ _).
  - discriminate.
  - simpl. lia.
  - reflexivity.
  - reflexivity.
  - split; [discriminate|reflexivity].
  - split; [discriminate|reflexivity].
Defined.

(** ** The call of the formatter *)









